(** * telegram_bitte_bot: the conversation bot, its stream parsers and its
      token-preference parser

    A shallow embedding of [chatbot.py], [final.py] and [swap.py].

    Modelling conventions.
    - A Python [str] is a [string]: the sequence of bytes of its UTF-8
      encoding.  All the character classes the code tests ([str.strip],
      [str.isdigit], [\d], [\s], [str.upper], hexadecimal digits) are
      modelled on the ASCII range; bytes above 127 belong to none of them.
    - A Python [int] is a [Z]; a Python [float] is a [spec_float] at the
      binary64 format, with the IEEE operations of [SpecFloat].
    - Values decoded from JSON are the inductive [value]; a [dict] whose
      order matters is an association list in insertion order, the
      per-user stores are [gmap]s.
    - An exception is a constructor of [exn]; code that can raise returns a
      [result]; handlers that mutate the bot thread the bot's state through
      a state-and-exception monad.
    - [json.loads], the HTTP exchange, [uuid.uuid4] and the chain library
      are outside the repository: the decoder is a parameter of the
      parsers (with the reference decoder [Json.loads] for running them),
      the others are inputs of the step that uses them.
    - A message template (an f-string sent to the chat or to the agent) is
      a constructor that carries the interpolated values.
    - [int(s)] is the arbitrary-precision conversion of the language, without
      the digit limit an interpreter may set; logging, printing and
      [asyncio.sleep] are left out.

    The file has three parts: the program, the notions the claims speak of,
    and the theorems. *)

From Stdlib Require Import ZArith String Ascii List Lia Bool.
From Stdlib Require Import Floats.SpecFloat.
From stdpp Require Import gmap strings list fin_maps.

Local Open Scope string_scope.
Local Open Scope Z_scope.

(** ** Exceptions and results *)

Inductive exn :=
| JSONDecodeError
| KeyError
| ValueError (msg : string)
| TypeError
| AttributeError
| OverflowError
| IndexError
| RecursionError
| ClientError.

Inductive result (A : Type) :=
| Ok (a : A)
| Raise (e : exn).
Arguments Ok {A} a.
Arguments Raise {A} e.

#[global] Instance result_ret : MRet result := fun _ a => Ok a.
#[global] Instance result_bind : MBind result := fun _ _ f m =>
  match m with
  | Ok a => f a
  | Raise e => Raise e
  end.

(** [isinstance(e, ValueError)]: [JSONDecodeError] is a subclass of
    [ValueError]. *)
Definition is_value_error (e : exn) : bool :=
  match e with
  | ValueError _ | JSONDecodeError => true
  | _ => false
  end.

(** ** Strings *)

Definition char_code (c : ascii) : Z := Z.of_N (N_of_ascii c).

Definition char_between (lo hi : Z) (c : ascii) : bool :=
  (lo <=? char_code c) && (char_code c <=? hi).

(** [str.isspace] on one character. *)
Definition is_space (c : ascii) : bool :=
  char_between 9 13 c || char_between 28 32 c.

(** A decimal digit, as [\d] and [str.isdigit] see it. *)
Definition is_digit (c : ascii) : bool := char_between 48 57 c.

Definition digit_value (c : ascii) : Z := char_code c - 48.

Definition newline : ascii := ascii_of_nat 10.

Definition char_upper (c : ascii) : ascii :=
  if char_between 97 122 c then ascii_of_N (N_of_ascii c - 32) else c.

Definition char_lower (c : ascii) : ascii :=
  if char_between 65 90 c then ascii_of_N (N_of_ascii c + 32) else c.

Fixpoint string_map (f : ascii -> ascii) (s : string) : string :=
  match s with
  | EmptyString => EmptyString
  | String c s' => String (f c) (string_map f s')
  end.

(** [s.upper()] and [s.lower()]. *)
Definition upper (s : string) : string := string_map char_upper s.
Definition lower (s : string) : string := string_map char_lower s.

Fixpoint string_forallb (p : ascii -> bool) (s : string) : bool :=
  match s with
  | EmptyString => true
  | String c s' => p c && string_forallb p s'
  end.

Definition is_empty (s : string) : bool :=
  match s with EmptyString => true | String _ _ => false end.

(** [s.lstrip(chars)], [s.rstrip(chars)] and [s.strip(chars)], the set of
    characters given by its membership test. *)
Fixpoint lstrip_by (p : ascii -> bool) (s : string) : string :=
  match s with
  | EmptyString => EmptyString
  | String c s' => if p c then lstrip_by p s' else s
  end.

Fixpoint rstrip_by (p : ascii -> bool) (s : string) : string :=
  match s with
  | EmptyString => EmptyString
  | String c s' =>
      match rstrip_by p s' with
      | EmptyString => if p c then EmptyString else String c EmptyString
      | r => String c r
      end
  end.

Definition strip_by (p : ascii -> bool) (s : string) : string :=
  rstrip_by p (lstrip_by p s).

(** [s.strip()]. *)
Definition strip (s : string) : string := strip_by is_space s.

(** [s.split(sep)] for a one-character separator: never the empty list. *)
Fixpoint split_on (sep : ascii) (s : string) : list string :=
  match s with
  | EmptyString => [EmptyString]
  | String c s' =>
      if Ascii.eqb c sep then EmptyString :: split_on sep s'
      else match split_on sep s' with
           | h :: t => String c h :: t
           | [] => [String c EmptyString]
           end
  end.

(** [s.split('\n')]. *)
Definition split_lines (s : string) : list string := split_on newline s.

(** ['\n'.join(ls)]. *)
Definition join_lines (ls : list string) : string :=
  String.concat (String newline EmptyString) ls.

(** [s.startswith(p)]. *)
Definition startswith (p s : string) : bool := String.prefix p s.

(** [s[n:]]. *)
Fixpoint drop_chars (n : nat) (s : string) : string :=
  match n, s with
  | O, _ => s
  | S n', String _ s' => drop_chars n' s'
  | S _, EmptyString => EmptyString
  end.

(** [sub in s]. *)
Fixpoint contains (sub s : string) : bool :=
  startswith sub s ||
  match s with
  | EmptyString => false
  | String _ s' => contains sub s'
  end.

(** [s.isdigit()]: at least one character, all of them digits. *)
Definition isdigit (s : string) : bool :=
  negb (is_empty s) && string_forallb is_digit s.

(** The number a run of decimal digits denotes, [int(s)] on such a run. *)
Fixpoint int_of_digits_from (acc : Z) (s : string) : Z :=
  match s with
  | EmptyString => acc
  | String c s' => int_of_digits_from (10 * acc + digit_value c) s'
  end.

Definition int_of_digits (s : string) : Z := int_of_digits_from 0 s.

(** [s.replace(old, "")] for a non-empty [old]: every non-overlapping
    occurrence, leftmost first, is removed.  [skip] counts the characters of
    an occurrence still to be dropped. *)
Fixpoint remove_all_from (skip : nat) (old s : string) : string :=
  match s with
  | EmptyString => EmptyString
  | String c s' =>
      match skip with
      | S k => remove_all_from k old s'
      | O =>
          if startswith old s then remove_all_from (String.length old - 1) old s'
          else String c (remove_all_from O old s')
      end
  end.

Definition remove_all (old s : string) : string := remove_all_from O old s.

(** [str(n)] for an [int]. *)
Definition digit_char (d : Z) : ascii := ascii_of_N (Z.to_N (48 + d)).

Fixpoint decimal_digits (fuel : nat) (n : Z) (acc : string) : string :=
  match fuel with
  | O => acc
  | S fuel' =>
      let acc' := String (digit_char (n mod 10)) acc in
      if n <? 10 then acc' else decimal_digits fuel' (n / 10) acc'
  end.

Definition str_of_int (n : Z) : string :=
  let fuel := S (Z.to_nat (Z.log2 (Z.abs n))) in
  if n <? 0 then String "-" (decimal_digits fuel (- n) EmptyString)
  else decimal_digits fuel n EmptyString.

(** ** Python values *)

(** The values [json.loads] produces, which are also the values the bot
    stores: [None], [bool], [int], [float], [str], [list], and [dict] with
    string keys in insertion order. *)
#[warnings="-register-all"]
Inductive value :=
| VNone
| VBool (b : bool)
| VInt (n : Z)
| VFloat (f : spec_float)
| VStr (s : string)
| VList (l : list value)
| VDict (d : list (string * value)).

Definition binary64_prec : Z := 53.
Definition binary64_emax : Z := 1024.

(** Truth value of an object, as [if v:] tests it. *)
Definition truthy (v : value) : bool :=
  match v with
  | VNone => false
  | VBool b => b
  | VInt n => negb (n =? 0)
  | VFloat (S754_zero _) => false
  | VFloat _ => true
  | VStr s => negb (is_empty s)
  | VList l => match l with [] => false | _ => true end
  | VDict d => match d with [] => false | _ => true end
  end.

(** [list] and [dict] are unhashable: using one as a key is a [TypeError]. *)
Definition hashable (v : value) : bool :=
  match v with
  | VList _ | VDict _ => false
  | _ => true
  end.

(** Exact comparison of an [int] with a [float]. *)
Definition int_eq_float (n : Z) (f : spec_float) : bool :=
  match f with
  | S754_zero _ => n =? 0
  | S754_finite s m e =>
      let sm := cond_Zopp s (Zpos m) in
      if 0 <=? e then n =? sm * 2 ^ e else n * 2 ^ (- e) =? sm
  | S754_infinity _ | S754_nan => false
  end.

(** [a == b] between hashable values: numbers compare by value ([True] is
    [1]), a NaN equals nothing, two decoded NaNs being distinct objects. *)
Definition py_eq (a b : value) : bool :=
  let as_int v := match v with
                  | VBool b => Some (if b then 1 else 0)
                  | VInt n => Some n
                  | _ => None
                  end in
  match a, b with
  | VNone, VNone => true
  | VStr s, VStr t => String.eqb s t
  | VFloat f, VFloat g => SFeqb f g
  | VFloat f, _ => match as_int b with Some n => int_eq_float n f | None => false end
  | _, VFloat g => match as_int a with Some n => int_eq_float n g | None => false end
  | _, _ => match as_int a, as_int b with
            | Some n, Some m => n =? m
            | _, _ => false
            end
  end.

(** *** Dictionaries with string keys *)

Fixpoint dict_get (k : string) (d : list (string * value)) : option value :=
  match d with
  | [] => None
  | (k', v) :: d' => if String.eqb k k' then Some v else dict_get k d'
  end.

(** [d[k] = v]: an existing key keeps its place, a new one goes last. *)
Fixpoint dict_set (k : string) (v : value) (d : list (string * value))
  : list (string * value) :=
  match d with
  | [] => [(k, v)]
  | (k', v') :: d' =>
      if String.eqb k k' then (k', v) :: d' else (k', v') :: dict_set k v d'
  end.

Definition dict_has (k : string) (d : list (string * value)) : bool :=
  match dict_get k d with Some _ => true | None => false end.

(** [v.get(k)]: only a [dict] has the method. *)
Definition py_get (k : string) (v : value) : result value :=
  match v with
  | VDict d => Ok (match dict_get k d with Some x => x | None => VNone end)
  | _ => Raise AttributeError
  end.

(** [v.get(k, default)]. *)
Definition py_get_default (k : string) (default : value) (v : value) : result value :=
  match v with
  | VDict d => Ok (match dict_get k d with Some x => x | None => default end)
  | _ => Raise AttributeError
  end.

(** [k in v] for a string [k]: key membership in a [dict], element
    membership in a [list], substring test in a [str]; a [TypeError] on the
    values that are not containers. *)
Definition py_contains (k : string) (v : value) : result bool :=
  match v with
  | VDict d => Ok (dict_has k d)
  | VList l => Ok (existsb (py_eq (VStr k)) l)
  | VStr s => Ok (contains k s)
  | _ => Raise TypeError
  end.

(** [v[k]] for a string [k]. *)
Definition py_getitem (k : string) (v : value) : result value :=
  match v with
  | VDict d => match dict_get k d with Some x => Ok x | None => Raise KeyError end
  | _ => Raise TypeError
  end.

(** The elements a [for] loop over [v] visits: the items of a [list], the
    keys of a [dict], the characters of a [str]. *)
Fixpoint chars_of (s : string) : list value :=
  match s with
  | EmptyString => []
  | String c s' => VStr (String c EmptyString) :: chars_of s'
  end.

Definition py_iter (v : value) : result (list value) :=
  match v with
  | VList l => Ok l
  | VDict d => Ok (map (fun kv => VStr (fst kv)) d)
  | VStr s => Ok (chars_of s)
  | _ => Raise TypeError
  end.

(** [v[0]]. *)
Definition py_first (v : value) : result value :=
  match v with
  | VList (x :: _) => Ok x
  | VList [] => Raise IndexError
  | VStr (String c _) => Ok (VStr (String c EmptyString))
  | VStr EmptyString => Raise IndexError
  | VDict _ => Raise KeyError
  | _ => Raise TypeError
  end.

(** *** Dictionaries keyed by decoded values *)

Definition kdict := list (value * value).

Fixpoint kdict_find (k : value) (d : kdict) : option value :=
  match d with
  | [] => None
  | (k', v) :: d' => if py_eq k k' then Some v else kdict_find k d'
  end.

Fixpoint kdict_put (k v : value) (d : kdict) : kdict :=
  match d with
  | [] => [(k, v)]
  | (k', v') :: d' =>
      if py_eq k k' then (k', v) :: d' else (k', v') :: kdict_put k v d'
  end.

(** [k in d]. *)
Definition kdict_mem (k : value) (d : kdict) : result bool :=
  if hashable k
  then Ok (match kdict_find k d with Some _ => true | None => false end)
  else Raise TypeError.

(** [d[k] = v]. *)
Definition kdict_setitem (k v : value) (d : kdict) : result kdict :=
  if hashable k then Ok (kdict_put k v d) else Raise TypeError.

(** [d[k]]. *)
Definition kdict_getitem (k : value) (d : kdict) : result value :=
  if hashable k
  then match kdict_find k d with Some v => Ok v | None => Raise KeyError end
  else Raise TypeError.

(** [int(f)] for a [float]: truncation toward zero. *)
Definition int_of_float (f : spec_float) : result Z :=
  match f with
  | S754_zero _ => Ok 0
  | S754_finite s m e =>
      Ok (cond_Zopp s (if 0 <=? e then Zpos m * 2 ^ e else Zpos m / 2 ^ (- e)))
  | S754_infinity _ => Raise OverflowError
  | S754_nan => Raise (ValueError "cannot convert float NaN to integer")
  end.

(** [float(n)] for an [int]: rounded to nearest, an [OverflowError] beyond
    the range. *)
Definition float_of_int (n : Z) : result spec_float :=
  match binary_normalize binary64_prec binary64_emax n 0 false with
  | S754_infinity _ => Raise OverflowError
  | f => Ok f
  end.

(** ** The reference JSON decoder

    [Json.loads] follows the decoder of Python's [json] module: the
    grammar of [json.scanner] and [json.decoder], strings in strict mode,
    the constants [NaN], [Infinity] and [-Infinity], numbers with a
    fraction or an exponent decoded to the nearest binary64, and an object
    built by inserting its pairs in order.  A document that is not valid
    raises [JSONDecodeError]; nesting deeper than the decoder can follow
    raises [RecursionError]. *)
Module Json.

Definition quote : ascii := ascii_of_nat 34.
Definition backslash : ascii := ascii_of_nat 92.

(** The JSON text of a string that needs no escape: [s] between quotes. *)
Definition quoted (s : string) : string :=
  String quote (s ++ String quote EmptyString).

(** The whitespace of the JSON grammar: space, tab, line feed, return. *)
Definition is_ws (c : ascii) : bool :=
  let n := char_code c in (n =? 32) || (n =? 9) || (n =? 10) || (n =? 13).

Definition skip_ws (s : string) : string := lstrip_by is_ws s.

Definition hex_value (c : ascii) : option Z :=
  if is_digit c then Some (char_code c - 48)
  else if char_between 97 102 c then Some (char_code c - 87)
  else if char_between 65 70 c then Some (char_code c - 55)
  else None.

Definition hex4 (a b c d : ascii) : option Z :=
  match hex_value a, hex_value b, hex_value c, hex_value d with
  | Some x, Some y, Some z, Some w => Some (((x * 16 + y) * 16 + z) * 16 + w)
  | _, _, _, _ => None
  end.

Definition simple_escape (c : ascii) : option ascii :=
  if Ascii.eqb c quote then Some quote
  else if Ascii.eqb c backslash then Some backslash
  else if Ascii.eqb c "/" then Some "/"%char
  else if Ascii.eqb c "b" then Some (ascii_of_nat 8)
  else if Ascii.eqb c "f" then Some (ascii_of_nat 12)
  else if Ascii.eqb c "n" then Some (ascii_of_nat 10)
  else if Ascii.eqb c "r" then Some (ascii_of_nat 13)
  else if Ascii.eqb c "t" then Some (ascii_of_nat 9)
  else None.

(** What a string literal is made of: a character taken as it is, or the
    code unit of a [\uXXXX] escape. *)
Inductive piece :=
| Raw (c : ascii)
| Escaped (cp : Z).

(** The body of a string literal, after its opening quote. *)
Fixpoint scan_string (s : string) : result (list piece * string) :=
  match s with
  | EmptyString => Raise JSONDecodeError
  | String c rest =>
      if Ascii.eqb c quote then Ok ([], rest)
      else if Ascii.eqb c backslash then
        match rest with
        | EmptyString => Raise JSONDecodeError
        | String e rest' =>
            if Ascii.eqb e "u" then
              match rest' with
              | String h1 (String h2 (String h3 (String h4 r))) =>
                  match hex4 h1 h2 h3 h4 with
                  | Some cp =>
                      match scan_string r with
                      | Ok (ps, r') => Ok (Escaped cp :: ps, r')
                      | Raise e => Raise e
                      end
                  | None => Raise JSONDecodeError
                  end
              | _ => Raise JSONDecodeError
              end
            else
              match simple_escape e with
              | Some ch =>
                  match scan_string rest' with
                  | Ok (ps, r') => Ok (Raw ch :: ps, r')
                  | Raise e => Raise e
                  end
              | None => Raise JSONDecodeError
              end
        end
      else if char_code c <? 32 then Raise JSONDecodeError
      else
        match scan_string rest with
        | Ok (ps, r') => Ok (Raw c :: ps, r')
        | Raise e => Raise e
        end
  end.

Definition byte_of (n : Z) : ascii := ascii_of_N (Z.to_N n).

(** UTF-8 encoding of a code point. *)
Definition utf8 (cp : Z) : string :=
  if cp <? 128 then String (byte_of cp) EmptyString
  else if cp <? 2048 then
    String (byte_of (192 + cp / 64)) (String (byte_of (128 + cp mod 64)) EmptyString)
  else if cp <? 65536 then
    String (byte_of (224 + cp / 4096))
      (String (byte_of (128 + (cp / 64) mod 64))
         (String (byte_of (128 + cp mod 64)) EmptyString))
  else
    String (byte_of (240 + cp / 262144))
      (String (byte_of (128 + (cp / 4096) mod 64))
         (String (byte_of (128 + (cp / 64) mod 64))
            (String (byte_of (128 + cp mod 64)) EmptyString))).

(** A high surrogate escape directly followed by a low surrogate escape is
    one code point. *)
Fixpoint encode_pieces (ps : list piece) : string :=
  match ps with
  | [] => EmptyString
  | Raw c :: t => String c (encode_pieces t)
  | Escaped hi :: t =>
      match t with
      | Escaped lo :: t' =>
          if (55296 <=? hi) && (hi <=? 56319) && (56320 <=? lo) && (lo <=? 57343)
          then utf8 (65536 + (hi - 55296) * 1024 + (lo - 56320)) ++ encode_pieces t'
          else utf8 hi ++ encode_pieces t
      | _ => utf8 hi ++ encode_pieces t
      end
  end.

Definition scan_str (s : string) : result (string * string) :=
  match scan_string s with
  | Ok (ps, r) => Ok (encode_pieces ps, r)
  | Raise e => Raise e
  end.

(** The longest run of digits at the head of [s], and what follows it. *)
Fixpoint take_digits (s : string) : string * string :=
  match s with
  | EmptyString => (EmptyString, EmptyString)
  | String c s' =>
      if is_digit c then let '(ds, r) := take_digits s' in (String c ds, r)
      else (EmptyString, s)
  end.

(** [float(literal)]: the binary64 nearest to [n * 10 ^ k], [n >= 0]. *)
Definition float_of_decimal (neg : bool) (n k : Z) : spec_float :=
  match n with
  | Zpos p =>
      if 0 <=? k
      then binary_normalize binary64_prec binary64_emax
             (cond_Zopp neg (Zpos p * 10 ^ k)) 0 neg
      else SFdiv binary64_prec binary64_emax
             (S754_finite neg p 0) (S754_finite false (Z.to_pos (10 ^ (- k))) 0)
  | _ => S754_zero neg
  end.

(** The number pattern of the scanner: an optional minus sign, then a
    single 0 or a digit from 1 to 9 followed by digits; optionally a dot
    and one or more digits; optionally e or E, an optional sign and one or
    more digits. *)
Definition scan_number (s : string) : option (value * string) :=
  let '(neg, s1) := match s with
                    | String "-" r => (true, r)
                    | _ => (false, s)
                    end in
  let int_part :=
    match s1 with
    | String c r =>
        if Ascii.eqb c "0" then Some (String c EmptyString, r)
        else if char_between 49 57 c
             then let '(ds, r') := take_digits r in Some (String c ds, r')
             else None
    | EmptyString => None
    end in
  match int_part with
  | None => None
  | Some (ip, s2) =>
      let '(frac, s3) :=
        match s2 with
        | String "." r =>
            let '(fs, r') := take_digits r in
            if is_empty fs then (None, s2) else (Some fs, r')
        | _ => (None, s2)
        end in
      let '(exp, s4) :=
        match s3 with
        | String c r =>
            if Ascii.eqb c "e" || Ascii.eqb c "E" then
              let '(eneg, r1) := match r with
                                 | String "-" r' => (true, r')
                                 | String "+" r' => (false, r')
                                 | _ => (false, r)
                                 end in
              let '(es, r2) := take_digits r1 in
              if is_empty es then (None, s3)
              else (Some (cond_Zopp eneg (int_of_digits es)), r2)
            else (None, s3)
        | EmptyString => (None, s3)
        end in
      match frac, exp with
      | None, None => Some (VInt (cond_Zopp neg (int_of_digits ip)), s4)
      | _, _ =>
          let fs := match frac with Some fs => fs | None => EmptyString end in
          let e := match exp with Some e => e | None => 0 end in
          Some (VFloat (float_of_decimal neg (int_of_digits (ip ++ fs))
                          (e - Z.of_nat (String.length fs))), s4)
      end
  end.

(** A value that is neither a string, an object nor an array. *)
Definition scan_atom (s : string) : result (value * string) :=
  if startswith "null" s then Ok (VNone, drop_chars 4 s)
  else if startswith "true" s then Ok (VBool true, drop_chars 4 s)
  else if startswith "false" s then Ok (VBool false, drop_chars 5 s)
  else match scan_number s with
       | Some r => Ok r
       | None =>
           if startswith "NaN" s then Ok (VFloat S754_nan, drop_chars 3 s)
           else if startswith "Infinity" s
                then Ok (VFloat (S754_infinity false), drop_chars 8 s)
           else if startswith "-Infinity" s
                then Ok (VFloat (S754_infinity true), drop_chars 9 s)
           else Raise JSONDecodeError
       end.

Fixpoint scan_once (fuel : nat) (s : string) : result (value * string) :=
  match fuel with
  | O => Raise RecursionError
  | S fuel' =>
      match s with
      | EmptyString => Raise JSONDecodeError
      | String c rest =>
          if Ascii.eqb c quote then
            match scan_str rest with
            | Ok (str, r) => Ok (VStr str, r)
            | Raise e => Raise e
            end
          else if Ascii.eqb c "{" then
            match skip_ws rest with
            | String "}" r => Ok (VDict [], r)
            | r => scan_pairs fuel' r []
            end
          else if Ascii.eqb c "[" then
            match skip_ws rest with
            | String "]" r => Ok (VList [], r)
            | r => scan_items fuel' r []
            end
          else scan_atom s
      end
  end
with scan_items (fuel : nat) (s : string) (acc : list value)
  : result (value * string) :=
  match fuel with
  | O => Raise RecursionError
  | S fuel' =>
      match scan_once fuel' s with
      | Raise e => Raise e
      | Ok (v, r) =>
          match skip_ws r with
          | String "]" r' => Ok (VList (rev (v :: acc)), r')
          | String "," r' => scan_items fuel' (skip_ws r') (v :: acc)
          | _ => Raise JSONDecodeError
          end
      end
  end
with scan_pairs (fuel : nat) (s : string) (acc : list (string * value))
  : result (value * string) :=
  match fuel with
  | O => Raise RecursionError
  | S fuel' =>
      match s with
      | String c rest =>
          if Ascii.eqb c quote then
            match scan_str rest with
            | Raise e => Raise e
            | Ok (key, r) =>
                match skip_ws r with
                | String ":" r1 =>
                    match scan_once fuel' (skip_ws r1) with
                    | Raise e => Raise e
                    | Ok (v, r2) =>
                        let acc' := dict_set key v acc in
                        match skip_ws r2 with
                        | String "}" r3 => Ok (VDict acc', r3)
                        | String "," r3 => scan_pairs fuel' (skip_ws r3) acc'
                        | _ => Raise JSONDecodeError
                        end
                    end
                | _ => Raise JSONDecodeError
                end
            end
          else Raise JSONDecodeError
      | EmptyString => Raise JSONDecodeError
      end
  end.

(** [json.loads(s)]. *)
Definition loads (s : string) : result value :=
  if startswith (utf8 65279) s then Raise JSONDecodeError
  else
    match scan_once (2 * String.length s + 2) (skip_ws s) with
    | Raise e => Raise e
    | Ok (v, r) =>
        if is_empty (skip_ws r) then Ok v else Raise JSONDecodeError
    end.

End Json.

(** ** Handlers: state, replies and exceptions

    A handler runs on the bot's state [S], sends messages of type [O] and
    either returns or raises; what it has stored and sent before raising
    stays stored and sent. *)
Section Handler.

Context {St Out : Type}.

Definition M (A : Type) : Type := St -> result A * St * list Out.

Definition handler_ret {A} (a : A) : M A := fun s => (Ok a, s, []).

Definition handler_bind {A B} (f : A -> M B) (m : M A) : M B := fun s =>
  match m s with
  | (Ok a, s', out) =>
      let '(r, s'', out') := f a s' in (r, s'', (out ++ out')%list)
  | (Raise e, s', out) => (Raise e, s', out)
  end.

(** Reading and writing the state. *)
Definition gets {A} (f : St -> A) : M A := fun s => (Ok (f s), s, []).
Definition modify (f : St -> St) : M unit := fun s => (Ok tt, f s, []).

(** Sending one message to the chat. *)
Definition send (o : Out) : M unit := fun s => (Ok tt, s, [o]).

Definition raise {A} (e : exn) : M A := fun s => (Raise e, s, []).

(** An expression that can raise, evaluated inside a handler. *)
Definition lift {A} (r : result A) : M A := fun s => (r, s, []).

(** [try: body except <the exceptions of catches>: handler]. *)
Definition try_except {A} (body : M A) (catches : exn -> bool) (handler : exn -> M A)
  : M A := fun s =>
  match body s with
  | (Raise e, s', out) =>
      if catches e
      then let '(r, s'', out') := handler e s' in (r, s'', (out ++ out')%list)
      else (Raise e, s', out)
  | done => done
  end.

End Handler.

Arguments M : clear implicits.

#[global] Instance handler_mret {St Out} : MRet (M St Out) := @handler_ret St Out.
#[global] Instance handler_mbind {St Out} : MBind (M St Out) := @handler_bind St Out.

(** ** The agent's event stream: what both parsers share

    [final.py] and [swap.py] each have a [parse_streaming_response]; the two
    accumulate the same three variables and merge calls with results by the
    same lines of code. *)

(** [assistant_content], [tool_invocations] ([tool_calls] in [swap.py]) and
    [tool_results] of [parse_streaming_response]. *)
Record stream_state := {
  assistant_content : string;
  tool_calls : list value;
  tool_results : kdict
}.

Definition stream_init : stream_state :=
  {| assistant_content := EmptyString; tool_calls := []; tool_results := [] |}.

Definition add_content (st : stream_state) (s : string) : stream_state :=
  {| assistant_content := assistant_content st ++ s;
     tool_calls := tool_calls st;
     tool_results := tool_results st |}.

Definition add_call (st : stream_state) (c : value) : stream_state :=
  {| assistant_content := assistant_content st;
     tool_calls := tool_calls st ++ [c];
     tool_results := tool_results st |}.

Definition set_results (st : stream_state) (r : kdict) : stream_state :=
  {| assistant_content := assistant_content st;
     tool_calls := tool_calls st;
     tool_results := r |}.

(** The dictionary [parse_streaming_response] returns: [assistant_message]
    (a [dict] or [None]), [content], and the merged tool list (under the key
    [tool_invocations] in [final.py], [toolInvocations] in [swap.py]). *)
Record parsed := {
  assistant_message : option value;
  content : string;
  tool_invocations : list value
}.

(** The fields of a [dict], as the unpacking in a display needs them. *)
Definition dict_fields (v : value) : result (list (string * value)) :=
  match v with
  | VDict d => Ok d
  | _ => Raise TypeError
  end.

(** The body of the loop that combines tool calls with their results. *)
Definition combine_tool (results : kdict) (tool_call : value) : result value :=
  tool_call_id ← py_get "toolCallId" tool_call;
  found ← kdict_mem tool_call_id results;
  if (found : bool) then
    fields ← dict_fields tool_call;
    record ← kdict_getitem tool_call_id results;
    res ← py_get_default "result" (VDict []) record;
    Ok (VDict (dict_set "state" (VStr "completed") (dict_set "result" res fields)))
  else
    fields ← dict_fields tool_call;
    Ok (VDict (dict_set "state" (VStr "pending") fields)).

Fixpoint combine_tools (results : kdict) (calls : list value) : result (list value) :=
  match calls with
  | [] => Ok []
  | c :: cs =>
      t ← combine_tool results c;
      ts ← combine_tools results cs;
      Ok (t :: ts)
  end.

(** The assistant message record; [uuid] is the string of a fresh
    [uuid.uuid4()]. *)
Definition make_assistant_message (uuid text : string) (tools : list value) : value :=
  VDict [ ("id", VStr ("msg-" ++ uuid));
          ("role", VStr "assistant");
          ("content", VStr text);
          ("parts", VList [VDict [("type", VStr "text"); ("text", VStr text)]]);
          ("toolInvocations", VList tools);
          ("annotations", VList [VDict [("agentId", VStr "bitte-defi")]]) ].

(** The end of [parse_streaming_response], from the merge on. *)
Definition finish_parse (uuid : string) (st : stream_state) : result parsed :=
  combined_tools ← combine_tools (tool_results st) (tool_calls st);
  let message :=
    if negb (is_empty (assistant_content st))
       || match combined_tools with [] => false | _ => true end
    then Some (make_assistant_message uuid (assistant_content st) combined_tools)
    else None in
  Ok {| assistant_message := message;
        content := assistant_content st;
        tool_invocations := combined_tools |}.

(** The outcome of one HTTP exchange: the request raises, or a response
    arrives with its status and what [response.text()] gives. *)
Inductive exchange :=
| RequestRaises (e : exn)
| Response (status : Z) (body : result string).

(** ** [swap.py] *)
Module Swap.
Section Parser.

Variable json_loads : string -> result value.

(** One iteration of the loop over the lines.  Every exception is caught
    by the loop ([except Exception: continue]), a [JSONDecodeError] of a
    tool line by the inner handler; each assignment is the last statement of
    its branch that changes a variable, so an exception raised after it (by
    the printing of a tool result) leaves it done. *)
Definition scan_line (st : stream_state) (raw : string) : stream_state :=
  let line := strip raw in
  if is_empty line then st
  else if startswith "0:" line then
    match json_loads (drop_chars 2 line) with
    | Ok (VStr s) => add_content st s
    | _ => st
    end
  else if startswith "9:" line then
    match json_loads (drop_chars 2 line) with
    | Ok tool_call_data => add_call st tool_call_data
    | Raise _ => st
    end
  else if startswith "a:" line then
    match json_loads (drop_chars 2 line) with
    | Ok tool_result_data =>
        match py_get "toolCallId" tool_result_data with
        | Ok tool_call_id =>
            if truthy tool_call_id then
              match kdict_setitem tool_call_id tool_result_data (tool_results st) with
              | Ok r => set_results st r
              | Raise _ => st
              end
            else st
        | Raise _ => st
        end
    | Raise _ => st
    end
  else st.

Definition scan_lines (st : stream_state) (lines : list string) : stream_state :=
  fold_left scan_line lines st.

(** [parse_streaming_response(response_text)]: the merge is outside every
    handler, so what it raises leaves the function. *)
Definition parse_streaming_response (uuid response_text : string) : result parsed :=
  finish_parse uuid (scan_lines stream_init (split_lines (strip response_text))).

End Parser.
End Swap.

(** ** [final.py]: the analysis and swap bot *)
Module Final.

Inductive UserState :=
| WAITING_FOR_TWITTER_URL
| WAITING_FOR_WALLET_ADDRESS
| WAITING_FOR_SWAP_REQUEST
| WAITING_FOR_SWAP_CONFIRMATION
| IDLE.

(** The text of an error entry of a response dictionary. *)
Inductive error_text :=
| FailedToParse (e : exn)
| ApiRequestFailed (status : Z)
| ExceptionText (e : exn).

(** What [send_to_bitte_ai] and [parse_streaming_response] return: the
    parsed dictionary, or a dictionary with the single key [error]. *)
Inductive response_data :=
| Parsed (p : parsed)
| ErrorDict (err : error_text).

(** The [message] of a successful swap. *)
Inductive swap_message :=
| ExecutedSuccessfully
| SuccessfullySwapped (in_amount in_symbol out_amount out_symbol : value).

Inductive swap_failure :=
| NoPendingSwap
| NoWalletConfigured
| ExecutionFailed
| TransactionFailed (e : exn)
| SwapDataWithoutTransaction
| NoExecutableTransaction.

(** The dictionary [process_tool_invocations] returns. *)
Inductive swap_result :=
| SwapSuccess (tx_hash : string) (message : swap_message)
| SwapFailure (error : swap_failure).

(** The message templates of the bot. *)
Inductive text :=
| WelcomeText
| HelpText
| ResetDoneText
| NothingToResetText
| NoWalletText
| WalletInfoText (wallet_address : value)
| UseStartText
| InvalidUrlText
| UrlReceivedText
| InvalidWalletText
| ProcessingRequestText
| ScoreText (twitter_url : value) (wallet_address : string) (score : Z) (prize_amount : spec_float)
| MissingPrizeText
| ProcessingSwapText
| AgentErrorText (err : error_text)
| ConfirmSwapText (content : string)
| TryAnotherSwapText (content : string)
| ExecutingSwapText
| SwapCompleteText (message : swap_message) (tx_hash : string)
| SwapFailedText (error : swap_failure)
| SwapCancelledText.

(** What a handler does to the chat. *)
Inductive action :=
| ReplyText (t : text)
| ReplyWithConfirmKeyboard (t : text) (user_id : Z)
| EditMessageText (t : text).

(** An entry of a chat history: the user's request, whose content is the
    template around the prize amount and the request, or the assistant
    message the parser built. *)
Inductive chat_message :=
| UserMessage (id : string) (prize_amount : value) (request : string)
| AssistantMessage (m : value).

(** The bot object: the three per-user dictionaries, and whether a signing
    account was configured at construction. *)
Record bot := {
  user_states : gmap Z UserState;
  user_data : gmap Z (gmap string value);
  chat_histories : gmap Z (list chat_message);
  signer_configured : bool
}.

Definition with_user_states (f : gmap Z UserState -> gmap Z UserState) (b : bot) : bot :=
  {| user_states := f (user_states b);
     user_data := user_data b;
     chat_histories := chat_histories b;
     signer_configured := signer_configured b |}.

Definition with_user_data
  (f : gmap Z (gmap string value) -> gmap Z (gmap string value)) (b : bot) : bot :=
  {| user_states := user_states b;
     user_data := f (user_data b);
     chat_histories := chat_histories b;
     signer_configured := signer_configured b |}.

Definition with_chat_histories
  (f : gmap Z (list chat_message) -> gmap Z (list chat_message)) (b : bot) : bot :=
  {| user_states := user_states b;
     user_data := user_data b;
     chat_histories := f (chat_histories b);
     signer_configured := signer_configured b |}.

(** What the world supplies while one update is handled. *)
Record env := {
  scoring_exchange : exchange;
  agent_exchange : exchange;
  user_message_uuid : string;
  session_uuid : string;
  assistant_uuid : string;
  chain_outcome : result string
}.

(** An inbound text message, with what the handler reads of its chat. *)
Record message := {
  message_text : string;
  user_id : Z;
  chat_type : string;
  bot_username : option string;
  reply_to_bot : bool
}.

Inductive update :=
| StartCommand (uid : Z)
| HelpCommand (uid : Z)
| WalletCommand (uid : Z)
| ResetCommand (uid : Z)
| CallbackQuery (uid : Z) (data : string)
| TextMessage (m : message).

Abbreviation H := (M bot action).

(** [self.user_states.get(user_id, UserState.IDLE)]. *)
Definition current_state (uid : Z) (b : bot) : UserState :=
  default IDLE (user_states b !! uid).

Definition set_state (uid : Z) (s : UserState) : H unit :=
  modify (with_user_states (insert uid s)).

Definition reply_text (t : text) : H unit := send (ReplyText t).
Definition edit_message_text (t : text) : H unit := send (EditMessageText t).

(** [self.user_data[user_id][key] = v]. *)
Definition set_user_field (uid : Z) (key : string) (v : value) : H unit :=
  d ← gets (fun b => user_data b !! uid);
  match d with
  | Some fields => modify (with_user_data (insert uid (<[key := v]> fields)))
  | None => raise KeyError
  end.

(** [self.user_data[user_id][key]]. *)
Definition get_user_field (uid : Z) (key : string) : H value :=
  d ← gets (fun b => user_data b !! uid);
  match d with
  | Some fields =>
      match fields !! key with
      | Some v => mret v
      | None => raise KeyError
      end
  | None => raise KeyError
  end.

(** [user_id in self.user_data and key in self.user_data[user_id]]. *)
Definition has_user_field (uid : Z) (key : string) (b : bot) : bool :=
  match user_data b !! uid with
  | Some fields => bool_decide (is_Some (fields !! key))
  | None => false
  end.

Definition is_hex_digit (c : ascii) : bool :=
  contains (String c EmptyString) "0123456789abcdefABCDEF".

Definition is_valid_twitter_url (url : string) : bool :=
  existsb (fun domain => contains domain (lower url)) ["twitter.com"; "x.com"]
  && (startswith "http://" url || startswith "https://" url).

Definition is_valid_wallet_address (address : string) : bool :=
  (String.length address =? 42)%nat
  && startswith "0x" address
  && string_forallb is_hex_digit (drop_chars 2 address).

Definition cleanup_user_data (uid : Z) : H unit :=
  set_state uid IDLE;;
  d ← gets (fun b => user_data b !! uid);
  match d with
  | Some fields =>
      let wallet_address := default VNone (fields !! "wallet_address") in
      let session_id := default VNone (fields !! "session_id") in
      modify (with_user_data (insert uid ∅));;
      (if truthy wallet_address
       then set_user_field uid "wallet_address" wallet_address
       else mret tt);;
      (if truthy session_id
       then set_user_field uid "session_id" session_id
       else mret tt)
  | None => mret tt
  end.

Section Bot.

Variable json_loads : string -> result value.

(** One iteration of the loop of [parse_streaming_response]: the handler
    of the loop catches [JSONDecodeError] and [KeyError] only. *)
Definition scan_line (st : stream_state) (raw : string) : result stream_state :=
  let line := strip raw in
  if is_empty line then Ok st
  else
    let attempt : result stream_state :=
      if startswith "0:" line then
        content ← json_loads (drop_chars 2 line);
        match content with
        | VStr s => Ok (add_content st s)
        | _ => Ok st
        end
      else if startswith "9:" line then
        tool_call_data ← json_loads (drop_chars 2 line);
        Ok (add_call st tool_call_data)
      else if startswith "a:" line then
        tool_result_data ← json_loads (drop_chars 2 line);
        tool_call_id ← py_get "toolCallId" tool_result_data;
        if truthy tool_call_id then
          r ← kdict_setitem tool_call_id tool_result_data (tool_results st);
          Ok (set_results st r)
        else Ok st
      else Ok st in
    match attempt with
    | Raise JSONDecodeError | Raise KeyError => Ok st
    | other => other
    end.

Fixpoint scan_lines (st : stream_state) (lines : list string) : result stream_state :=
  match lines with
  | [] => Ok st
  | l :: ls => st' ← scan_line st l; scan_lines st' ls
  end.

(** [parse_streaming_response(response_text)]: any exception that leaves
    the body becomes the error dictionary. *)
Definition parse_streaming_response (uuid response_text : string) : response_data :=
  match
    st ← scan_lines stream_init (split_lines (strip response_text));
    finish_parse uuid st
  with
  | Ok p => Parsed p
  | Raise e => ErrorDict (FailedToParse e)
  end.

(** One iteration of the loop of [parse_twitter_scoring_response]. *)
Definition score_line (score : Z) (line : string) : result Z :=
  let attempt : result Z :=
    if startswith "a:" line then
      json_data ← json_loads (drop_chars 2 line);
      has_result ← py_contains "result" json_data;
      has_data ← (if (has_result : bool)
                  then r ← py_getitem "result" json_data; py_contains "data" r
                  else Ok false);
      if (has_data : bool) then
        r ← py_getitem "result" json_data;
        result_data ← py_getitem "data" r;
        match result_data with
        | VStr s => if isdigit s then Ok (int_of_digits s) else Ok score
        | VBool b => Ok (if b then 1 else 0)
        | VInt n => Ok n
        | VFloat f => int_of_float f
        | _ => Ok score
        end
      else Ok score
    else if startswith "0:" line then
      let score_str := strip_by (Ascii.eqb Json.quote) (drop_chars 2 line) in
      if isdigit score_str then Ok (int_of_digits score_str) else Ok score
    else Ok score in
  match attempt with
  | Raise JSONDecodeError | Raise KeyError | Raise (ValueError _) => Ok score
  | other => other
  end.

Fixpoint score_lines (score : Z) (lines : list string) : result Z :=
  match lines with
  | [] => Ok score
  | l :: ls => score' ← score_line score l; score_lines score' ls
  end.

(** [parse_twitter_scoring_response(response)], on what [response.text()]
    gives. *)
Definition parse_twitter_scoring_response (body : result string) : Z :=
  match content ← body; score_lines 1 (split_lines (strip content)) with
  | Ok score => score
  | Raise _ => 1
  end.

(** [analyze_twitter]: the score of the returned dictionary.  The request
    it builds is not modelled. *)
Definition analyze_twitter (x : exchange) : Z :=
  match x with
  | RequestRaises _ => 1
  | Response status body =>
      if negb (status =? 200) then 1 else parse_twitter_scoring_response body
  end.

(** [n * f] for an [int] and a [float]. *)
Definition mul_int_float (n : Z) (f : spec_float) : result spec_float :=
  x ← float_of_int n;
  Ok (SFmul binary64_prec binary64_emax x f).

(** The literal [0.1]. *)
Definition one_tenth : spec_float := Json.float_of_decimal false 1 (-1).

Definition handle_twitter_url (url : string) (uid : Z) : H unit :=
  if negb (is_valid_twitter_url url) then reply_text InvalidUrlText
  else
    set_user_field uid "twitter_url" (VStr url);;
    set_state uid WAITING_FOR_WALLET_ADDRESS;;
    reply_text UrlReceivedText.

Definition handle_wallet_address (e : env) (wallet_address : string) (uid : Z) : H unit :=
  if negb (is_valid_wallet_address (strip wallet_address))
  then reply_text InvalidWalletText
  else
    set_user_field uid "wallet_address" (VStr (strip wallet_address));;
    reply_text ProcessingRequestText;;
    twitter_url ← get_user_field uid "twitter_url";
    let score := analyze_twitter (scoring_exchange e) in
    set_user_field uid "score" (VInt score);;
    set_state uid WAITING_FOR_SWAP_REQUEST;;
    prize_amount ← lift (mul_int_float score one_tenth);
    set_user_field uid "prize_amount" (VFloat prize_amount);;
    reply_text (ScoreText twitter_url wallet_address score prize_amount).

(** [send_to_bitte_ai]; the text it sends is the template around
    [prize_amount] and [request].  The request it builds is not modelled. *)
Definition send_to_bitte_ai (e : env) (uid : Z) (prize_amount : value)
  (request : string) : H response_data :=
  try_except
    (modify (with_chat_histories (fun h =>
       match h !! uid with Some _ => h | None => <[uid := []]> h end));;
     modify (with_chat_histories (alter (fun l =>
       (l ++ [UserMessage (user_message_uuid e) prize_amount request])%list) uid));;
     has_session ← gets (has_user_field uid "session_id");
     (if (has_session : bool) then mret tt
      else set_user_field uid "session_id" (VStr (session_uuid e)));;
     session_id ← get_user_field uid "session_id";
     match agent_exchange e with
     | RequestRaises ex => raise ex
     | Response status body =>
         if negb (status =? 200) then mret (ErrorDict (ApiRequestFailed status))
         else
           response_text ← lift body;
           let parsed_response :=
             parse_streaming_response (assistant_uuid e) response_text in
           match parsed_response with
           | Parsed {| assistant_message := Some m |} =>
               modify (with_chat_histories (alter (fun l =>
                 (l ++ [AssistantMessage m])%list) uid))
           | _ => mret tt
           end;;
           mret parsed_response
     end)
    (fun _ => true)
    (fun ex => mret (ErrorDict (ExceptionText ex))).

(** [any(inv.get('toolName') in ["swap", "generate-evm-tx"] for inv in ...)]. *)
Fixpoint has_swap_tool (tool_invocations : list value) : result bool :=
  match tool_invocations with
  | [] => Ok false
  | inv :: rest =>
      name ← py_get "toolName" inv;
      if py_eq name (VStr "swap") || py_eq name (VStr "generate-evm-tx")
      then Ok true
      else has_swap_tool rest
  end.

Definition default_swap_content : string :=
  "I've processed your swap request. Would you like to proceed with this transaction?".

Definition handle_swap_request (e : env) (request : string) (uid : Z) : H unit :=
  has_prize ← gets (has_user_field uid "prize_amount");
  if negb has_prize then reply_text MissingPrizeText
  else
    prize_amount ← get_user_field uid "prize_amount";
    wallet_address ← get_user_field uid "wallet_address";
    reply_text ProcessingSwapText;;
    response ← send_to_bitte_ai e uid prize_amount request;
    match response with
    | ErrorDict err => reply_text (AgentErrorText err)
    | Parsed p =>
        let content :=
          if is_empty (content p) then default_swap_content else content p in
        swap_tool ← lift (has_swap_tool (tool_invocations p));
        set_user_field uid "pending_tool_invocations" (VList (tool_invocations p));;
        if (swap_tool : bool) then
          set_state uid WAITING_FOR_SWAP_CONFIRMATION;;
          send (ReplyWithConfirmKeyboard (ConfirmSwapText content) uid)
        else reply_text (TryAnotherSwapText content)
    end.

(** The body of the loop of [process_tool_invocations], on the pair
    [(swap_data, tx_data)]. *)
Definition collect_tool_data (found : value * value) (inv : value)
  : result (value * value) :=
  tool_name ← py_get_default "toolName" (VStr "") inv;
  if py_eq tool_name (VStr "swap") then
    res ← py_get_default "result" (VDict []) inv;
    has_data ← py_contains "data" res;
    if (has_data : bool)
    then d ← py_getitem "data" res; Ok (d, snd found)
    else Ok found
  else if py_eq tool_name (VStr "generate-evm-tx") then
    res ← py_get_default "result" (VDict []) inv;
    has_data ← py_contains "data" res;
    has_request ← (if (has_data : bool)
                   then d ← py_getitem "data" res; py_contains "evmSignRequest" d
                   else Ok false);
    if (has_request : bool)
    then d ← py_getitem "data" res;
         t ← py_getitem "evmSignRequest" d;
         Ok (fst found, t)
    else Ok found
  else Ok found.

Fixpoint collect_tools (found : value * value) (invs : list value)
  : result (value * value) :=
  match invs with
  | [] => Ok found
  | inv :: rest => found' ← collect_tool_data found inv; collect_tools found' rest
  end.

(** The message of a successful transaction. *)
Definition success_message (swap_data : value) : result swap_message :=
  has_data ← (if truthy swap_data then py_contains "data" swap_data else Ok false);
  if (has_data : bool) then
    swap_info ← py_get_default "data" (VDict []) swap_data;
    has_in ← py_contains "tokenIn" swap_info;
    has_both ← (if (has_in : bool) then py_contains "tokenOut" swap_info else Ok false);
    if (has_both : bool) then
      token_in ← py_getitem "tokenIn" swap_info;
      token_out ← py_getitem "tokenOut" swap_info;
      in_amount ← py_get_default "amount" (VStr "unknown amount") token_in;
      in_symbol ← py_get_default "symbol" (VStr "unknown token") token_in;
      out_amount ← py_get_default "amount" (VStr "unknown amount") token_out;
      out_symbol ← py_get_default "symbol" (VStr "unknown token") token_out;
      Ok (SuccessfullySwapped in_amount in_symbol out_amount out_symbol)
    else Ok ExecutedSuccessfully
  else Ok ExecutedSuccessfully.

(** [process_tool_invocations].  [execute_transaction] is the chain
    library at work: what it returns or raises is [chain_outcome]; it is
    called inside the [try] that turns every exception into a failure. *)
Definition process_tool_invocations (e : env) (uid : Z) : H swap_result :=
  has_pending ← gets (has_user_field uid "pending_tool_invocations");
  if negb has_pending then mret (SwapFailure NoPendingSwap)
  else
    tool_invocations ← get_user_field uid "pending_tool_invocations";
    configured ← gets signer_configured;
    if negb configured then mret (SwapFailure NoWalletConfigured)
    else
      invs ← lift (py_iter tool_invocations);
      '(swap_data, tx_data) ← lift (collect_tools (VNone, VNone) invs);
      has_params ← lift (if truthy tx_data
                         then p ← py_get "params" tx_data; Ok (truthy p)
                         else Ok false);
      if (has_params : bool) then
        match
          params ← py_getitem "params" tx_data;
          tx_params ← py_first params;
          tx_hash ← chain_outcome e;
          if negb (is_empty tx_hash)
          then message ← success_message swap_data; Ok (SwapSuccess tx_hash message)
          else Ok (SwapFailure ExecutionFailed)
        with
        | Ok r => mret r
        | Raise ex => mret (SwapFailure (TransactionFailed ex))
        end
      else if truthy swap_data then mret (SwapFailure SwapDataWithoutTransaction)
      else mret (SwapFailure NoExecutableTransaction).

Definition execute_bitte_swap_from_message (e : env) (uid : Z) : H unit :=
  reply_text ExecutingSwapText;;
  res ← process_tool_invocations e uid;
  match res with
  | SwapSuccess tx_hash message => reply_text (SwapCompleteText message tx_hash)
  | SwapFailure error => reply_text (SwapFailedText error)
  end;;
  cleanup_user_data uid.

Definition cancel_swap_from_message (uid : Z) : H unit :=
  reply_text SwapCancelledText;;
  set_state uid WAITING_FOR_SWAP_REQUEST.

Definition execute_bitte_swap (e : env) (uid : Z) : H unit :=
  edit_message_text ExecutingSwapText;;
  res ← process_tool_invocations e uid;
  match res with
  | SwapSuccess tx_hash message => edit_message_text (SwapCompleteText message tx_hash)
  | SwapFailure error => edit_message_text (SwapFailedText error)
  end;;
  cleanup_user_data uid.

Definition cancel_swap (uid : Z) : H unit :=
  edit_message_text SwapCancelledText;;
  set_state uid WAITING_FOR_SWAP_REQUEST.

Definition handle_callback (e : env) (uid : Z) (data : string) : H unit :=
  if startswith "confirm_swap_" data then execute_bitte_swap e uid
  else if String.eqb data "cancel_swap" then cancel_swap uid
  else mret tt.

Definition start (uid : Z) : H unit :=
  set_state uid WAITING_FOR_TWITTER_URL;;
  modify (with_user_data (insert uid ∅));;
  modify (with_chat_histories (insert uid []));;
  reply_text WelcomeText.

Definition help : H unit := reply_text HelpText.

Definition reset_conversation (uid : Z) : H unit :=
  known ← gets (fun b => bool_decide (is_Some (user_states b !! uid)));
  if (known : bool) then
    set_state uid IDLE;;
    modify (with_chat_histories (insert uid []));;
    reply_text ResetDoneText
  else reply_text NothingToResetText.

Definition show_wallet_info (uid : Z) : H unit :=
  has_wallet ← gets (has_user_field uid "wallet_address");
  if negb has_wallet then reply_text NoWalletText
  else
    wallet_address ← get_user_field uid "wallet_address";
    reply_text (WalletInfoText wallet_address).

(** The part of [handle_message] that follows the mention filter: the
    dispatch on the user's state. *)
Definition dispatch_message (e : env) (user_message : string) (uid : Z) : H unit :=
  current ← gets (current_state uid);
  match current with
  | WAITING_FOR_TWITTER_URL => handle_twitter_url user_message uid
  | WAITING_FOR_WALLET_ADDRESS => handle_wallet_address e user_message uid
  | WAITING_FOR_SWAP_REQUEST => handle_swap_request e user_message uid
  | WAITING_FOR_SWAP_CONFIRMATION =>
      let answer := lower user_message in
      if existsb (String.eqb answer) ["yes"; "confirm"; "proceed"; "do it"; "execute"]
      then execute_bitte_swap_from_message e uid
      else if existsb (String.eqb answer) ["no"; "cancel"; "stop"; "abort"]
      then cancel_swap_from_message uid
      else handle_swap_request e user_message uid
  | IDLE => reply_text UseStartText
  end.

Definition handle_message (e : env) (m : message) : H unit :=
  if existsb (String.eqb (chat_type m)) ["group"; "supergroup"] then
    let mention := match bot_username m with
                   | Some name => if is_empty name then None else Some ("@" ++ name)
                   | None => None
                   end in
    let is_mentioned := match mention with
                        | Some at_name => contains at_name (message_text m)
                        | None => false
                        end in
    if negb (is_mentioned || reply_to_bot m) then mret tt
    else
      let user_message :=
        match mention with
        | Some at_name =>
            if is_mentioned then strip (remove_all at_name (message_text m))
            else message_text m
        | None => message_text m
        end in
      dispatch_message e user_message (user_id m)
  else dispatch_message e (message_text m) (user_id m).

(** The handler the application runs for an update. *)
Definition handle_update (e : env) (u : update) : H unit :=
  match u with
  | StartCommand uid => start uid
  | HelpCommand _ => help
  | WalletCommand uid => show_wallet_info uid
  | ResetCommand uid => reset_conversation uid
  | CallbackQuery uid data => handle_callback e uid data
  | TextMessage m => handle_message e m
  end.

(** The bot after an update: what the handler stored stays, whether it
    returned or raised. *)
Definition step (e : env) (u : update) (b : bot) : bot :=
  snd (fst (handle_update e u b)).

End Bot.

(** A bot just constructed. *)
Definition new_bot (signer : bool) : bot :=
  {| user_states := ∅; user_data := ∅; chat_histories := ∅;
     signer_configured := signer |}.

End Final.

(** ** [chatbot.py]: the analysis bot with the token preference *)
Module Chatbot.

Inductive UserState :=
| WAITING_FOR_TWITTER_URL
| WAITING_FOR_WALLET_ADDRESS
| WAITING_FOR_TOKEN_PREFERENCE
| IDLE.

(** *** The two patterns of [parse_token_preference]

    Each pattern is a sequence of greedy pieces none of which can give a
    character back to the next one (a digit is neither [%] nor a space, a
    space starts no symbol), so a match at a position is the greedy one or
    none.  A matcher returns its groups and what follows the match. *)

(** [(USDC|ETH|NATIVE)], the alternatives tried in this order. *)
Definition match_symbol (s : string) : option (string * string) :=
  if startswith "USDC" s then Some ("USDC", drop_chars 4 s)
  else if startswith "ETH" s then Some ("ETH", drop_chars 3 s)
  else if startswith "NATIVE" s then Some ("NATIVE", drop_chars 6 s)
  else None.

(** One or more whitespace characters: what follows them, if there is at least one. *)
Definition match_spaces (s : string) : option string :=
  match s with
  | String c _ => if is_space c then Some (lstrip_by is_space s) else None
  | EmptyString => None
  end.

(** The percentage pattern: digits, an optional percent sign, spaces, a
    symbol.  The groups are (digits, symbol). *)
Definition percentage_pattern (s : string) : option ((string * string) * string) :=
  let '(digits, r1) := Json.take_digits s in
  if is_empty digits then None
  else
    let r2 := match r1 with String "%" r => r | _ => r1 end in
    match match_spaces r2 with
    | Some r3 =>
        match match_symbol r3 with
        | Some (symbol, r4) => Some ((digits, symbol), r4)
        | None => None
        end
    | None => None
    end.

(** The simple pattern: a symbol, spaces, digits.  The groups are
    (symbol, digits). *)
Definition simple_pattern (s : string) : option ((string * string) * string) :=
  match match_symbol s with
  | Some (symbol, r1) =>
      match match_spaces r1 with
      | Some r2 =>
          let '(digits, r3) := Json.take_digits r2 in
          if is_empty digits then None else Some ((symbol, digits), r3)
      | None => None
      end
  | None => None
  end.

(** [re.findall(pattern, s)]: the matches from left to right, the search
    resuming where a match ended.  [skip] counts the characters of the last
    match still to be passed. *)
Fixpoint findall_from {A} (pattern : string -> option (A * string)) (skip : nat)
  (s : string) : list A :=
  match s with
  | EmptyString => []
  | String _ s' =>
      match skip with
      | S k => findall_from pattern k s'
      | O =>
          match pattern s with
          | Some (groups, rest) =>
              groups :: findall_from pattern (String.length s - String.length rest - 1) s'
          | None => findall_from pattern O s'
          end
      end
  end.

Definition findall {A} (pattern : string -> option (A * string)) (s : string) : list A :=
  findall_from pattern O s.

(** *** The allocation dictionary *)

Fixpoint alloc_get (token : string) (d : list (string * Z)) : option Z :=
  match d with
  | [] => None
  | (k, v) :: d' => if String.eqb token k then Some v else alloc_get token d'
  end.

(** [if token in d: d[token] += n else: d[token] = n]. *)
Fixpoint alloc_add (token : string) (n : Z) (d : list (string * Z)) : list (string * Z) :=
  match d with
  | [] => [(token, n)]
  | (k, v) :: d' =>
      if String.eqb token k then (k, v + n) :: d' else (k, v) :: alloc_add token n d'
  end.

(** The body of the loop over the matches, on
    [(token_allocation, total_percentage)]. *)
Definition add_match (acc : list (string * Z) * Z) (m : string * string)
  : list (string * Z) * Z :=
  let percentage := int_of_digits (fst m) in
  (alloc_add (snd m) percentage (fst acc), snd acc + percentage).

Definition could_not_parse : string :=
  "Could not parse token allocation. Please use format like '70% USDC and 30% NATIVE'".

Definition total_exceeds (total : Z) : string :=
  "Total percentage (" ++ str_of_int total ++ "%) cannot exceed 100%".

(** The matches the loop runs over: those of the percentage pattern, or, when
    there is none, those of the simple pattern with their groups swapped. *)
Definition preference_matches (preference : string) : list (string * string) :=
  match findall percentage_pattern preference with
  | [] => map (fun m => (snd m, fst m)) (findall simple_pattern preference)
  | matches => matches
  end.

Definition parse_token_preference (preference : string) : result (list (string * Z)) :=
  let preference := strip (upper preference) in
  if existsb (String.eqb preference) ["NATIVE"; "USDC"; "ETH"]
  then Ok [(preference, 100)]
  else
    match preference_matches preference with
    | [] => Raise (ValueError could_not_parse)
    | matches =>
        let '(token_allocation, total_percentage) :=
          fold_left add_match matches ([], 0) in
        if total_percentage >? 100
        then Raise (ValueError (total_exceeds total_percentage))
        else if total_percentage <? 100
        then Ok (alloc_add "NATIVE" (100 - total_percentage) token_allocation)
        else Ok token_allocation
    end.

(** [format_token_allocation]. *)
Definition format_token_allocation (allocation : list (string * Z)) : string :=
  String.concat ", "
    (map (fun kv => str_of_int (snd kv) ++ "% " ++ fst kv) allocation).

(** *** The bot *)

Inductive text :=
| WelcomeText
| HelpText
| UseStartText
| InvalidUrlText
| UrlReceivedText
| InvalidWalletText
| ProcessingRequestText
| ScoreText (twitter_url : value) (wallet_address : string) (score prize_amount : Z)
| ProcessingAllocationText
| TransactionCompleteText (score prize_amount : value) (allocation_text : string)
    (transaction_hash status : string)
| PreferenceErrorText (error : exn).

Record bot := {
  user_states : gmap Z UserState;
  user_data : gmap Z (gmap string value)
}.

Definition with_user_states (f : gmap Z UserState -> gmap Z UserState) (b : bot) : bot :=
  {| user_states := f (user_states b); user_data := user_data b |}.

Definition with_user_data
  (f : gmap Z (gmap string value) -> gmap Z (gmap string value)) (b : bot) : bot :=
  {| user_states := user_states b; user_data := f (user_data b) |}.

Record message := {
  message_text : string;
  user_id : Z;
  chat_type : string;
  bot_username : option string;
  reply_to_bot : bool
}.

Inductive update :=
| StartCommand (uid : Z)
| HelpCommand (uid : Z)
| TextMessage (m : message).

Abbreviation H := (M bot text).

Definition current_state (uid : Z) (b : bot) : UserState :=
  default IDLE (user_states b !! uid).

Definition set_state (uid : Z) (s : UserState) : H unit :=
  modify (with_user_states (insert uid s)).

Definition reply_text (t : text) : H unit := send t.

Definition set_user_field (uid : Z) (key : string) (v : value) : H unit :=
  d ← gets (fun b => user_data b !! uid);
  match d with
  | Some fields => modify (with_user_data (insert uid (<[key := v]> fields)))
  | None => raise KeyError
  end.

Definition get_user_field (uid : Z) (key : string) : H value :=
  d ← gets (fun b => user_data b !! uid);
  match d with
  | Some fields =>
      match fields !! key with
      | Some v => mret v
      | None => raise KeyError
      end
  | None => raise KeyError
  end.

(** [del self.user_data[user_id]]. *)
Definition del_user_data (uid : Z) : H unit :=
  d ← gets (fun b => user_data b !! uid);
  match d with
  | Some _ => modify (with_user_data (delete uid))
  | None => raise KeyError
  end.

Definition is_valid_twitter_url (url : string) : bool :=
  existsb (fun domain => contains domain (lower url)) ["twitter.com"; "x.com"]
  && (startswith "http://" url || startswith "https://" url).

(** [process_token_transaction]: the mock transaction, its hash the bytes
    0 to 31 in hexadecimal. *)
Definition mock_transaction_hash : string :=
  "0x000102030405060708090a0b0c0d0e0f101112131415161718191a1b1c1d1e1f".

Definition mock_transaction_status : string := "Transaction completed successfully".

(** [score * 10] on the stored score. *)
Definition times_ten (score : value) : result value :=
  match score with
  | VInt n => Ok (VInt (n * 10))
  | VBool b => Ok (VInt (if b then 10 else 0))
  | VFloat f =>
      Ok (VFloat (SFmul binary64_prec binary64_emax f
                    (binary_normalize binary64_prec binary64_emax 10 0 false)))
  | VStr s => Ok (VStr (String.concat EmptyString (repeat s 10)))
  | VList l => Ok (VList (List.concat (repeat l 10)))
  | VNone | VDict _ => Raise TypeError
  end.

Section Bot.

Variable json_loads : string -> result value.

(** [parse_streaming_response(response)] of this file: the score; its loop
    is the loop of [parse_twitter_scoring_response] in [final.py], line for
    line. *)
Definition parse_streaming_response (body : result string) : Z :=
  match content ← body; Final.score_lines json_loads 1 (split_lines (strip content)) with
  | Ok score => score
  | Raise _ => 1
  end.

Definition analyze_twitter (x : exchange) : Z :=
  match x with
  | RequestRaises _ => 1
  | Response status body =>
      if negb (status =? 200) then 1 else parse_streaming_response body
  end.

Definition handle_twitter_url (url : string) (uid : Z) : H unit :=
  if negb (is_valid_twitter_url url) then reply_text InvalidUrlText
  else
    set_user_field uid "twitter_url" (VStr url);;
    set_state uid WAITING_FOR_WALLET_ADDRESS;;
    reply_text UrlReceivedText.

Definition handle_wallet_address (x : exchange) (wallet_address : string) (uid : Z)
  : H unit :=
  if is_empty (strip wallet_address) then reply_text InvalidWalletText
  else
    set_user_field uid "wallet_address" (VStr wallet_address);;
    reply_text ProcessingRequestText;;
    twitter_url ← get_user_field uid "twitter_url";
    let score := analyze_twitter x in
    set_user_field uid "score" (VInt score);;
    set_state uid WAITING_FOR_TOKEN_PREFERENCE;;
    reply_text (ScoreText twitter_url wallet_address score (score * 10)).

Definition handle_token_preference (preference : string) (uid : Z) : H unit :=
  try_except
    (token_allocation ← lift (parse_token_preference preference);
     reply_text ProcessingAllocationText;;
     twitter_url ← get_user_field uid "twitter_url";
     wallet_address ← get_user_field uid "wallet_address";
     score ← get_user_field uid "score";
     let allocation_text := format_token_allocation token_allocation in
     prize_amount ← lift (times_ten score);
     reply_text (TransactionCompleteText score prize_amount allocation_text
                   mock_transaction_hash mock_transaction_status);;
     set_state uid IDLE;;
     del_user_data uid)
    is_value_error
    (fun e => reply_text (PreferenceErrorText e)).

Definition start (uid : Z) : H unit :=
  set_state uid WAITING_FOR_TWITTER_URL;;
  modify (with_user_data (insert uid ∅));;
  reply_text WelcomeText.

Definition help : H unit := reply_text HelpText.

Definition dispatch_message (x : exchange) (user_message : string) (uid : Z) : H unit :=
  current ← gets (current_state uid);
  match current with
  | WAITING_FOR_TWITTER_URL => handle_twitter_url user_message uid
  | WAITING_FOR_WALLET_ADDRESS => handle_wallet_address x user_message uid
  | WAITING_FOR_TOKEN_PREFERENCE => handle_token_preference user_message uid
  | IDLE => reply_text UseStartText
  end.

Definition handle_message (x : exchange) (m : message) : H unit :=
  if existsb (String.eqb (chat_type m)) ["group"; "supergroup"] then
    let mention := match bot_username m with
                   | Some name => if is_empty name then None else Some ("@" ++ name)
                   | None => None
                   end in
    let is_mentioned := match mention with
                        | Some at_name => contains at_name (message_text m)
                        | None => false
                        end in
    if negb (is_mentioned || reply_to_bot m) then mret tt
    else
      let user_message :=
        match mention with
        | Some at_name =>
            if is_mentioned then strip (remove_all at_name (message_text m))
            else message_text m
        | None => message_text m
        end in
      dispatch_message x user_message (user_id m)
  else dispatch_message x (message_text m) (user_id m).

Definition handle_update (x : exchange) (u : update) : H unit :=
  match u with
  | StartCommand uid => start uid
  | HelpCommand _ => help
  | TextMessage m => handle_message x m
  end.

End Bot.
End Chatbot.

(** ** [swap.py]: the terminal chat *)
Module SwapChat.

(** An entry of [chat_history]: the user's message with its text, or the
    assistant message the parser built. *)
Inductive chat_message :=
| UserMessage (id : string) (text : string)
| AssistantMessage (m : value).

(** The text of an error entry: [str(e)] of the [HTTPError] that
    [raise_for_status] raises for a status, or of another exception. *)
Inductive error_text :=
| StatusError (status : Z)
| ExceptionText (e : exn).

(** What [send_chat_message] returns: the parsed dictionary, or a
    dictionary with the single key [error]. *)
Inductive response_data :=
| Parsed (p : parsed)
| ErrorDict (err : error_text).

(** What the world supplies to one call. *)
Record env := {
  user_message_uuid : string;
  agent_exchange : exchange;
  assistant_uuid : string
}.

Section Chat.

Variable json_loads : string -> result value.

(** [send_chat_message(text)] on the module's [chat_history].  The user's
    message is appended before the request is made; [raise_for_status]
    raises for the statuses from 400 to 599; every exception of the [try]
    becomes an error dictionary.  The assistant message, when the parser
    built one, is a dictionary with six keys, hence true.  The request it
    builds is not modelled. *)
Definition send_chat_message (e : env) (text : string)
  (chat_history : list chat_message) : response_data * list chat_message :=
  let chat_history := (chat_history ++ [UserMessage (user_message_uuid e) text])%list in
  match agent_exchange e with
  | RequestRaises ex => (ErrorDict (ExceptionText ex), chat_history)
  | Response status body =>
      if (400 <=? status) && (status <? 600)
      then (ErrorDict (StatusError status), chat_history)
      else
        match response_text ← body;
              Swap.parse_streaming_response json_loads (assistant_uuid e) response_text
        with
        | Ok response_data =>
            (Parsed response_data,
             match assistant_message response_data with
             | Some m => (chat_history ++ [AssistantMessage m])%list
             | None => chat_history
             end)
        | Raise ex => (ErrorDict (ExceptionText ex), chat_history)
        end
  end.

End Chat.
End SwapChat.

(** * What the claims speak of

    The notions the statements below are written with: none of them is part
    of the program. *)

(** ** Allocations and matches *)
Module PreferenceSpec.

(** The sum of the percentages of an allocation. *)
Definition alloc_total (d : list (string * Z)) : Z :=
  fold_right (fun kv acc => snd kv + acc) 0 d.

(** The sum of the percentages of the matches. *)
Definition matches_total (ms : list (string * string)) : Z :=
  fold_right (fun m acc => int_of_digits (fst m) + acc) 0 ms.

(** The share the matches give to [token] explicitly, and whether any match
    names it. *)
Definition explicit_share (token : string) (ms : list (string * string)) : Z :=
  fold_right (fun m acc =>
    if String.eqb token (snd m) then int_of_digits (fst m) + acc else acc) 0 ms.

Definition mentioned (token : string) (ms : list (string * string)) : bool :=
  existsb (fun m => String.eqb token (snd m)) ms.

(** The input is one of the three bare symbols. *)
Definition bare_symbol (preference : string) : bool :=
  existsb (String.eqb preference) ["NATIVE"; "USDC"; "ETH"].

End PreferenceSpec.

(** ** Lines of a response body *)
Module LineSpec.

(** The lines a parser acts on: each line stripped, the blank ones left out. *)
Definition effective_lines (lines : list string) : list string :=
  List.filter (fun l => negb (is_empty l)) (map strip lines).

Definition no_newline (l : string) : Prop :=
  string_forallb (fun c => negb (Ascii.eqb c newline)) l = true.

End LineSpec.

(** ** Events of a stream *)
Module StreamSpec.

(** A line none of the three branches takes. *)
Definition unrecognized_prefix (line : string) : Prop :=
  startswith "0:" line = false /\ startswith "9:" line = false
  /\ startswith "a:" line = false.

(** [r] is a result record whose [toolCallId] is the string [s]. *)
Definition carries_id (s : string) (r : value) : bool :=
  match py_get "toolCallId" r with
  | Ok (VStr t) => String.eqb s t
  | _ => false
  end.

(** The last result record that carries the identifier [s]. *)
Definition last_result_for (s : string) (results : list value) : option value :=
  last (List.filter (carries_id s) results).

(** What the claim says of one tool call and its entry of the merged list,
    for a call whose identifier is a string or is missing. *)
Definition merged_entry (results : list value) (call entry : value) : Prop :=
  exists fields,
    call = VDict fields /\
    match default VNone (dict_get "toolCallId" fields) with
    | VStr s =>
        match (if is_empty s then None else last_result_for s results) with
        | Some r =>
            exists d, r = VDict d /\
              entry = VDict (dict_set "state" (VStr "completed")
                               (dict_set "result"
                                  (default (VDict []) (dict_get "result" d)) fields))
        | None => entry = VDict (dict_set "state" (VStr "pending") fields)
        end
    | VNone => entry = VDict (dict_set "state" (VStr "pending") fields)
    | _ => True
    end.

(** Every key of [tool_results] passed the test [if tool_call_id:]. *)
Definition keys_truthy (d : kdict) : Prop := Forall (fun kv => truthy (fst kv) = true) d.

(** A text none of whose lines carries one of the three prefixes. *)
Definition plain_text (c : string) : Prop :=
  Forall (fun raw => unrecognized_prefix (strip raw)) (split_lines c).

Definition empty_parse : parsed :=
  {| assistant_message := None; content := EmptyString; tool_invocations := [] |}.

Section WithDecoder.

Variable json_loads : string -> result value.

(** A line whose payload is not a JSON document. *)
Definition malformed_payload (line : string) : Prop :=
  json_loads (drop_chars 2 line) = Raise JSONDecodeError.

Definition bad_line (raw : string) : Prop :=
  unrecognized_prefix (strip raw) \/ malformed_payload (strip raw).

(** The payload of a line that carries [prefix] and decodes. *)
Definition payload_of (prefix raw : string) : option value :=
  let line := strip raw in
  if startswith prefix line
  then match json_loads (drop_chars 2 line) with
       | Ok v => Some v
       | Raise _ => None
       end
  else None.

(** The tool calls and the tool results of a body, in stream order. *)
Definition call_events (body : string) : list value :=
  omap (payload_of "9:") (split_lines body).

Definition result_events (body : string) : list value :=
  omap (payload_of "a:") (split_lines body).

End WithDecoder.

(** *** Streams to run the parsers on *)

Definition text_line (s : string) : string := "0:" ++ Json.quoted s.

Definition call_line (id : string) : string :=
  "9:{" ++ Json.quoted "toolCallId" ++ ":" ++ Json.quoted id ++ ","
        ++ Json.quoted "toolName" ++ ":" ++ Json.quoted "swap" ++ "}".

Definition result_line (id : string) : string :=
  "a:{" ++ Json.quoted "toolCallId" ++ ":" ++ Json.quoted id ++ ","
        ++ Json.quoted "result" ++ ":{" ++ Json.quoted "ok" ++ ":true}}".

End StreamSpec.

(** ** Lines of a scoring response *)
Module ScoringSpec.

(** A line the scoring loop passes over: it starts neither with [a:] nor
    with [0:]. *)
Definition no_score_line (line : string) : Prop :=
  startswith "a:" line = false /\ startswith "0:" line = false.

End ScoringSpec.

(** ** Bots that await an input *)
Module ValidationSpec.

Definition waiting_bot (s : Chatbot.UserState) : Chatbot.bot :=
  {| Chatbot.user_states := {[ 7 := s ]};
     Chatbot.user_data := {[ 7 := {[ "twitter_url" := VStr "https://x.com/a/status/1" ]} ]} |}.

Definition waiting_final_bot (s : Final.UserState) : Final.bot :=
  {| Final.user_states := {[ 7 := s ]};
     Final.user_data := {[ 7 := {[ "twitter_url" := VStr "https://x.com/a/status/1" ]} ]};
     Final.chat_histories := {[ 7 := [] ]};
     Final.signer_configured := false |}.

Definition quiet_env : Final.env :=
  {| Final.scoring_exchange := Response 200 (Ok "0:7");
     Final.agent_exchange := Response 200 (Ok EmptyString);
     Final.user_message_uuid := "m1";
     Final.session_uuid := "s1";
     Final.assistant_uuid := "a1";
     Final.chain_outcome := Raise ClientError |}.

End ValidationSpec.

(** ** The bots of [final.py] that exist *)
Module FinalSpec.
Import Final.

(** The identifier of a session is the text of a UUID: not empty. *)
Definition env_ok (e : env) : Prop := session_uuid e <> EmptyString.

(** A stored wallet address passed [is_valid_wallet_address]; a stored
    session identifier is true. *)
Definition fields_ok (fields : gmap string value) : Prop :=
  (forall v, fields !! "wallet_address" = Some v ->
             exists w, v = VStr w /\ is_valid_wallet_address w = true)
  /\ (forall v, fields !! "session_id" = Some v -> truthy v = true).

Definition data_ok (b : bot) : Prop :=
  forall uid fields, user_data b !! uid = Some fields -> fields_ok fields.

(** A user whose wallet address is awaited has data, with the URL in it. *)
Definition url_known (b : bot) : Prop :=
  forall uid, user_states b !! uid = Some WAITING_FOR_WALLET_ADDRESS ->
              exists fields, user_data b !! uid = Some fields
                             /\ is_Some (fields !! "twitter_url").

Definition invariant (b : bot) : Prop := data_ok b /\ url_known b.

(** The handler [m] keeps the property [P] of the bot, whether it returns
    or raises. *)
Definition keeps {A} (P : bot -> Prop) (m : H A) : Prop :=
  forall b, P b -> P (snd (fst (m b))).

(** The data of a user after the cleanup: the wallet address and the
    session identifier, each kept when it is true. *)
Definition kept_fields (fields : gmap string value) : gmap string value :=
  let wallet_address := default VNone (fields !! "wallet_address") in
  let session_id := default VNone (fields !! "session_id") in
  let kept := if truthy wallet_address
              then <["wallet_address" := wallet_address]> ∅ else ∅ in
  if truthy session_id then <["session_id" := session_id]> kept else kept.

Definition cleaned (uid : Z) (b : bot) : bot :=
  {| user_states := <[uid := IDLE]> (user_states b);
     user_data := match user_data b !! uid with
                  | Some fields => <[uid := kept_fields fields]> (user_data b)
                  | None => user_data b
                  end;
     chat_histories := chat_histories b;
     signer_configured := signer_configured b |}.

(** A hexadecimal digit, in the words of the claim: 0-9, a-f, A-F. *)
Definition is_hex_char (c : ascii) : bool :=
  is_digit c || char_between 97 102 c || char_between 65 70 c.

(** The acceptance condition, in the words of the claim. *)
Definition well_formed_address (a : string) : Prop :=
  String.length a = 42%nat
  /\ startswith "0x" a = true
  /\ String.length (drop_chars 2 a) = 40%nat
  /\ string_forallb is_hex_char (drop_chars 2 a) = true.

(** The state and the stored address once [handle_wallet_address] has set
    them. *)
Definition wallet_accepted (uid : Z) (address : string) (b : bot) : Prop :=
  user_states b !! uid = Some WAITING_FOR_SWAP_REQUEST
  /\ exists fields, user_data b !! uid = Some fields
                    /\ fields !! "wallet_address" = Some (VStr address).

Section WithDecoder.

Variable json_loads : string -> result value.

(** The bots that exist: a new bot, and the bot after any update. *)
Inductive reachable : bot -> Prop :=
| reachable_new signer : reachable (new_bot signer)
| reachable_step b e u :
    reachable b -> env_ok e -> reachable (step json_loads e u b).

End WithDecoder.

(** *** A conversation *)

Definition valid_address : string := "0x52908400098527886E0F7030069857D2E4169EE7".

Definition private_message (s : string) : update :=
  TextMessage {| message_text := s; user_id := 7; chat_type := "private";
                 bot_username := Some "bitte_bot"; reply_to_bot := false |}.

(** The world of the conversation: the scoring agent answers 7, the swap
    agent proposes a swap by a tool call with its result. *)
Definition story_env : env :=
  {| scoring_exchange := Response 200 (Ok (StreamSpec.text_line "7"));
     agent_exchange :=
       Response 200
         (Ok (join_lines [ StreamSpec.text_line "Swap ready.";
                           StreamSpec.call_line "x";
                           StreamSpec.result_line "x" ]));
     user_message_uuid := "m1";
     session_uuid := "s1";
     assistant_uuid := "a1";
     chain_outcome := Raise ClientError |}.

Definition run (updates : list update) (b : bot) : bot :=
  fold_left (fun b u => step Json.loads story_env u b) updates b.

(** After the URL. *)
Definition awaiting_wallet : bot :=
  run [StartCommand 7; private_message "https://x.com/a/status/1"] (new_bot false).

(** After the URL, the wallet address and a swap request. *)
Definition awaiting_confirmation : bot :=
  run [private_message ("  " ++ valid_address); private_message "all to ETH"]
    awaiting_wallet.

(** The data of the user when the confirmation is awaited. *)
Definition confirmation_fields : gmap string value :=
  default ∅ (user_data awaiting_confirmation !! 7).

End FinalSpec.

(** ** Allocations as dictionaries *)
Module AllocationSpec.

(** The closed vocabulary of token symbols. *)
Definition vocabulary : list string := ["USDC"; "ETH"; "NATIVE"].

(** An allocation as a dictionary holds it: no symbol twice, every symbol
    one of the vocabulary, every share a percentage. *)
Definition well_formed (allocation : list (string * Z)) : Prop :=
  NoDup (map fst allocation)
  /\ Forall (fun kv => In (fst kv) vocabulary /\ 0 <= snd kv <= 100) allocation.

(** A match of either pattern: a run of digits and a symbol of the
    vocabulary. *)
Definition percentage_of_symbol (m : string * string) : Prop :=
  string_forallb is_digit (fst m) = true /\ In (snd m) vocabulary.

(** An entry of an allocation under construction. *)
Definition share_of_symbol (kv : string * Z) : Prop :=
  In (fst kv) vocabulary /\ 0 <= snd kv.

(** An entry of the formatted text, and the groups a match of it has. *)
Definition entry_text (kv : string * Z) : string :=
  (str_of_int (snd kv) ++ "% " ++ fst kv)%string.

Definition entry_groups (kv : string * Z) : string * string :=
  (str_of_int (snd kv), fst kv).

End AllocationSpec.

(** ** The content of a stream *)
Module ContentSpec.

(** The string a decoded payload contributes to the content. *)
Definition as_text (v : value) : option string :=
  match v with VStr s => Some s | _ => None end.

(** A tool call the merge can handle: an object whose [toolCallId], when it
    has one, can be a dictionary key. *)
Definition mergeable (call : value) : bool :=
  match call with
  | VDict fields => hashable (default VNone (dict_get "toolCallId" fields))
  | _ => false
  end.

(** Every stored record is an object. *)
Definition records (d : kdict) : Prop := Forall (fun kv => exists r, snd kv = VDict r) d.

(** A string whose JSON literal is the string between quotes: no quote, no
    backslash, no control character. *)
Definition literal (s : string) : Prop :=
  string_forallb (fun c => negb (Ascii.eqb c Json.quote)
                           && negb (Ascii.eqb c Json.backslash)
                           && (32 <=? char_code c)) s = true.

(** What a parser returns on a stream of text. *)
Definition text_parse (uuid text : string) : parsed :=
  {| assistant_message :=
       if is_empty text then None else Some (make_assistant_message uuid text []);
     content := text;
     tool_invocations := [] |}.

Section WithDecoder.

Variable json_loads : string -> result value.

(** The text deltas of a body, in stream order. *)
Definition text_events (body : string) : list string :=
  omap as_text (omap (StreamSpec.payload_of json_loads "0:") (split_lines body)).

End WithDecoder.

(** A state after more text deltas. *)
Definition add_texts (st : stream_state) (ss : list string) : stream_state :=
  {| assistant_content := assistant_content st ++ String.concat EmptyString ss;
     tool_calls := tool_calls st;
     tool_results := tool_results st |}.

End ContentSpec.

(** ** Score lines *)
Module ScoreSpec.

(** A text without whitespace. *)
Definition solid (s : string) : Prop :=
  string_forallb (fun c => negb (is_space c)) s = true.

End ScoreSpec.

(** ** Sessions of [final.py] *)
Module SessionSpec.
Import Final.

(** The user an update comes from. *)
Definition update_user (u : update) : Z :=
  match u with
  | StartCommand uid | HelpCommand uid | WalletCommand uid | ResetCommand uid
  | CallbackQuery uid _ => uid
  | TextMessage m => user_id m
  end.

(** What the bot holds about one user. *)
Definition session (uid : Z) (b : bot)
  : option UserState * option (gmap string value) * option (list chat_message) :=
  (user_states b !! uid, user_data b !! uid, chat_histories b !! uid).

(** The edges a text message can follow in the conversation. *)
Definition may_follow (s s' : UserState) : bool :=
  match s, s' with
  | IDLE, IDLE => true
  | WAITING_FOR_TWITTER_URL, (WAITING_FOR_TWITTER_URL | WAITING_FOR_WALLET_ADDRESS) => true
  | WAITING_FOR_WALLET_ADDRESS, (WAITING_FOR_WALLET_ADDRESS | WAITING_FOR_SWAP_REQUEST) => true
  | WAITING_FOR_SWAP_REQUEST, (WAITING_FOR_SWAP_REQUEST | WAITING_FOR_SWAP_CONFIRMATION) => true
  | WAITING_FOR_SWAP_CONFIRMATION,
    (WAITING_FOR_SWAP_CONFIRMATION | WAITING_FOR_SWAP_REQUEST | IDLE) => true
  | _, _ => false
  end.

(** What an update of another user keeps: the session of [other] and the
    signing account. *)
Definition untouched (other : Z)
  (held : option UserState * option (gmap string value) * option (list chat_message))
  (signer : bool) (b : bot) : Prop :=
  session other b = held /\ signer_configured b = signer.

(** The state of [uid] is one a text message can reach from [from]. *)
Definition follows (uid : Z) (from : UserState) (b : bot) : Prop :=
  may_follow from (current_state uid b) = true.

(** After a callback the state is the one before, idle, or the awaited swap
    request. *)
Definition after_callback (uid : Z) (before : UserState) (b : bot) : Prop :=
  current_state uid b = before
  \/ current_state uid b = IDLE
  \/ current_state uid b = WAITING_FOR_SWAP_REQUEST.

End SessionSpec.

(** ** Requests to the agent *)
Module AgentSpec.
Import Final.

(** What a request adds to the chat history of its user: the user's
    message, then the assistant's when the response carries one. *)
Definition exchanged (e : env) (prize_amount : value) (request : string)
  (response : response_data) : list chat_message :=
  UserMessage (user_message_uuid e) prize_amount request ::
  match response with
  | Parsed {| assistant_message := Some m |} => [AssistantMessage m]
  | _ => []
  end.

(** The data of the users once the session of [uid] has its identifier. *)
Definition with_session (e : env) (uid : Z) (data : gmap Z (gmap string value))
  : gmap Z (gmap string value) :=
  match data !! uid with
  | Some fields =>
      if bool_decide (is_Some (fields !! "session_id")) then data
      else <[uid := <["session_id" := VStr (session_uuid e)]> fields]> data
  | None => data
  end.

Section WithDecoder.

Variable json_loads : string -> result value.

(** The dictionary the request gives, for a user with or without data. *)
Definition agent_response (e : env) (known : bool) : response_data :=
  if known then
    match agent_exchange e with
    | RequestRaises ex => ErrorDict (ExceptionText ex)
    | Response status body =>
        if status =? 200 then
          match body with
          | Ok response_text =>
              parse_streaming_response json_loads (assistant_uuid e) response_text
          | Raise ex => ErrorDict (ExceptionText ex)
          end
        else ErrorDict (ApiRequestFailed status)
    end
  else ErrorDict (ExceptionText KeyError).

End WithDecoder.

(** A tool list names a swap tool. *)
Definition offers_swap (tools : list value) : bool :=
  existsb (fun inv =>
    match inv with
    | VDict d =>
        match dict_get "toolName" d with
        | Some (VStr name) => String.eqb name "swap" || String.eqb name "generate-evm-tx"
        | _ => false
        end
    | _ => false
    end) tools.

(** The conversation of [FinalSpec] once the wallet address is accepted. *)
Definition awaiting_request : bot :=
  FinalSpec.run [FinalSpec.private_message ("  " ++ FinalSpec.valid_address)]
    FinalSpec.awaiting_wallet.

Definition request_fields : gmap string value :=
  default ∅ (user_data awaiting_request !! 7).

(** A value that is a dictionary. *)
Definition is_dict (v : value) : Prop := exists d, v = VDict d.

End AgentSpec.

(** ** Executing a swap *)
Module ExecutionSpec.
Import Final.

(** The failure [process_tool_invocations] reports when no signing account
    is configured. *)
Definition unsigned_failure (uid : Z) (b : bot) : swap_failure :=
  if has_user_field uid "pending_tool_invocations" b
  then NoWalletConfigured else NoPendingSwap.

(** A handler that neither reads nor changes the bot and sends nothing. *)
Definition stateless {A} (m : H A) : Prop := exists r, forall b, m b = (r, b, []).

(** The ways a user can back out of a swap that awaits its confirmation. *)
Inductive retreat :=
| CancelButton
| CancelMessage
| ResetCommandSent.

Definition retreated (how : retreat) (uid : Z) (b : bot) : bot :=
  snd (fst (match how with
            | CancelButton => cancel_swap uid b
            | CancelMessage => cancel_swap_from_message uid b
            | ResetCommandSent => reset_conversation uid b
            end)).

(** A bot with a signing account and a pending transaction, and a world in
    which [execute_transaction] returns a hash. *)
Definition pending_transaction : value :=
  VList [VDict [("toolName", VStr "generate-evm-tx");
                ("result",
                 VDict [("data",
                         VDict [("evmSignRequest",
                                 VDict [("params",
                                         VList [VDict [("to", VStr "0x01")]])])])])]].

Definition signing_bot : bot :=
  {| user_states := {[ 7 := WAITING_FOR_SWAP_CONFIRMATION ]};
     user_data := {[ 7 := {[ "pending_tool_invocations" := pending_transaction ]} ]};
     chat_histories := ∅;
     signer_configured := true |}.

Definition accepting_env : env :=
  {| scoring_exchange := RequestRaises ClientError;
     agent_exchange := RequestRaises ClientError;
     user_message_uuid := "m1";
     session_uuid := "s1";
     assistant_uuid := "a1";
     chain_outcome := Ok "0xabc" |}.

(** [process_tool_invocations] from the point where the pending
    invocations are read and a signing account is there. *)
Definition execute_pending (e : env) (tool_invocations : value) : H swap_result :=
  invs ← lift (py_iter tool_invocations);
  '(swap_data, tx_data) ← lift (collect_tools (VNone, VNone) invs);
  has_params ← lift (if truthy tx_data
                     then p ← py_get "params" tx_data; Ok (truthy p)
                     else Ok false);
  if (has_params : bool) then
    match
      params ← py_getitem "params" tx_data;
      tx_params ← py_first params;
      tx_hash ← chain_outcome e;
      if negb (is_empty tx_hash)
      then message ← success_message swap_data; Ok (SwapSuccess tx_hash message)
      else Ok (SwapFailure ExecutionFailed)
    with
    | Ok r => mret r
    | Raise ex => mret (SwapFailure (TransactionFailed ex))
    end
  else if truthy swap_data then mret (SwapFailure SwapDataWithoutTransaction)
  else mret (SwapFailure NoExecutableTransaction).

End ExecutionSpec.

(** ** The conversation of [chatbot.py] *)
Module ChatbotSpec.
Import Chatbot.

(** The bot as its constructor leaves it. *)
Definition new_bot : bot := {| user_states := ∅; user_data := ∅ |}.

(** The user an update comes from. *)
Definition update_user (u : update) : Z :=
  match u with
  | StartCommand uid | HelpCommand uid => uid
  | TextMessage m => user_id m
  end.

(** What a user in state [s] must have stored for the handler of that state
    to find what it reads. *)
Definition provided (s : UserState) (data : option (gmap string value)) : Prop :=
  match s with
  | WAITING_FOR_TWITTER_URL => is_Some data
  | WAITING_FOR_WALLET_ADDRESS =>
      exists fields, data = Some fields /\ is_Some (fields !! "twitter_url")
  | WAITING_FOR_TOKEN_PREFERENCE =>
      exists fields, data = Some fields
        /\ is_Some (fields !! "twitter_url")
        /\ is_Some (fields !! "wallet_address")
        /\ exists score, fields !! "score" = Some (VInt score)
  | IDLE => True
  end.

Definition invariant (b : bot) : Prop :=
  forall uid, provided (current_state uid b) (user_data b !! uid).

Section WithDecoder.

Variable json_loads : string -> result value.

(** The bots that exist: a new bot, and the bot after any update. *)
Inductive reachable : bot -> Prop :=
| reachable_new : reachable new_bot
| reachable_step b x u :
    reachable b -> reachable (snd (fst (handle_update json_loads x u b))).

End WithDecoder.

(** A conversation up to the token preference. *)
Definition private_message (s : string) : update :=
  TextMessage {| message_text := s; user_id := 7; chat_type := "private";
                 bot_username := Some "rating_bot"; reply_to_bot := false |}.

Definition scored (score : Z) : exchange :=
  Response 200 (Ok ("0:" ++ str_of_int score)).

Definition run (updates : list update) (b : bot) : bot :=
  fold_left (fun b u => snd (fst (handle_update Json.loads (scored 7) u b))) updates b.

Definition awaiting_wallet : bot :=
  run [StartCommand 7; private_message "https://x.com/a/status/1"] new_bot.

Definition awaiting_preference : bot :=
  run [StartCommand 7; private_message "https://x.com/a/status/1";
       private_message " my wallet "] new_bot.

(** A handler that returns on every bot that satisfies the invariant, and
    leaves such a bot. *)
Definition safe (m : H unit) : Prop :=
  forall b, invariant b ->
    exists b' out, m b = (Ok tt, b', out) /\ invariant b'.

End ChatbotSpec.

(** ** What the handlers of [final.py] find stored *)
Module GuardSpec.
Import Final.

(** A user whose URL is awaited has data. *)
Definition url_awaited (b : bot) : Prop :=
  forall uid, user_states b !! uid = Some WAITING_FOR_TWITTER_URL ->
              is_Some (user_data b !! uid).

(** Where a prize amount is stored, a wallet address is stored. *)
Definition prize_fields (fields : gmap string value) : Prop :=
  is_Some (fields !! "prize_amount") -> is_Some (fields !! "wallet_address").

Definition prize_known (b : bot) : Prop :=
  forall uid fields, user_data b !! uid = Some fields -> prize_fields fields.

Definition guarded (b : bot) : Prop := url_awaited b /\ prize_known b.

(** A guarded bot that holds a wallet address for [uid]. *)
Definition wallet_stored (uid : Z) (b : bot) : Prop :=
  guarded b
  /\ exists fields, user_data b !! uid = Some fields
                    /\ is_Some (fields !! "wallet_address").

(** The exceptions that leave the handler of an update, and where. *)
Definition escapes (u : update) (b : bot) (ex : exn) : Prop :=
  match u with
  | TextMessage m =>
      (ex = OverflowError
       /\ current_state (user_id m) b = WAITING_FOR_WALLET_ADDRESS)
      \/ ((ex = TypeError \/ ex = AttributeError)
          /\ current_state (user_id m) b = WAITING_FOR_SWAP_CONFIRMATION
          /\ signer_configured b = true)
  | CallbackQuery uid data =>
      (ex = TypeError \/ ex = AttributeError)
      /\ startswith "confirm_swap_" data = true
      /\ signer_configured b = true
  | _ => False
  end.

(** A world in which the agent answers a swap with a number as its result,
    and the conversation in it, with a signing account, up to the
    confirmation. *)
Definition scalar_result_env : env :=
  {| scoring_exchange := Response 200 (Ok (StreamSpec.text_line "7"));
     agent_exchange :=
       Response 200
         (Ok (join_lines
                [ StreamSpec.call_line "x";
                  "a:{" ++ Json.quoted "toolCallId" ++ ":" ++ Json.quoted "x" ++ ","
                        ++ Json.quoted "result" ++ ":5}" ]));
     user_message_uuid := "m1";
     session_uuid := "s1";
     assistant_uuid := "a1";
     chain_outcome := Ok "0xabc" |}.

Definition signing_confirmation : bot :=
  fold_left (fun b u => step Json.loads scalar_result_env u b)
    [ StartCommand 7;
      FinalSpec.private_message "https://x.com/a/status/1";
      FinalSpec.private_message FinalSpec.valid_address;
      FinalSpec.private_message "all to ETH" ]
    (new_bot true).

(** A world in which the scoring agent answers with a numeral of 311
    digits. *)
Definition huge_score_env : env :=
  {| scoring_exchange :=
       Response 200
         (Ok ("0:1" ++ String.concat EmptyString (repeat "0000000000" 31)));
     agent_exchange := RequestRaises ClientError;
     user_message_uuid := "m1";
     session_uuid := "s1";
     assistant_uuid := "a1";
     chain_outcome := Raise ClientError |}.

End GuardSpec.

(** ** Whole conversations *)
Module ConversationSpec.

(** A text message of [uid] in a private chat. *)
Definition final_text (uid : Z) (s : string) : Final.update :=
  Final.TextMessage
    {| Final.message_text := s; Final.user_id := uid; Final.chat_type := "private";
       Final.bot_username := None; Final.reply_to_bot := false |}.

Definition chatbot_text (uid : Z) (s : string) : Chatbot.update :=
  Chatbot.TextMessage
    {| Chatbot.message_text := s; Chatbot.user_id := uid;
       Chatbot.chat_type := "private";
       Chatbot.bot_username := None; Chatbot.reply_to_bot := false |}.

Section WithDecoder.

Variable json_loads : string -> result value.

(** The bot of [final.py] after a list of updates, and what it sent. *)
Definition final_run (e : Final.env) (updates : list Final.update) (b : Final.bot)
  : Final.bot * list Final.action :=
  fold_left (fun acc u =>
               let r := Final.handle_update json_loads e u (fst acc) in
               (snd (fst r), (snd acc ++ snd r)%list))
            updates (b, []).

(** The bot of [chatbot.py] after a list of updates, and what it sent. *)
Definition chatbot_run (x : exchange) (updates : list Chatbot.update) (b : Chatbot.bot)
  : Chatbot.bot * list Chatbot.text :=
  fold_left (fun acc u =>
               let r := Chatbot.handle_update json_loads x u (fst acc) in
               (snd (fst r), (snd acc ++ snd r)%list))
            updates (b, []).

(** What [final.py] holds of a user once the score is shown: the prize is
    there unless the multiplication raised. *)
Definition scored_fields (e : Final.env) (url wallet_address : string)
  : gmap string value :=
  let score := Final.analyze_twitter json_loads (Final.scoring_exchange e) in
  let shown := <["score" := VInt score]>
                 (<["wallet_address" := VStr (strip wallet_address)]>
                    (<["twitter_url" := VStr url]> ∅)) in
  match Final.mul_int_float score Final.one_tenth with
  | Ok prize_amount => <["prize_amount" := VFloat prize_amount]> shown
  | Raise _ => shown
  end.

End WithDecoder.

(** A conversation of [chatbot.py] from any bot. *)
Definition busy_chatbot : Chatbot.bot :=
  {| Chatbot.user_states := {[ 7 := Chatbot.WAITING_FOR_TOKEN_PREFERENCE; 8 := Chatbot.IDLE ]};
     Chatbot.user_data := {[ 7 := {[ "wallet_address" := VStr "old" ]} ]} |}.

End ConversationSpec.

(** ** Sessions of [chatbot.py] *)
Module ChatbotSessionSpec.
Import Chatbot.

(** What the bot holds about one user. *)
Definition session (uid : Z) (b : bot) : option UserState * option (gmap string value) :=
  (user_states b !! uid, user_data b !! uid).

(** The bot after an update: what the handler stored stays, whether it
    returned or raised. *)
Definition step (json_loads : string -> result value) (x : exchange) (u : update)
  (b : bot) : bot :=
  snd (fst (handle_update json_loads x u b)).

(** The handler [m] keeps the property [P] of the bot, whether it returns
    or raises. *)
Definition keeps {A} (P : bot -> Prop) (m : H A) : Prop :=
  forall b, P b -> P (snd (fst (m b))).

(** The edges a text message can follow in the conversation. *)
Definition may_follow (s s' : UserState) : bool :=
  match s, s' with
  | IDLE, IDLE => true
  | WAITING_FOR_TWITTER_URL, (WAITING_FOR_TWITTER_URL | WAITING_FOR_WALLET_ADDRESS) => true
  | WAITING_FOR_WALLET_ADDRESS,
    (WAITING_FOR_WALLET_ADDRESS | WAITING_FOR_TOKEN_PREFERENCE) => true
  | WAITING_FOR_TOKEN_PREFERENCE, (WAITING_FOR_TOKEN_PREFERENCE | IDLE) => true
  | _, _ => false
  end.

(** What an update of another user keeps: the session of [other]. *)
Definition untouched (other : Z)
  (held : option UserState * option (gmap string value)) (b : bot) : Prop :=
  session other b = held.

(** The state of [uid] is one a text message can reach from [from]. *)
Definition follows (uid : Z) (from : UserState) (b : bot) : Prop :=
  may_follow from (current_state uid b) = true.

End ChatbotSessionSpec.

(** ** Sessions of [chatbot.py] *)

(** * Theorems *)

(** ** Strings *)

Lemma append_cons c s t : (String c s ++ t)%string = String c (s ++ t).
Proof. reflexivity. Qed.

Lemma append_empty_r s : (s ++ EmptyString)%string = s.
Proof. induction s as [|c s IH]; [reflexivity|]. rewrite append_cons, IH. reflexivity. Qed.

Lemma append_assoc s t u : ((s ++ t) ++ u)%string = (s ++ (t ++ u))%string.
Proof.
  induction s as [|c s IH]; [reflexivity|]. rewrite !append_cons, IH. reflexivity.
Qed.

Lemma length_append s t :
  String.length (s ++ t) = (String.length s + String.length t)%nat.
Proof.
  induction s as [|c s IH]; [reflexivity|]. rewrite append_cons. simpl. rewrite IH.
  reflexivity.
Qed.

(** ** The token-preference parser of [chatbot.py] *)
Module PreferenceFacts.
Import Chatbot PreferenceSpec.

Lemma alloc_total_add token n d :
  alloc_total (alloc_add token n d) = alloc_total d + n.
Proof.
  induction d as [|[k v] d IH]; simpl; [lia|].
  destruct (String.eqb token k); simpl; lia.
Qed.

Lemma alloc_get_add token token' n d :
  alloc_get token (alloc_add token' n d) =
  if String.eqb token token'
  then Some (default 0 (alloc_get token d) + n)
  else alloc_get token d.
Proof.
  induction d as [|[k v] d IH]; simpl.
  - destruct (String.eqb token token'); reflexivity.
  - destruct (String.eqb token' k) eqn:Hk; simpl.
    + apply String.eqb_eq in Hk. subst k.
      destruct (String.eqb token token'); reflexivity.
    + destruct (String.eqb token k) eqn:Htk.
      * apply String.eqb_eq in Htk. subst k.
        rewrite String.eqb_sym, Hk. reflexivity.
      * exact IH.
Qed.

Lemma add_match_pair d t m :
  add_match (d, t) m =
  (alloc_add (snd m) (int_of_digits (fst m)) d, t + int_of_digits (fst m)).
Proof. reflexivity. Qed.

Lemma fold_add_match ms : forall d t,
  fold_left add_match ms (d, t) =
  (fst (fold_left add_match ms (d, t)), t + matches_total ms).
Proof.
  induction ms as [|m ms IH]; intros d t; simpl.
  - f_equal. lia.
  - rewrite add_match_pair, IH. simpl. f_equal. lia.
Qed.

Lemma fold_add_match_total ms : forall d t,
  alloc_total (fst (fold_left add_match ms (d, t))) = alloc_total d + matches_total ms.
Proof.
  induction ms as [|m ms IH]; intros d t; simpl; [lia|].
  rewrite add_match_pair, IH, alloc_total_add. lia.
Qed.

Lemma explicit_share_unmentioned token ms :
  mentioned token ms = false -> explicit_share token ms = 0.
Proof.
  induction ms as [|m ms IH]; simpl; [reflexivity|].
  destruct (String.eqb token (snd m)); simpl; [discriminate|exact IH].
Qed.

Lemma fold_add_match_get token ms : forall d t,
  alloc_get token (fst (fold_left add_match ms (d, t))) =
  if mentioned token ms
  then Some (default 0 (alloc_get token d) + explicit_share token ms)
  else alloc_get token d.
Proof.
  induction ms as [|[digits symbol] ms IH]; intros d t; simpl; [reflexivity|].
  rewrite add_match_pair, IH, alloc_get_add. simpl.
  destruct (String.eqb token symbol); simpl.
  - destruct (mentioned token ms) eqn:Hm; f_equal; [lia|].
    rewrite (explicit_share_unmentioned _ _ Hm). lia.
  - reflexivity.
Qed.

(** How [parse_token_preference] decides, case by case. *)
Lemma parse_token_preference_cases preference :
  let p := strip (upper preference) in
  let ms := preference_matches p in
  let T := matches_total ms in
  parse_token_preference preference =
  if bare_symbol p then Ok [(p, 100)]
  else match ms with
       | [] => Raise (ValueError could_not_parse)
       | _ =>
           if T >? 100 then Raise (ValueError (total_exceeds T))
           else if T <? 100
           then Ok (alloc_add "NATIVE" (100 - T) (fst (fold_left add_match ms ([], 0))))
           else Ok (fst (fold_left add_match ms ([], 0)))
       end.
Proof.
  intros p ms T. unfold parse_token_preference, bare_symbol.
  fold p. destruct (existsb (String.eqb p) _); [reflexivity|].
  fold ms. destruct ms as [|m ms'] eqn:Hms; [reflexivity|].
  rewrite fold_add_match. fold T. rewrite Z.add_0_l. reflexivity.
Qed.

Lemma bare_symbol_no_match p : bare_symbol p = true -> preference_matches p = [].
Proof.
  unfold bare_symbol. simpl. intros H.
  repeat (apply orb_true_iff in H; destruct H as [H|H]);
    try discriminate; apply String.eqb_eq in H; subst p; vm_compute; reflexivity.
Qed.

(** *** The text of the validation error names the total *)

Lemma int_of_digits_from_app s1 : forall a s2,
  int_of_digits_from a (s1 ++ s2) = int_of_digits_from (int_of_digits_from a s1) s2.
Proof. induction s1 as [|c s1 IH]; intros a s2; simpl; [reflexivity|apply IH]. Qed.

Lemma digit_value_char d : 0 <= d < 10 -> digit_value (digit_char d) = d.
Proof.
  intros H.
  assert (d = 0 \/ d = 1 \/ d = 2 \/ d = 3 \/ d = 4 \/ d = 5 \/ d = 6 \/ d = 7
          \/ d = 8 \/ d = 9) as Hd by lia.
  repeat (destruct Hd as [Hd|Hd]; [subst d; reflexivity|]). subst d. reflexivity.
Qed.

Lemma decimal_digits_value fuel : forall n acc,
  0 <= n < 2 ^ Z.of_nat fuel ->
  exists ds, decimal_digits fuel n acc = (ds ++ acc)%string
             /\ forall a, int_of_digits_from a ds
                          = a * 10 ^ Z.of_nat (String.length ds) + n.
Proof.
  induction fuel as [|fuel IH]; intros n acc Hn.
  - simpl in Hn. exists EmptyString. split; [reflexivity|]. intros a. simpl. lia.
  - cbn [decimal_digits]. destruct (n <? 10) eqn:Hlt.
    + apply Z.ltb_lt in Hlt.
      exists (String (digit_char (n mod 10)) EmptyString). split; [reflexivity|].
      intros a. simpl. rewrite digit_value_char by (apply Z.mod_pos_bound; lia).
      rewrite Z.mod_small by lia. lia.
    + apply Z.ltb_ge in Hlt.
      destruct (IH (n / 10) (String (digit_char (n mod 10)) acc)) as (ds & Hds & Hval).
      { rewrite Nat2Z.inj_succ, Z.pow_succ_r in Hn by lia.
        split; [apply Z.div_pos; lia|].
        apply Z.div_lt_upper_bound; lia. }
      exists (ds ++ String (digit_char (n mod 10)) EmptyString)%string. split.
      * rewrite Hds, append_assoc. reflexivity.
      * intros a. rewrite int_of_digits_from_app, Hval. simpl.
        rewrite digit_value_char by (apply Z.mod_pos_bound; lia).
        rewrite length_append. simpl String.length. rewrite Nat2Z.inj_add.
        change (Z.of_nat 1) with 1.
        rewrite Z.pow_add_r by lia. pose proof (Z.div_mod n 10). lia.
Qed.

(** [str_of_int n] is a decimal numeral of [n]: reading it back gives [n]. *)
Lemma str_of_int_numeral n : 0 <= n -> int_of_digits (str_of_int n) = n.
Proof.
  intros Hn. unfold str_of_int, int_of_digits.
  destruct (n <? 0) eqn:Hneg; [apply Z.ltb_lt in Hneg; lia|].
  destruct (decimal_digits_value (S (Z.to_nat (Z.log2 (Z.abs n)))) n EmptyString)
    as (ds & Hds & Hval).
  { split; [lia|]. rewrite Z.abs_eq by lia.
    rewrite Nat2Z.inj_succ, Z2Nat.id by apply Z.log2_nonneg.
    destruct (Z.eq_dec n 0) as [->|Hnz]; [reflexivity|].
    apply Z.log2_spec. lia. }
  rewrite Hds, int_of_digits_from_app, Hval. simpl. lia.
Qed.

(** C3.  Whenever [parse_token_preference] returns an allocation (for a bare
    symbol or for matched percentages), the percentages of the allocation
    sum to exactly 100. *)
Theorem allocation_sums_to_100 preference allocation :
  parse_token_preference preference = Ok allocation ->
  alloc_total allocation = 100.
Proof.
  rewrite parse_token_preference_cases.
  destruct (bare_symbol _).
  - intros [= <-]. reflexivity.
  - destruct (preference_matches _) as [|m ms] eqn:Hms; [discriminate|].
    set (all := m :: ms). set (T := matches_total all).
    pose proof (fold_add_match_total all [] 0) as Htot. fold T in Htot.
    destruct (T >? 100) eqn:Hgt; [discriminate|].
    destruct (T <? 100) eqn:Hlt; intros [= <-];
      change (fold_left add_match ms (add_match ([], 0) m))
        with (fold_left add_match all ([], 0)).
    + rewrite alloc_total_add, Htot. simpl. lia.
    + rewrite Htot. apply Z.ltb_ge in Hlt.
      rewrite Z.gtb_ltb in Hgt. apply Z.ltb_ge in Hgt. simpl. lia.
Qed.

Lemma allocation_sums_to_100_witness :
  alloc_total [("USDC", 40); ("NATIVE", 60)] = 100.
Proof.
  apply (allocation_sums_to_100 "40% usdc"). vm_compute. reflexivity.
Defined.




End PreferenceFacts.

(** ** Lines of a response body *)
Module LineFacts.
Import LineSpec.

Lemma effective_lines_app l1 l2 :
  effective_lines (l1 ++ l2) = (effective_lines l1 ++ effective_lines l2)%list.
Proof. unfold effective_lines. rewrite map_app. apply List.filter_app. Qed.

Lemma effective_lines_cons x l :
  effective_lines (x :: l) =
  if is_empty (strip x) then effective_lines l else strip x :: effective_lines l.
Proof. unfold effective_lines. simpl. destruct (is_empty (strip x)); reflexivity. Qed.

Lemma split_on_cons sep c s :
  split_on sep (String c s) =
  if Ascii.eqb c sep then EmptyString :: split_on sep s
  else String c (hd EmptyString (split_on sep s)) :: tl (split_on sep s).
Proof.
  simpl. destruct (Ascii.eqb c sep); [reflexivity|].
  destruct (split_on sep s); reflexivity.
Qed.

Lemma split_on_hd_tl sep s :
  split_on sep s = hd EmptyString (split_on sep s) :: tl (split_on sep s).
Proof.
  destruct s as [|c s]; [reflexivity|]. rewrite split_on_cons.
  destruct (Ascii.eqb c sep); reflexivity.
Qed.

Lemma newline_is_space : is_space newline = true.
Proof. reflexivity. Qed.

Lemma eqb_newline_space c : Ascii.eqb c newline = true -> is_space c = true.
Proof. intros H. apply Ascii.eqb_eq in H. subst c. reflexivity. Qed.

(** Stripping on the left and on the right commute. *)
Lemma strip_by_comm p s :
  rstrip_by p (lstrip_by p s) = lstrip_by p (rstrip_by p s).
Proof.
  induction s as [|c s IH]; [reflexivity|]. simpl.
  destruct (p c) eqn:Hc.
  - rewrite IH. destruct (rstrip_by p s) eqn:Hr; simpl; rewrite ?Hc; reflexivity.
  - destruct (rstrip_by p s) eqn:Hr; simpl; rewrite ?Hc, ?Hr; reflexivity.
Qed.

Lemma strip_cons_space c s : is_space c = true -> strip (String c s) = strip s.
Proof. intros H. unfold strip, strip_by. simpl. rewrite H. reflexivity. Qed.

Lemma strip_as_lstrip s : strip s = lstrip_by is_space (rstrip_by is_space s).
Proof. apply strip_by_comm. Qed.

Lemma rstrip_cons p c s :
  rstrip_by p (String c s) =
  match rstrip_by p s with
  | EmptyString => if p c then EmptyString else String c EmptyString
  | r => String c r
  end.
Proof. reflexivity. Qed.

(** Leading whitespace of the body changes no effective line. *)
Lemma effective_lines_lstrip s :
  effective_lines (split_lines (lstrip_by is_space s)) = effective_lines (split_lines s).
Proof.
  induction s as [|c s IH]; [reflexivity|].
  cbn [lstrip_by]. destruct (is_space c) eqn:Hc; [|reflexivity].
  rewrite IH. unfold split_lines. rewrite split_on_cons.
  destruct (Ascii.eqb c newline).
  - rewrite effective_lines_cons. reflexivity.
  - rewrite (split_on_hd_tl newline s) at 1.
    rewrite !effective_lines_cons, strip_cons_space by exact Hc. reflexivity.
Qed.

(** Trailing whitespace: the first line keeps its right-stripped form, the
    other lines their effective ones. *)
Lemma split_rstrip s :
  rstrip_by is_space (hd EmptyString (split_lines (rstrip_by is_space s)))
  = rstrip_by is_space (hd EmptyString (split_lines s))
  /\ effective_lines (tl (split_lines (rstrip_by is_space s)))
     = effective_lines (tl (split_lines s)).
Proof.
  unfold split_lines.
  induction s as [|c s [IHf IHr]]; [split; reflexivity|].
  rewrite rstrip_cons, (split_on_cons newline c s).
  destruct (rstrip_by is_space s) as [|c' r] eqn:Hr.
  - (* the rest of the body is whitespace *)
    cbn [split_on hd tl] in IHf, IHr.
    assert (strip (hd EmptyString (split_on newline s)) = EmptyString) as Hblank.
    { rewrite strip_as_lstrip, <- IHf. reflexivity. }
    destruct (is_space c) eqn:Hc.
    + destruct (Ascii.eqb c newline) eqn:Hnl; cbn [split_on hd tl].
      * split; [reflexivity|].
        rewrite (split_on_hd_tl newline s), effective_lines_cons, Hblank, <- IHr.
        reflexivity.
      * split; [|exact IHr]. rewrite rstrip_cons, <- IHf, Hc. reflexivity.
    + assert (Ascii.eqb c newline = false) as Hnl.
      { destruct (Ascii.eqb c newline) eqn:E; [|reflexivity].
        apply eqb_newline_space in E. congruence. }
      rewrite Hnl. rewrite (split_on_cons newline c EmptyString), Hnl.
      cbn [split_on hd tl]. split; [|exact IHr].
      rewrite !rstrip_cons, <- IHf, Hc. reflexivity.
  - rewrite (split_on_cons newline c (String c' r)).
    destruct (Ascii.eqb c newline) eqn:Hnl; cbn [hd tl].
    + split; [reflexivity|].
      rewrite (split_on_hd_tl newline (String c' r)), (split_on_hd_tl newline s).
      rewrite !effective_lines_cons, !strip_as_lstrip, IHf, IHr. reflexivity.
    + split; [|exact IHr]. rewrite !rstrip_cons, IHf. reflexivity.
Qed.

Lemma effective_lines_rstrip s :
  effective_lines (split_lines (rstrip_by is_space s)) = effective_lines (split_lines s).
Proof.
  destruct (split_rstrip s) as [Hf Hr]. unfold split_lines in *.
  rewrite (split_on_hd_tl newline (rstrip_by is_space s)), (split_on_hd_tl newline s).
  rewrite !effective_lines_cons, !strip_as_lstrip, Hf, Hr. reflexivity.
Qed.

(** [response_text.strip().split('\n')] and [response_text.split('\n')] have
    the same effective lines. *)
Lemma effective_lines_strip s :
  effective_lines (split_lines (strip s)) = effective_lines (split_lines s).
Proof.
  unfold strip, strip_by. rewrite effective_lines_rstrip. apply effective_lines_lstrip.
Qed.

Lemma lstrip_by_idem p s : lstrip_by p (lstrip_by p s) = lstrip_by p s.
Proof.
  induction s as [|c s IH]; [reflexivity|]. simpl.
  destruct (p c) eqn:Hc; [exact IH|]. simpl. rewrite Hc. reflexivity.
Qed.

Lemma rstrip_by_idem p s : rstrip_by p (rstrip_by p s) = rstrip_by p s.
Proof.
  induction s as [|c s IH]; [reflexivity|]. rewrite rstrip_cons.
  destruct (rstrip_by p s) as [|c' r] eqn:Hr.
  - destruct (p c) eqn:Hc; [reflexivity|]. simpl. rewrite Hc. reflexivity.
  - rewrite rstrip_cons, IH. reflexivity.
Qed.

Lemma strip_idem s : strip (strip s) = strip s.
Proof.
  unfold strip, strip_by.
  rewrite (strip_by_comm is_space (rstrip_by _ _)), rstrip_by_idem.
  rewrite <- strip_by_comm, lstrip_by_idem. reflexivity.
Qed.

Lemma effective_lines_idem lines :
  effective_lines (effective_lines lines) = effective_lines lines.
Proof.
  induction lines as [|x lines IH]; [reflexivity|].
  rewrite effective_lines_cons. destruct (is_empty (strip x)) eqn:Hx; [exact IH|].
  rewrite effective_lines_cons, strip_idem, Hx, IH. reflexivity.
Qed.

(** *** Splitting and joining *)

Lemma split_lines_no_newline s : Forall no_newline (split_lines s).
Proof.
  unfold split_lines. induction s as [|c s IH]; [repeat constructor|].
  rewrite split_on_cons. destruct (Ascii.eqb c newline) eqn:Hc.
  - constructor; [reflexivity|exact IH].
  - rewrite (split_on_hd_tl newline s) in IH. inversion IH as [|? ? Hh Ht]; subst.
    constructor; [|exact Ht]. unfold no_newline in *. simpl. rewrite Hc, Hh.
    reflexivity.
Qed.

Lemma split_lines_line_then x rest :
  no_newline x ->
  split_lines (x ++ String newline rest) = x :: split_lines rest.
Proof.
  unfold split_lines, no_newline. induction x as [|c x IH]; intros Hx.
  - reflexivity.
  - simpl in Hx. apply andb_true_iff in Hx as [Hc Hx].
    rewrite append_cons, split_on_cons. apply negb_true_iff in Hc. rewrite Hc.
    rewrite (IH Hx). reflexivity.
Qed.

Lemma split_lines_single x : no_newline x -> split_lines x = [x].
Proof.
  unfold split_lines, no_newline. induction x as [|c x IH]; intros Hx; [reflexivity|].
  simpl in Hx. apply andb_true_iff in Hx as [Hc Hx].
  rewrite split_on_cons. apply negb_true_iff in Hc. rewrite Hc, (IH Hx). reflexivity.
Qed.

(** Splitting the join of newline-free lines gives the lines back. *)
Lemma split_join_lines ls :
  ls <> [] -> Forall no_newline ls -> split_lines (join_lines ls) = ls.
Proof.
  induction ls as [|x ls IH]; [contradiction|]. intros _ Hall.
  inversion Hall as [|? ? Hx Hls]; subst.
  destruct ls as [|y ls].
  - simpl. apply split_lines_single. exact Hx.
  - unfold join_lines in *.
    change (split_lines
              (x ++ String newline (String.concat (String newline EmptyString) (y :: ls)))
            = x :: y :: ls).
    rewrite split_lines_line_then by exact Hx.
    rewrite IH; [reflexivity|discriminate|exact Hls].
Qed.

(** The effective lines of a body from which its line [i] was removed. *)
Lemma effective_lines_remove body i :
  effective_lines (split_lines (join_lines (delete i (split_lines body))))
  = effective_lines (delete i (split_lines body)).
Proof.
  destruct (delete i (split_lines body)) as [|x ls] eqn:Hd; [reflexivity|].
  rewrite split_join_lines; [reflexivity|discriminate|].
  rewrite <- Hd. apply Forall_delete, split_lines_no_newline.
Qed.

End LineFacts.

(** ** The stream parsers of [final.py] and [swap.py] *)
Module StreamFacts.
Import LineSpec LineFacts StreamSpec.

Section WithDecoder.

Variable json_loads : string -> result value.

Local Abbreviation malformed_payload := (StreamSpec.malformed_payload json_loads).
Local Abbreviation bad_line := (StreamSpec.bad_line json_loads).
Local Abbreviation payload_of := (StreamSpec.payload_of json_loads).
Local Abbreviation call_events := (StreamSpec.call_events json_loads).
Local Abbreviation result_events := (StreamSpec.result_events json_loads).

(** *** Lines that change nothing *)

Lemma swap_scan_line_strip st raw :
  Swap.scan_line json_loads st (strip raw) = Swap.scan_line json_loads st raw.
Proof. unfold Swap.scan_line. rewrite strip_idem. reflexivity. Qed.

Lemma final_scan_line_strip st raw :
  Final.scan_line json_loads st (strip raw) = Final.scan_line json_loads st raw.
Proof. unfold Final.scan_line. rewrite strip_idem. reflexivity. Qed.

Lemma swap_scan_lines_effective lines : forall st,
  Swap.scan_lines json_loads st (effective_lines lines)
  = Swap.scan_lines json_loads st lines.
Proof.
  unfold Swap.scan_lines.
  induction lines as [|x lines IH]; intros st; [reflexivity|].
  rewrite effective_lines_cons. destruct (is_empty (strip x)) eqn:Hx.
  - rewrite IH. simpl. f_equal. unfold Swap.scan_line. rewrite Hx. reflexivity.
  - simpl. rewrite swap_scan_line_strip. apply IH.
Qed.

Lemma final_scan_lines_effective lines : forall st,
  Final.scan_lines json_loads st (effective_lines lines)
  = Final.scan_lines json_loads st lines.
Proof.
  induction lines as [|x lines IH]; intros st; [reflexivity|].
  rewrite effective_lines_cons. destruct (is_empty (strip x)) eqn:Hx.
  - rewrite IH. simpl.
    assert (Final.scan_line json_loads st x = Ok st) as ->
      by (unfold Final.scan_line; rewrite Hx; reflexivity).
    reflexivity.
  - simpl. rewrite final_scan_line_strip.
    destruct (Final.scan_line json_loads st x); simpl; [apply IH|reflexivity].
Qed.

Lemma swap_scan_bad_line st raw :
  bad_line raw -> Swap.scan_line json_loads st raw = st.
Proof.
  unfold StreamSpec.bad_line, unrecognized_prefix, StreamSpec.malformed_payload, Swap.scan_line.
  intros [(H0 & H9 & Ha)|Hbad].
  - rewrite H0, H9, Ha. destruct (is_empty _); reflexivity.
  - rewrite Hbad. repeat (destruct (_ : bool); try reflexivity).
Qed.

Lemma final_scan_bad_line st raw :
  bad_line raw -> Final.scan_line json_loads st raw = Ok st.
Proof.
  unfold StreamSpec.bad_line, unrecognized_prefix, StreamSpec.malformed_payload, Final.scan_line.
  intros [(H0 & H9 & Ha)|Hbad].
  - rewrite H0, H9, Ha. destruct (is_empty _); reflexivity.
  - rewrite Hbad. repeat (destruct (_ : bool); try reflexivity).
Qed.

Lemma swap_scan_lines_app l1 l2 st :
  Swap.scan_lines json_loads st (l1 ++ l2)
  = Swap.scan_lines json_loads (Swap.scan_lines json_loads st l1) l2.
Proof. apply fold_left_app. Qed.

Lemma final_scan_lines_app l1 : forall l2 st,
  Final.scan_lines json_loads st (l1 ++ l2)
  = st' ← Final.scan_lines json_loads st l1; Final.scan_lines json_loads st' l2.
Proof.
  induction l1 as [|x l1 IH]; intros l2 st; [reflexivity|].
  simpl. destruct (Final.scan_line json_loads st x); simpl; [apply IH|reflexivity].
Qed.

(** Where [final.py]'s loop goes through, [swap.py]'s loop does the same. *)
Lemma final_scan_line_swap st raw st' :
  Final.scan_line json_loads st raw = Ok st' ->
  Swap.scan_line json_loads st raw = st'.
Proof.
  unfold Final.scan_line, Swap.scan_line.
  destruct (is_empty (strip raw)); [congruence|].
  destruct (startswith "0:" (strip raw)).
  { destruct (json_loads _) as [[]|[]]; simpl; congruence. }
  destruct (startswith "9:" (strip raw)).
  { destruct (json_loads _) as [|[]]; simpl; congruence. }
  destruct (startswith "a:" (strip raw)); [|congruence].
  destruct (json_loads _) as [v|[]]; simpl; try congruence.
  destruct (py_get "toolCallId" v) as [k|[]]; simpl; try congruence.
  destruct (truthy k); [|congruence].
  destruct (kdict_setitem k v (tool_results st)) as [r|[]]; simpl; congruence.
Qed.

Lemma final_scan_lines_swap lines : forall st st',
  Final.scan_lines json_loads st lines = Ok st' ->
  Swap.scan_lines json_loads st lines = st'.
Proof.
  unfold Swap.scan_lines.
  induction lines as [|x lines IH]; intros st st'; simpl; [congruence|].
  destruct (Final.scan_line json_loads st x) as [st1|] eqn:Hx; simpl; [|discriminate].
  apply final_scan_line_swap in Hx. rewrite Hx. apply IH.
Qed.

(** *** What the loop accumulates *)

Lemma startswith_first a p c l : startswith (String a p) (String c l) = true -> a = c.
Proof.
  unfold startswith. simpl. destruct (ascii_dec a c); [auto|discriminate].
Qed.

Lemma startswith_other_first a b p q l :
  a <> b -> startswith (String a p) l = true -> startswith (String b q) l = false.
Proof.
  intros Hab H. destruct l as [|c l]; [discriminate|].
  apply startswith_first in H. subst c. unfold startswith. simpl.
  destruct (ascii_dec b a); [congruence|reflexivity].
Qed.

Lemma prefix_9_not_0 l : startswith "9:" l = true -> startswith "0:" l = false.
Proof. apply startswith_other_first. discriminate. Qed.

Lemma prefix_a_not_0 l : startswith "a:" l = true -> startswith "0:" l = false.
Proof. apply startswith_other_first. discriminate. Qed.

Lemma prefix_a_not_9 l : startswith "a:" l = true -> startswith "9:" l = false.
Proof. apply startswith_other_first. discriminate. Qed.

Lemma prefix_of_blank p l :
  is_empty l = true -> p <> EmptyString -> startswith p l = false.
Proof.
  destruct l; [|discriminate]. intros _ Hp. destruct p; [contradiction|reflexivity].
Qed.

Lemma swap_scan_line_calls st raw :
  tool_calls (Swap.scan_line json_loads st raw)
  = (tool_calls st ++ match payload_of "9:" raw with Some v => [v] | None => [] end)%list.
Proof.
  unfold Swap.scan_line, StreamSpec.payload_of.
  destruct (is_empty (strip raw)) eqn:Hb.
  { rewrite (prefix_of_blank "9:" _ Hb) by discriminate. symmetry. apply app_nil_r. }
  destruct (startswith "9:" (strip raw)) eqn:H9.
  - rewrite (prefix_9_not_0 _ H9).
    destruct (json_loads _); [reflexivity|symmetry; apply app_nil_r].
  - rewrite app_nil_r.
    destruct (startswith "0:" (strip raw)).
    { destruct (json_loads _) as [[]|]; reflexivity. }
    destruct (startswith "a:" (strip raw)); [|reflexivity].
    destruct (json_loads _) as [v|]; [|reflexivity].
    destruct (py_get "toolCallId" v) as [k|]; [|reflexivity].
    destruct (truthy k); [|reflexivity].
    destruct (kdict_setitem k v (tool_results st)); reflexivity.
Qed.

Lemma swap_scan_lines_calls lines : forall st,
  tool_calls (Swap.scan_lines json_loads st lines)
  = (tool_calls st ++ omap (payload_of "9:") lines)%list.
Proof.
  unfold Swap.scan_lines.
  induction lines as [|x lines IH]; intros st; simpl; [symmetry; apply app_nil_r|].
  rewrite IH, swap_scan_line_calls, <- app_assoc. f_equal.
  destruct (payload_of "9:" x); reflexivity.
Qed.

Lemma py_eq_str_l s k : py_eq (VStr s) k = true <-> k = VStr s.
Proof.
  destruct k; simpl; try (split; [discriminate|congruence]).
  rewrite String.eqb_eq. split; congruence.
Qed.

Lemma py_eq_str_r s k : py_eq k (VStr s) = true <-> k = VStr s.
Proof.
  destruct k as [|b|n|f|t|l|d]; simpl; try (split; [discriminate|congruence]).
  rewrite String.eqb_eq. split; congruence.
Qed.

Lemma py_eq_none_l k : py_eq VNone k = true <-> k = VNone.
Proof. destruct k; simpl; split; (discriminate || congruence || reflexivity). Qed.

Lemma kdict_find_put_str s k v d :
  kdict_find (VStr s) (kdict_put k v d)
  = if py_eq k (VStr s) then Some v else kdict_find (VStr s) d.
Proof.
  assert (py_eq (VStr s) k = py_eq k (VStr s)) as Hsym.
  { destruct (py_eq k (VStr s)) eqn:E.
    - apply py_eq_str_r in E. subst k. apply py_eq_str_l. reflexivity.
    - destruct (py_eq (VStr s) k) eqn:E'; [|reflexivity].
      apply py_eq_str_l in E'. subst k.
      rewrite (proj2 (py_eq_str_r s (VStr s)) eq_refl) in E. discriminate. }
  induction d as [|[k' v'] d IH]; cbn [kdict_find kdict_put].
  - rewrite Hsym. reflexivity.
  - destruct (py_eq k k') eqn:Ekk; cbn [kdict_find].
    + destruct (py_eq (VStr s) k') eqn:Esk.
      * apply py_eq_str_l in Esk. subst k'. rewrite Ekk. reflexivity.
      * destruct (py_eq k (VStr s)) eqn:Eks; [|reflexivity].
        apply py_eq_str_r in Eks. subst k. congruence.
    + destruct (py_eq (VStr s) k') eqn:Esk; [|exact IH].
      apply py_eq_str_l in Esk. subst k'. rewrite Ekk. reflexivity.
Qed.

Lemma carries_id_spec s r :
  carries_id s r = true <-> py_get "toolCallId" r = Ok (VStr s).
Proof.
  unfold carries_id. destruct (py_get "toolCallId" r) as [[]|];
    try (split; [discriminate|congruence]).
  rewrite String.eqb_eq. split; congruence.
Qed.

Lemma swap_scan_line_results st raw s :
  s <> EmptyString ->
  kdict_find (VStr s) (tool_results (Swap.scan_line json_loads st raw))
  = match payload_of "a:" raw with
    | Some r => if carries_id s r then Some r else kdict_find (VStr s) (tool_results st)
    | None => kdict_find (VStr s) (tool_results st)
    end.
Proof.
  intros Hs. unfold Swap.scan_line, StreamSpec.payload_of.
  destruct (is_empty (strip raw)) eqn:Hb.
  { rewrite (prefix_of_blank "a:" _ Hb) by discriminate. reflexivity. }
  destruct (startswith "a:" (strip raw)) eqn:Ha.
  - rewrite (prefix_a_not_0 _ Ha), (prefix_a_not_9 _ Ha).
    destruct (json_loads _) as [v|]; [|reflexivity].
    unfold carries_id.
    destruct (py_get "toolCallId" v) as [k|]; [|reflexivity].
    destruct (truthy k) eqn:Hk.
    + unfold kdict_setitem. destruct (hashable k) eqn:Hh.
      * simpl. rewrite kdict_find_put_str.
        destruct (py_eq k (VStr s)) eqn:E.
        -- apply py_eq_str_r in E. subst k. rewrite String.eqb_refl. reflexivity.
        -- destruct k; try reflexivity.
           destruct (String.eqb s s0) eqn:E'; [|reflexivity].
           apply String.eqb_eq in E'. subst s0. simpl in E.
           rewrite String.eqb_refl in E. discriminate.
      * destruct k; try discriminate; reflexivity.
    + destruct k; try reflexivity.
      destruct (String.eqb s s0) eqn:E'; [|reflexivity].
      apply String.eqb_eq in E'. subst s0. destruct s; [contradiction|discriminate].
  - destruct (startswith "0:" (strip raw)).
    { destruct (json_loads _) as [[]|]; reflexivity. }
    destruct (startswith "9:" (strip raw)); [|reflexivity].
    destruct (json_loads _); reflexivity.
Qed.

Lemma last_result_for_cons s r rs :
  last_result_for s (r :: rs)
  = match last_result_for s rs with
    | Some x => Some x
    | None => if carries_id s r then Some r else None
    end.
Proof.
  unfold last_result_for. simpl. destruct (carries_id s r); [|destruct (last _); reflexivity].
  destruct (List.filter (carries_id s) rs) as [|y ys] eqn:E; [reflexivity|].
  rewrite last_cons. destruct (last (y :: ys)) eqn:E'; [reflexivity|].
  apply last_None in E'. discriminate.
Qed.

Lemma swap_scan_lines_results s lines : forall st,
  s <> EmptyString ->
  kdict_find (VStr s) (tool_results (Swap.scan_lines json_loads st lines))
  = match last_result_for s (omap (payload_of "a:") lines) with
    | Some r => Some r
    | None => kdict_find (VStr s) (tool_results st)
    end.
Proof.
  unfold Swap.scan_lines.
  induction lines as [|x lines IH]; intros st Hs; [reflexivity|].
  simpl. rewrite IH by exact Hs. rewrite swap_scan_line_results by exact Hs.
  destruct (payload_of "a:" x) as [r|]; [|reflexivity].
  rewrite last_result_for_cons.
  destruct (last_result_for s _); [reflexivity|].
  destruct (carries_id s r); reflexivity.
Qed.

Lemma kdict_put_keys_truthy k v d :
  truthy k = true -> keys_truthy d -> keys_truthy (kdict_put k v d).
Proof.
  intros Hk. unfold keys_truthy. induction d as [|[k' v'] d IH]; intros Hd; simpl.
  - repeat constructor. exact Hk.
  - inversion Hd as [|? ? Hk' Hd']; subst.
    destruct (py_eq k k'); constructor; auto.
Qed.

Lemma swap_scan_line_keys st raw :
  keys_truthy (tool_results st) ->
  keys_truthy (tool_results (Swap.scan_line json_loads st raw)).
Proof.
  intros Hst. unfold Swap.scan_line.
  destruct (is_empty _); [exact Hst|].
  destruct (startswith "0:" _). { destruct (json_loads _) as [[]|]; exact Hst. }
  destruct (startswith "9:" _). { destruct (json_loads _); exact Hst. }
  destruct (startswith "a:" _); [|exact Hst].
  destruct (json_loads _) as [v|]; [|exact Hst].
  destruct (py_get "toolCallId" v) as [k|]; [|exact Hst].
  destruct (truthy k) eqn:Hk; [|exact Hst].
  unfold kdict_setitem. destruct (hashable k); [|exact Hst].
  simpl. apply kdict_put_keys_truthy; assumption.
Qed.

Lemma swap_scan_lines_keys lines : forall st,
  keys_truthy (tool_results st) ->
  keys_truthy (tool_results (Swap.scan_lines json_loads st lines)).
Proof.
  unfold Swap.scan_lines.
  induction lines as [|x lines IH]; intros st Hst; [exact Hst|].
  simpl. apply IH, swap_scan_line_keys, Hst.
Qed.

Lemma kdict_find_falsy k d :
  keys_truthy d -> k = VNone \/ k = VStr EmptyString -> kdict_find k d = None.
Proof.
  intros Hd Hk. induction Hd as [|[k' v'] d Hk' Hd IH]; [reflexivity|].
  simpl in *. destruct (py_eq k k') eqn:E; [|exact IH].
  destruct Hk as [->| ->].
  - apply py_eq_none_l in E. subst k'. discriminate.
  - apply py_eq_str_l in E. subst k'. discriminate.
Qed.

(** *** The merge *)

Lemma last_result_for_record s rs r :
  last_result_for s rs = Some r ->
  exists d, r = VDict d /\ dict_get "toolCallId" d = Some (VStr s).
Proof.
  unfold last_result_for. intros H.
  apply last_Some_elem_of, list_elem_of_In, List.filter_In in H as [_ H].
  apply carries_id_spec in H. destruct r; try discriminate.
  exists d. split; [reflexivity|]. simpl in H.
  destruct (dict_get "toolCallId" d); congruence.
Qed.

Lemma combine_tool_entry (table : kdict) (results : list value) call entry :
  keys_truthy table ->
  (forall s, s <> EmptyString ->
             kdict_find (VStr s) table = last_result_for s results) ->
  combine_tool table call = Ok entry ->
  merged_entry results call entry.
Proof.
  intros Hkeys Htable. unfold combine_tool, merged_entry.
  destruct call as [| | | | | |fields]; try discriminate.
  intros H. exists fields. split; [reflexivity|]. simpl in H.
  destruct (default VNone (dict_get "toolCallId" fields)) as [|b|n|f|s|l|d] eqn:Hid;
    rewrite ?Hid in H; try exact I.
  - assert (dict_get "toolCallId" fields = None \/
            dict_get "toolCallId" fields = Some VNone) as Hget.
    { destruct (dict_get "toolCallId" fields) as [[]|]; simpl in Hid;
        try discriminate; auto. }
    replace (match dict_get "toolCallId" fields with Some x => x | None => VNone end)
      with VNone in H by (destruct Hget as [-> | ->]; reflexivity).
    unfold kdict_mem in H. simpl in H.
    rewrite (kdict_find_falsy VNone table Hkeys) in H by auto.
    simpl in H. congruence.
  - assert (dict_get "toolCallId" fields = Some (VStr s)) as Hget.
    { destruct (dict_get "toolCallId" fields) as [[]|]; simpl in Hid;
        try discriminate; congruence. }
    rewrite Hget in H. unfold kdict_mem, kdict_getitem in H. simpl in H.
    destruct (is_empty s) eqn:Hs.
    + destruct s; [|discriminate].
      rewrite (kdict_find_falsy (VStr EmptyString) table Hkeys) in H by auto.
      simpl in H. congruence.
    + assert (s <> EmptyString) as Hne by (destruct s; [discriminate|congruence]).
      rewrite (Htable s Hne) in H.
      destruct (last_result_for s results) as [r|] eqn:Hlast; simpl in H.
      * destruct (last_result_for_record _ _ _ Hlast) as (d & -> & _).
        exists d. split; [reflexivity|]. simpl in H.
        destruct (dict_get "result" d); simpl in *; congruence.
      * congruence.
Qed.

Lemma combine_tools_entries (table : kdict) (results : list value) calls : forall entries,
  keys_truthy table ->
  (forall s, s <> EmptyString ->
             kdict_find (VStr s) table = last_result_for s results) ->
  combine_tools table calls = Ok entries ->
  Forall2 (merged_entry results) calls entries.
Proof.
  induction calls as [|c calls IH]; intros entries Hkeys Htable; simpl.
  - intros [= <-]. constructor.
  - destruct (combine_tool table c) as [t|] eqn:Hc; simpl; [|discriminate].
    destruct (combine_tools table calls) as [ts|] eqn:Hcs; simpl; [|discriminate].
    intros [= <-]. constructor.
    + eapply combine_tool_entry; eassumption.
    + apply IH; auto.
Qed.

Lemma omap_effective_lines prefix lines :
  prefix <> EmptyString ->
  omap (payload_of prefix) (effective_lines lines) = omap (payload_of prefix) lines.
Proof.
  intros Hp. induction lines as [|x lines IH]; [reflexivity|].
  rewrite effective_lines_cons. cbn [omap list_omap].
  destruct (is_empty (strip x)) eqn:Hx.
  - rewrite IH. unfold StreamSpec.payload_of at 2.
    rewrite (prefix_of_blank prefix _ Hx Hp). reflexivity.
  - cbn [omap list_omap].
    replace (payload_of prefix (strip x)) with (payload_of prefix x)
      by (unfold StreamSpec.payload_of; rewrite strip_idem; reflexivity).
    rewrite IH. reflexivity.
Qed.

Lemma swap_scan_body st body :
  Swap.scan_lines json_loads st (split_lines (strip body))
  = Swap.scan_lines json_loads st (split_lines body).
Proof.
  rewrite <- swap_scan_lines_effective, effective_lines_strip.
  apply swap_scan_lines_effective.
Qed.

Lemma final_scan_body st body :
  Final.scan_lines json_loads st (split_lines (strip body))
  = Final.scan_lines json_loads st (split_lines body).
Proof.
  rewrite <- final_scan_lines_effective, effective_lines_strip.
  apply final_scan_lines_effective.
Qed.

(** On a body [final.py] parses, [swap.py] returns the same dictionary. *)
Lemma final_parsed_swap uuid body p :
  Final.parse_streaming_response json_loads uuid body = Final.Parsed p ->
  Swap.parse_streaming_response json_loads uuid body = Ok p.
Proof.
  unfold Final.parse_streaming_response, Swap.parse_streaming_response.
  destruct (Final.scan_lines json_loads stream_init _) as [st|] eqn:Hscan;
    simpl; [|discriminate].
  apply final_scan_lines_swap in Hscan. rewrite Hscan.
  destruct (finish_parse uuid st); [congruence|discriminate].
Qed.


Lemma final_scan_without l1 x l2 st :
  bad_line x ->
  Final.scan_lines json_loads st (l1 ++ l2)
  = Final.scan_lines json_loads st (l1 ++ x :: l2).
Proof.
  intros Hbad. rewrite !final_scan_lines_app.
  destruct (Final.scan_lines json_loads st l1) as [st1|]; [|reflexivity].
  simpl. rewrite final_scan_bad_line by exact Hbad. reflexivity.
Qed.

Lemma swap_scan_without l1 x l2 st :
  bad_line x ->
  Swap.scan_lines json_loads st (l1 ++ l2)
  = Swap.scan_lines json_loads st (l1 ++ x :: l2).
Proof.
  intros Hbad. rewrite !swap_scan_lines_app.
  unfold Swap.scan_lines at 3. simpl. rewrite swap_scan_bad_line by exact Hbad.
  reflexivity.
Qed.


Lemma swap_scan_plain lines : forall st,
  Forall (fun raw => unrecognized_prefix (strip raw)) lines ->
  Swap.scan_lines json_loads st lines = st.
Proof.
  unfold Swap.scan_lines.
  induction lines as [|x lines IH]; intros st Hall; [reflexivity|].
  inversion Hall as [|? ? Hx Hrest]; subst. simpl.
  rewrite swap_scan_bad_line by (left; exact Hx). apply IH, Hrest.
Qed.

Lemma final_scan_plain lines : forall st,
  Forall (fun raw => unrecognized_prefix (strip raw)) lines ->
  Final.scan_lines json_loads st lines = Ok st.
Proof.
  induction lines as [|x lines IH]; intros st Hall; [reflexivity|].
  inversion Hall as [|? ? Hx Hrest]; subst. simpl.
  rewrite final_scan_bad_line by (left; exact Hx). simpl. apply IH, Hrest.
Qed.

(** C6, as amended.  When no line of the content a parser reconstructed
    carries one of the three prefixes, parsing that content as a new body
    yields the empty content (and no message and no tool): the second parse
    gives the first content back only when that content is empty. *)
Theorem reparse_of_plain_content uuid uuid' body :
  (forall p, Final.parse_streaming_response json_loads uuid body = Final.Parsed p ->
             plain_text (content p) ->
             Final.parse_streaming_response json_loads uuid' (content p)
             = Final.Parsed empty_parse
             /\ (content empty_parse = content p <-> content p = EmptyString))
  /\ (forall p, Swap.parse_streaming_response json_loads uuid body = Ok p ->
               plain_text (content p) ->
               Swap.parse_streaming_response json_loads uuid' (content p)
               = Ok empty_parse
               /\ (content empty_parse = content p <-> content p = EmptyString)).
Proof.
  split; intros p _ Hplain; (split; [|simpl; split; congruence]).
  - unfold Final.parse_streaming_response.
    rewrite final_scan_body, final_scan_plain by exact Hplain. reflexivity.
  - unfold Swap.parse_streaming_response.
    rewrite swap_scan_body, swap_scan_plain by exact Hplain. reflexivity.
Qed.

End WithDecoder.

(** *** Streams to run the parsers on *)




(** C6 fails as stated: the content of the stream that says [hello] is
    [hello], and parsing [hello] gives the empty content. *)
Lemma reparse_loses_content :
  let body := text_line "hello" in
  exists p p',
    Final.parse_streaming_response Json.loads "u" body = Final.Parsed p
    /\ content p = "hello"
    /\ Final.parse_streaming_response Json.loads "v" (content p) = Final.Parsed p'
    /\ content p' = EmptyString
    /\ content p' <> content p.
Proof.
  do 2 eexists. split; [vm_compute; reflexivity|]. split; [reflexivity|].
  split; [vm_compute; reflexivity|]. split; [reflexivity|]. discriminate.
Qed.

Lemma reparse_of_plain_content_witness :
  Final.parse_streaming_response Json.loads "v" "hello" = Final.Parsed empty_parse
  /\ (content empty_parse = "hello" <-> "hello" = EmptyString).
Proof.
  apply (proj1 (reparse_of_plain_content Json.loads "u" "v" (text_line "hello"))
           {| assistant_message :=
                Some (make_assistant_message "u" "hello" []);
              content := "hello";
              tool_invocations := [] |}).
  - vm_compute. reflexivity.
  - repeat constructor.
Defined.

End StreamFacts.

(** ** The scoring request of [final.py] *)
Module ScoringFacts.
Import ScoringSpec.

Section WithDecoder.

Variable json_loads : string -> result value.

Lemma score_lines_unscored lines : forall score,
  Forall no_score_line lines ->
  Final.score_lines json_loads score lines = Ok score.
Proof.
  induction lines as [|l lines IH]; intros score Hall; [reflexivity|].
  inversion Hall as [|? ? [Ha H0] Hrest]; subst. simpl.
  unfold Final.score_line. rewrite Ha, H0. simpl. apply IH, Hrest.
Qed.


End WithDecoder.


End ScoringFacts.

(** ** Invalid input *)
Module ValidationFacts.
Import ValidationSpec.

Section WithDecoder.

Variable json_loads : string -> result value.

Lemma parse_token_preference_raises preference e :
  Chatbot.parse_token_preference preference = Raise e -> is_value_error e = true.
Proof.
  rewrite PreferenceFacts.parse_token_preference_cases.
  destruct (PreferenceSpec.bare_symbol _); [discriminate|].
  destruct (Chatbot.preference_matches _); [intros [= <-]; reflexivity|].
  destruct (_ >? 100); [intros [= <-]; reflexivity|].
  destruct (_ <? 100); discriminate.
Qed.

(** C8.  In each state that validates its input, a message that fails the
    validation leaves the bot as it was (the states and the data of every
    user), sends the correction prompt and nothing else, and the handler
    returns without raising: the URL and the wallet address in both bots,
    the token preference in [chatbot.py]. *)
Theorem invalid_input_reprompts :
  (forall x b uid msg,
     Chatbot.current_state uid b = Chatbot.WAITING_FOR_TWITTER_URL ->
     Chatbot.is_valid_twitter_url msg = false ->
     Chatbot.dispatch_message json_loads x msg uid b
     = (Ok tt, b, [Chatbot.InvalidUrlText]))
  /\ (forall x b uid msg,
        Chatbot.current_state uid b = Chatbot.WAITING_FOR_WALLET_ADDRESS ->
        is_empty (strip msg) = true ->
        Chatbot.dispatch_message json_loads x msg uid b
        = (Ok tt, b, [Chatbot.InvalidWalletText]))
  /\ (forall x b uid msg e,
        Chatbot.current_state uid b = Chatbot.WAITING_FOR_TOKEN_PREFERENCE ->
        Chatbot.parse_token_preference msg = Raise e ->
        Chatbot.dispatch_message json_loads x msg uid b
        = (Ok tt, b, [Chatbot.PreferenceErrorText e]))
  /\ (forall e b uid msg,
        Final.current_state uid b = Final.WAITING_FOR_TWITTER_URL ->
        Final.is_valid_twitter_url msg = false ->
        Final.dispatch_message json_loads e msg uid b
        = (Ok tt, b, [Final.ReplyText Final.InvalidUrlText]))
  /\ (forall e b uid msg,
        Final.current_state uid b = Final.WAITING_FOR_WALLET_ADDRESS ->
        Final.is_valid_wallet_address (strip msg) = false ->
        Final.dispatch_message json_loads e msg uid b
        = (Ok tt, b, [Final.ReplyText Final.InvalidWalletText])).
Proof.
  repeat split.
  - intros x b uid msg Hstate Hbad.
    unfold Chatbot.dispatch_message, mbind, handler_mbind, handler_bind, gets.
    rewrite Hstate. unfold Chatbot.handle_twitter_url. rewrite Hbad. reflexivity.
  - intros x b uid msg Hstate Hbad.
    unfold Chatbot.dispatch_message, mbind, handler_mbind, handler_bind, gets.
    rewrite Hstate. unfold Chatbot.handle_wallet_address. rewrite Hbad. reflexivity.
  - intros x b uid msg e Hstate Hbad.
    unfold Chatbot.dispatch_message, mbind, handler_mbind, handler_bind, gets.
    rewrite Hstate.
    unfold Chatbot.handle_token_preference, try_except, mbind, handler_mbind,
      handler_bind, lift.
    rewrite Hbad, (parse_token_preference_raises _ _ Hbad). reflexivity.
  - intros e b uid msg Hstate Hbad.
    unfold Final.dispatch_message, mbind, handler_mbind, handler_bind, gets.
    rewrite Hstate. unfold Final.handle_twitter_url. rewrite Hbad. reflexivity.
  - intros e b uid msg Hstate Hbad.
    unfold Final.dispatch_message, mbind, handler_mbind, handler_bind, gets.
    rewrite Hstate. unfold Final.handle_wallet_address. rewrite Hbad. reflexivity.
Qed.

(** A message reaches the dispatch with its text, or with its text cleaned
    of the mention, or (in a group, when the bot is not addressed) not at
    all, and then nothing happens. *)
Lemma handle_message_dispatches e m b :
  Final.handle_message json_loads e m b = (Ok tt, b, [])
  \/ exists user_message,
       Final.handle_message json_loads e m b
       = Final.dispatch_message json_loads e user_message (Final.user_id m) b.
Proof.
  unfold Final.handle_message.
  destruct (existsb _ _); [|right; eexists; reflexivity].
  destruct (negb _); [left; reflexivity|right; eexists; reflexivity].
Qed.

End WithDecoder.

Lemma invalid_input_reprompts_witness :
  Chatbot.dispatch_message Json.loads (RequestRaises ClientError) "ftp://x.com" 7
    (waiting_bot Chatbot.WAITING_FOR_TWITTER_URL)
  = (Ok tt, waiting_bot Chatbot.WAITING_FOR_TWITTER_URL, [Chatbot.InvalidUrlText])
  /\ Chatbot.dispatch_message Json.loads (RequestRaises ClientError) "   " 7
       (waiting_bot Chatbot.WAITING_FOR_WALLET_ADDRESS)
     = (Ok tt, waiting_bot Chatbot.WAITING_FOR_WALLET_ADDRESS, [Chatbot.InvalidWalletText])
  /\ Chatbot.dispatch_message Json.loads (RequestRaises ClientError)
       "60% USDC and 50% ETH" 7 (waiting_bot Chatbot.WAITING_FOR_TOKEN_PREFERENCE)
     = (Ok tt, waiting_bot Chatbot.WAITING_FOR_TOKEN_PREFERENCE,
        [Chatbot.PreferenceErrorText
           (ValueError "Total percentage (110%) cannot exceed 100%")])
  /\ Final.dispatch_message Json.loads quiet_env "x.com/a" 7
       (waiting_final_bot Final.WAITING_FOR_TWITTER_URL)
     = (Ok tt, waiting_final_bot Final.WAITING_FOR_TWITTER_URL,
        [Final.ReplyText Final.InvalidUrlText])
  /\ Final.dispatch_message Json.loads quiet_env "0x1234" 7
       (waiting_final_bot Final.WAITING_FOR_WALLET_ADDRESS)
     = (Ok tt, waiting_final_bot Final.WAITING_FOR_WALLET_ADDRESS,
        [Final.ReplyText Final.InvalidWalletText]).
Proof.
  pose proof (invalid_input_reprompts Json.loads) as (Hurl & Hwallet & Hpref & Hfurl & Hfwallet).
  split; [apply Hurl; vm_compute; reflexivity|].
  split; [apply Hwallet; vm_compute; reflexivity|].
  split; [apply Hpref; vm_compute; reflexivity|].
  split; [apply Hfurl; vm_compute; reflexivity|].
  apply Hfwallet; vm_compute; reflexivity.
Defined.

End ValidationFacts.

(** ** The bot of [final.py]: what holds of every bot the updates can
    produce *)
Module FinalFacts.
Import Final FinalSpec.

Section WithDecoder.

Variable json_loads : string -> result value.

Local Abbreviation reachable := (FinalSpec.reachable json_loads).

Lemma UserState_eq_dec (s t : UserState) : {s = t} + {s <> t}.
Proof. decide equality. Defined.

Section Keeps.

Variable P : bot -> Prop.

Lemma keeps_ret {A} (a : A) : keeps P (mret a).
Proof. intros b Hb. exact Hb. Qed.

Lemma keeps_bind {A B} (m : H A) (f : A -> H B) :
  keeps P m -> (forall a, keeps P (f a)) -> keeps P (m ≫= f).
Proof.
  intros Hm Hf b Hb. unfold mbind, handler_mbind, handler_bind.
  specialize (Hm b Hb). destruct (m b) as [[[a|e] b1] out]; simpl in *; [|exact Hm].
  specialize (Hf a b1 Hm). destruct (f a b1) as [[r b2] out']. exact Hf.
Qed.

Lemma keeps_gets {A} (f : bot -> A) : keeps P (gets f).
Proof. intros b Hb. exact Hb. Qed.

Lemma keeps_send o : keeps P (send o).
Proof. intros b Hb. exact Hb. Qed.

Lemma keeps_raise {A} e : keeps P (raise (A := A) e).
Proof. intros b Hb. exact Hb. Qed.

Lemma keeps_lift {A} (r : result A) : keeps P (lift r).
Proof. intros b Hb. exact Hb. Qed.

Lemma keeps_try_except {A} (body : H A) catches handler :
  keeps P body -> (forall e, keeps P (handler e)) ->
  keeps P (try_except body catches handler).
Proof.
  intros Hm Hh b Hb. unfold try_except.
  specialize (Hm b Hb). destruct (body b) as [[[a|e] b1] out]; simpl in *; [exact Hm|].
  destruct (catches e); [|exact Hm].
  specialize (Hh e b1 Hm). destruct (handler e b1) as [[r b2] out']. exact Hh.
Qed.

End Keeps.

(** The steps every property survives, and the case analysis of a handler. *)
Ltac keep_step :=
  lazymatch goal with
  | |- keeps _ (mbind _ _) => apply keeps_bind; [|intros]
  | |- keeps _ (mret _) => apply keeps_ret
  | |- keeps _ (gets _) => apply keeps_gets
  | |- keeps _ (send _) => apply keeps_send
  | |- keeps _ (reply_text _) => apply keeps_send
  | |- keeps _ (edit_message_text _) => apply keeps_send
  | |- keeps _ (raise _) => apply keeps_raise
  | |- keeps _ (lift _) => apply keeps_lift
  | |- keeps _ (try_except _ _ _) => apply keeps_try_except; [|intros]
  | |- keeps _ (if ?c then _ else _) => destruct c eqn:?
  | |- keeps _ (match ?x with _ => _ end) => destruct x eqn:?
  end.

Lemma keeps_get_user_field P uid key : keeps P (get_user_field uid key).
Proof. unfold get_user_field. cbv zeta. repeat (keep_step; cbv zeta). Qed.

(** Keeping the invariant. *)
Abbreviation preserves m := (keeps invariant m).

Lemma preserves_chat_histories f : preserves (modify (with_chat_histories f)).
Proof. intros b Hb. exact Hb. Qed.

Lemma preserves_set_state uid s :
  s <> WAITING_FOR_WALLET_ADDRESS -> preserves (set_state uid s).
Proof.
  intros Hs b [Hdata Hurl]. split; [exact Hdata|].
  intros uid' Hst. simpl in Hst.
  destruct (decide (uid = uid')) as [->|Hne].
  - rewrite lookup_insert_eq in Hst. congruence.
  - rewrite lookup_insert_ne in Hst by exact Hne. apply Hurl, Hst.
Qed.

Lemma preserves_set_user_field uid key v :
  (key = "wallet_address" -> exists w, v = VStr w /\ is_valid_wallet_address w = true) ->
  (key = "session_id" -> truthy v = true) ->
  preserves (set_user_field uid key v).
Proof.
  intros Hwallet Hsession b [Hdata Hurl].
  unfold set_user_field, mbind, handler_mbind, handler_bind, gets.
  destruct (user_data b !! uid) as [fields|] eqn:Hfields; simpl; [|split; assumption].
  split.
  - intros uid' fields' Hl. simpl in Hl.
    destruct (decide (uid = uid')) as [<-|Hne].
    + rewrite lookup_insert_eq in Hl. injection Hl as <-.
      destruct (Hdata _ _ Hfields) as [Hw Hs]. split; intros v' Hv'.
      * destruct (decide (key = "wallet_address")) as [->|Hk].
        -- rewrite lookup_insert_eq in Hv'. injection Hv' as <-. auto.
        -- rewrite lookup_insert_ne in Hv' by exact Hk. auto.
      * destruct (decide (key = "session_id")) as [->|Hk].
        -- rewrite lookup_insert_eq in Hv'. injection Hv' as <-. auto.
        -- rewrite lookup_insert_ne in Hv' by exact Hk. auto.
    + rewrite lookup_insert_ne in Hl by exact Hne. eapply Hdata, Hl.
  - intros uid' Hst. simpl in Hst. destruct (Hurl _ Hst) as (fields' & Hl & Hu).
    simpl. destruct (decide (uid = uid')) as [<-|Hne].
    + rewrite lookup_insert_eq. eexists. split; [reflexivity|].
      assert (fields' = fields) as -> by congruence.
      destruct (decide (key = "twitter_url")) as [->|Hk].
      * rewrite lookup_insert_eq. eauto.
      * rewrite lookup_insert_ne by exact Hk. exact Hu.
    + rewrite lookup_insert_ne by exact Hne. eauto.
Qed.

(** *** What [cleanup_user_data] leaves *)

Lemma set_user_field_run uid key v b fields :
  user_data b !! uid = Some fields ->
  set_user_field uid key v b
  = (Ok tt, with_user_data (insert uid (<[key := v]> fields)) b, []).
Proof.
  intros Hf. unfold set_user_field, mbind, handler_mbind, handler_bind, gets.
  rewrite Hf. reflexivity.
Qed.

Lemma set_user_field_missing uid key v b :
  user_data b !! uid = None ->
  set_user_field uid key v b = (Raise KeyError, b, []).
Proof.
  intros Hf. unfold set_user_field, mbind, handler_mbind, handler_bind, gets.
  rewrite Hf. reflexivity.
Qed.

Lemma cleanup_user_data_run uid b :
  cleanup_user_data uid b = (Ok tt, cleaned uid b, []).
Proof.
  unfold cleanup_user_data, cleaned, kept_fields.
  unfold mbind, handler_mbind, handler_bind, set_state, modify, gets.
  cbn [fst snd user_data with_user_states].
  destruct (user_data b !! uid) as [fields|] eqn:Hfields; [|reflexivity].
  cbv zeta.
  set (w := default VNone (fields !! "wallet_address")).
  set (s := default VNone (fields !! "session_id")).
  destruct (truthy w), (truthy s);
    unfold mret, handler_mret, handler_ret; cbn beta iota zeta;
    repeat (erewrite set_user_field_run
              by (cbn [user_data with_user_data with_user_states];
                  apply lookup_insert_eq);
            cbn beta iota zeta);
    unfold with_user_data, with_user_states;
    cbn [user_states user_data chat_histories signer_configured app];
    rewrite ?insert_insert_eq; reflexivity.
Qed.

Lemma kept_fields_lookup fields key :
  kept_fields fields !! key =
  if decide (key = "session_id")
  then (if truthy (default VNone (fields !! "session_id"))
        then fields !! "session_id" else None)
  else if decide (key = "wallet_address")
  then (if truthy (default VNone (fields !! "wallet_address"))
        then fields !! "wallet_address" else None)
  else None.
Proof.
  unfold kept_fields. cbv zeta.
  destruct (fields !! "session_id") as [s|] eqn:Hs;
    destruct (fields !! "wallet_address") as [w|] eqn:Hw; cbn [default];
    repeat case_decide; subst;
    repeat match goal with
           | |- context [truthy ?v] => destruct (truthy v) eqn:?
           end;
    try discriminate;
    rewrite ?lookup_insert_eq, ?lookup_insert_ne, ?lookup_empty by congruence;
    rewrite ?lookup_insert_eq, ?lookup_insert_ne, ?lookup_empty by congruence;
    reflexivity.
Qed.

Lemma valid_wallet_truthy w :
  is_valid_wallet_address w = true -> truthy (VStr w) = true.
Proof.
  unfold is_valid_wallet_address. intros H.
  apply andb_true_iff in H as [H _]. apply andb_true_iff in H as [H _].
  destruct w; [discriminate|reflexivity].
Qed.

(** Under the invariant the cleanup keeps the two fields as they are. *)
Lemma kept_fields_ok fields key :
  fields_ok fields ->
  kept_fields fields !! key =
  if decide (key = "session_id") then fields !! "session_id"
  else if decide (key = "wallet_address") then fields !! "wallet_address"
  else None.
Proof.
  intros [Hw Hs]. rewrite kept_fields_lookup.
  repeat case_decide; try reflexivity.
  - destruct (fields !! "session_id") as [s|]; [|reflexivity].
    simpl. rewrite (Hs s eq_refl). reflexivity.
  - destruct (fields !! "wallet_address") as [v|]; [|reflexivity].
    destruct (Hw v eq_refl) as (w & -> & Hvalid).
    simpl default. rewrite (valid_wallet_truthy _ Hvalid). reflexivity.
Qed.

Lemma cleaned_invariant uid b : invariant b -> invariant (cleaned uid b).
Proof.
  intros [Hdata Hurl]. split.
  - intros uid' fields' Hl. unfold cleaned in Hl. cbn [user_data] in Hl.
    destruct (user_data b !! uid) as [fields|] eqn:Hfields; [|eapply Hdata, Hl].
    destruct (decide (uid = uid')) as [<-|Hne].
    + rewrite lookup_insert_eq in Hl. injection Hl as <-.
      pose proof (Hdata _ _ Hfields) as Hok. destruct Hok as [Hw Hs].
      split; intros v Hv; rewrite (kept_fields_ok _ _ (conj Hw Hs)) in Hv;
        repeat case_decide; try discriminate; auto.
    + rewrite lookup_insert_ne in Hl by exact Hne. eapply Hdata, Hl.
  - intros uid' Hst. unfold cleaned in *. cbn [user_states user_data] in *.
    destruct (decide (uid = uid')) as [<-|Hne].
    + rewrite lookup_insert_eq in Hst. discriminate.
    + rewrite lookup_insert_ne in Hst by exact Hne.
      destruct (Hurl _ Hst) as (fields' & Hl & Hu).
      exists fields'. split; [|exact Hu].
      destruct (user_data b !! uid); [|exact Hl].
      rewrite lookup_insert_ne by exact Hne. exact Hl.
Qed.

Lemma preserves_cleanup uid : preserves (cleanup_user_data uid).
Proof.
  intros b Hb. rewrite cleanup_user_data_run. apply cleaned_invariant, Hb.
Qed.

Lemma start_run uid b :
  start uid b
  = (Ok tt,
     {| user_states := <[uid := WAITING_FOR_TWITTER_URL]> (user_states b);
        user_data := <[uid := ∅]> (user_data b);
        chat_histories := <[uid := []]> (chat_histories b);
        signer_configured := signer_configured b |},
     [ReplyText WelcomeText]).
Proof. reflexivity. Qed.

Lemma preserves_start uid : preserves (start uid).
Proof.
  intros b [Hdata Hurl]. rewrite start_run. cbn [fst snd]. split.
  - intros uid' fields' Hl. cbn [user_data] in Hl.
    destruct (decide (uid = uid')) as [<-|Hne].
    + rewrite lookup_insert_eq in Hl. injection Hl as <-.
      split; intros v Hv; rewrite lookup_empty in Hv; discriminate.
    + rewrite lookup_insert_ne in Hl by exact Hne. eapply Hdata, Hl.
  - intros uid' Hst. cbn [user_states user_data] in *.
    destruct (decide (uid = uid')) as [<-|Hne].
    + rewrite lookup_insert_eq in Hst. discriminate.
    + rewrite lookup_insert_ne in Hst by exact Hne.
      rewrite lookup_insert_ne by exact Hne. apply Hurl, Hst.
Qed.

Lemma handle_twitter_url_run url uid b fields :
  is_valid_twitter_url url = true ->
  user_data b !! uid = Some fields ->
  handle_twitter_url url uid b
  = (Ok tt,
     {| user_states := <[uid := WAITING_FOR_WALLET_ADDRESS]> (user_states b);
        user_data := <[uid := <["twitter_url" := VStr url]> fields]> (user_data b);
        chat_histories := chat_histories b;
        signer_configured := signer_configured b |},
     [ReplyText UrlReceivedText]).
Proof.
  intros Hvalid Hfields. unfold handle_twitter_url. rewrite Hvalid. cbn [negb].
  unfold mbind, handler_mbind, handler_bind.
  rewrite (set_user_field_run _ _ _ _ _ Hfields). reflexivity.
Qed.

Lemma preserves_handle_twitter_url url uid : preserves (handle_twitter_url url uid).
Proof.
  intros b Hb.
  destruct (is_valid_twitter_url url) eqn:Hvalid;
    [|unfold handle_twitter_url; rewrite Hvalid; exact Hb].
  destruct (user_data b !! uid) as [fields|] eqn:Hfields.
  - rewrite (handle_twitter_url_run _ _ _ _ Hvalid Hfields). cbn [fst snd].
    pose proof (preserves_set_user_field uid "twitter_url" (VStr url)
                  ltac:(discriminate) ltac:(discriminate) b Hb) as Hb'.
    rewrite (set_user_field_run _ _ _ _ _ Hfields) in Hb'.
    destruct Hb' as [Hdata Hurl]. split; [exact Hdata|].
    intros uid' Hst. cbn [user_states user_data] in *.
    destruct (decide (uid = uid')) as [<-|Hne].
    + rewrite lookup_insert_eq. eexists. split; [reflexivity|].
      rewrite lookup_insert_eq. eauto.
    + rewrite lookup_insert_ne in Hst by exact Hne.
      destruct (Hurl _ Hst) as (fields' & Hl & Hu). eauto.
  - unfold handle_twitter_url. rewrite Hvalid. cbn [negb].
    unfold mbind, handler_mbind, handler_bind.
    rewrite (set_user_field_missing _ _ _ _ Hfields). exact Hb.
Qed.

(** *** Every handler keeps the invariant *)

Ltac preserve_step :=
  lazymatch goal with
  | |- keeps _ (modify (with_chat_histories _)) => apply preserves_chat_histories
  | |- keeps _ (set_state _ _) => apply preserves_set_state; discriminate
  | |- keeps _ (cleanup_user_data _) => apply preserves_cleanup
  | |- keeps _ (get_user_field _ _) => apply keeps_get_user_field
  | |- keeps _ (set_user_field _ _ _) =>
      apply preserves_set_user_field; try discriminate
  | |- _ => keep_step
  end.

Ltac preserve := cbv zeta; repeat (preserve_step; cbv zeta).

Lemma preserves_handle_wallet_address e wallet_address uid :
  preserves (handle_wallet_address json_loads e wallet_address uid).
Proof.
  unfold handle_wallet_address.
  destruct (is_valid_wallet_address (strip wallet_address)) eqn:Hvalid; cbn [negb];
    [|apply keeps_send].
  apply keeps_bind; [|intros _].
  { apply preserves_set_user_field; [|discriminate]. intros _. eauto. }
  apply keeps_bind; [apply keeps_send|intros _].
  apply keeps_bind; [apply keeps_get_user_field|intros twitter_url].
  preserve.
Qed.

Lemma preserves_send_to_bitte_ai e uid prize_amount request :
  env_ok e -> preserves (send_to_bitte_ai json_loads e uid prize_amount request).
Proof.
  intros He. unfold send_to_bitte_ai.
  apply keeps_try_except; [|intros; apply keeps_ret].
  do 2 (apply keeps_bind; [preserve|intros _]).
  apply keeps_bind; [preserve|intros has_session].
  apply keeps_bind.
  { destruct has_session; [apply keeps_ret|].
    apply preserves_set_user_field; [discriminate|]. intros _. simpl.
    unfold env_ok in He. destruct (session_uuid e); [contradiction|reflexivity]. }
  intros _. apply keeps_bind; [apply keeps_get_user_field|intros].
  preserve.
Qed.

Lemma preserves_handle_swap_request e request uid :
  env_ok e -> preserves (handle_swap_request json_loads e request uid).
Proof.
  intros He. unfold handle_swap_request.
  apply keeps_bind; [preserve|intros has_prize].
  destruct (negb has_prize); [apply keeps_send|].
  do 3 (apply keeps_bind;
        [first [apply keeps_get_user_field|apply keeps_send]|intros]).
  apply keeps_bind; [apply preserves_send_to_bitte_ai, He|intros response].
  preserve.
Qed.

Lemma preserves_process_tool_invocations e uid :
  preserves (process_tool_invocations e uid).
Proof.
  unfold process_tool_invocations.
  apply keeps_bind; [preserve|intros has_pending].
  destruct (negb has_pending); [apply keeps_ret|].
  apply keeps_bind; [apply keeps_get_user_field|intros].
  preserve.
Qed.

Lemma preserves_execute_bitte_swap_from_message e uid :
  preserves (execute_bitte_swap_from_message e uid).
Proof.
  unfold execute_bitte_swap_from_message.
  apply keeps_bind; [apply keeps_send|intros _].
  apply keeps_bind; [apply preserves_process_tool_invocations|intros res].
  preserve.
Qed.

Lemma preserves_execute_bitte_swap e uid : preserves (execute_bitte_swap e uid).
Proof.
  unfold execute_bitte_swap.
  apply keeps_bind; [apply keeps_send|intros _].
  apply keeps_bind; [apply preserves_process_tool_invocations|intros res].
  preserve.
Qed.

Lemma preserves_dispatch_message e user_message uid :
  env_ok e -> preserves (dispatch_message json_loads e user_message uid).
Proof.
  intros He. unfold dispatch_message.
  apply keeps_bind; [preserve|intros current].
  destruct current.
  - apply preserves_handle_twitter_url.
  - apply preserves_handle_wallet_address.
  - apply preserves_handle_swap_request, He.
  - cbv zeta. destruct (existsb _ _);
      [apply preserves_execute_bitte_swap_from_message|].
    destruct (existsb _ _); [|apply preserves_handle_swap_request, He].
    unfold cancel_swap_from_message. preserve.
  - apply keeps_send.
Qed.

Lemma preserves_handle_update e u :
  env_ok e -> preserves (handle_update json_loads e u).
Proof.
  intros He. destruct u as [uid|uid|uid|uid|uid data|m]; cbn [handle_update].
  - apply preserves_start.
  - apply keeps_send.
  - unfold show_wallet_info.
    apply keeps_bind; [preserve|intros has_wallet].
    destruct (negb has_wallet); [apply keeps_send|].
    apply keeps_bind; [apply keeps_get_user_field|intros]. preserve.
  - unfold reset_conversation. preserve.
  - unfold handle_callback.
    destruct (startswith _ _); [apply preserves_execute_bitte_swap|].
    destruct (String.eqb _ _); [|apply keeps_ret].
    unfold cancel_swap. preserve.
  - unfold handle_message. cbv zeta.
    destruct (existsb _ _); [|apply preserves_dispatch_message, He].
    destruct (negb _); [apply keeps_ret|apply preserves_dispatch_message, He].
Qed.

Lemma new_bot_invariant signer : invariant (new_bot signer).
Proof.
  split.
  - intros uid fields Hl. cbn in Hl. rewrite lookup_empty in Hl. discriminate.
  - intros uid Hst. cbn in Hst. rewrite lookup_empty in Hst. discriminate.
Qed.

(** The invariant holds of every bot the updates can produce. *)
Lemma reachable_invariant b : reachable b -> invariant b.
Proof.
  induction 1 as [signer|b e u Hb IH He].
  - apply new_bot_invariant.
  - apply (preserves_handle_update e u He b IH).
Qed.

(** *** The terminal swap action *)

Lemma process_tool_invocations_state e uid b :
  snd (fst (process_tool_invocations e uid b)) = b.
Proof.
  symmetry. revert b.
  assert (forall b0, keeps (eq b0) (process_tool_invocations e uid)) as Hkeep.
  { intros b0. unfold process_tool_invocations.
    apply keeps_bind; [apply keeps_gets|intros has_pending].
    destruct (negb has_pending); [apply keeps_ret|].
    apply keeps_bind; [apply keeps_get_user_field|intros].
    cbv zeta. repeat (keep_step; cbv zeta). }
  intros b. apply (Hkeep b b eq_refl).
Qed.

Lemma execute_bitte_swap_from_message_completes e uid b r b' out :
  execute_bitte_swap_from_message e uid b = (Ok r, b', out) -> b' = cleaned uid b.
Proof.
  unfold execute_bitte_swap_from_message, mbind, handler_mbind, handler_bind.
  cbn [reply_text send].
  pose proof (process_tool_invocations_state e uid b) as Hstate.
  destruct (process_tool_invocations e uid b) as [[[res|ex] b1] out1];
    cbn [fst snd] in Hstate; subst b1; [|discriminate].
  destruct res; cbn [reply_text send]; rewrite cleanup_user_data_run; congruence.
Qed.

Lemma execute_bitte_swap_completes e uid b r b' out :
  execute_bitte_swap e uid b = (Ok r, b', out) -> b' = cleaned uid b.
Proof.
  unfold execute_bitte_swap, mbind, handler_mbind, handler_bind.
  cbn [edit_message_text send].
  pose proof (process_tool_invocations_state e uid b) as Hstate.
  destruct (process_tool_invocations e uid b) as [[[res|ex] b1] out1];
    cbn [fst snd] in Hstate; subst b1; [|discriminate].
  destruct res; cbn [edit_message_text send]; rewrite cleanup_user_data_run; congruence.
Qed.


(** *** The wallet address *)

Lemma is_hex_digit_char c : is_hex_digit c = is_hex_char c.
Proof. destruct c as [[] [] [] [] [] [] [] []]; reflexivity. Qed.

Lemma string_forallb_ext p q s :
  (forall c, p c = q c) -> string_forallb p s = string_forallb q s.
Proof.
  intros Hpq. induction s as [|c s IH]; [reflexivity|]. simpl. rewrite Hpq, IH.
  reflexivity.
Qed.

Lemma is_valid_wallet_address_spec a :
  is_valid_wallet_address a = true <-> well_formed_address a.
Proof.
  unfold is_valid_wallet_address, well_formed_address.
  rewrite (string_forallb_ext _ _ _ is_hex_digit_char).
  rewrite !andb_true_iff, Nat.eqb_eq. split.
  - intros [[Hlen Hpre] Hhex]. repeat split; try assumption.
    destruct a as [|c1 [|c2 r]]; try discriminate. simpl in *. lia.
  - intros (Hlen & Hpre & _ & Hhex). auto.
Qed.

Lemma get_user_field_run uid key b fields v :
  user_data b !! uid = Some fields -> fields !! key = Some v ->
  get_user_field uid key b = (Ok v, b, []).
Proof.
  intros Hf Hk. unfold get_user_field, mbind, handler_mbind, handler_bind, gets.
  rewrite Hf, Hk. reflexivity.
Qed.

Lemma keeps_wallet_accepted_field uid address key v :
  key <> "wallet_address" ->
  keeps (wallet_accepted uid address) (set_user_field uid key v).
Proof.
  intros Hkey b (Hst & fields & Hf & Hw). rewrite (set_user_field_run _ _ _ _ _ Hf).
  split; [exact Hst|]. cbn. rewrite lookup_insert_eq. eexists. split; [reflexivity|].
  rewrite lookup_insert_ne by congruence. exact Hw.
Qed.

Lemma bind_state_ok {A B} (m : H A) (f : A -> H B) b a b1 out :
  m b = (Ok a, b1, out) -> snd (fst ((m ≫= f) b)) = snd (fst (f a b1)).
Proof.
  intros Hm. unfold mbind, handler_mbind, handler_bind. rewrite Hm.
  destruct (f a b1) as [[r b2] out2]. reflexivity.
Qed.

Lemma handle_wallet_address_accepts e wallet_address uid b fields :
  is_valid_wallet_address (strip wallet_address) = true ->
  user_data b !! uid = Some fields ->
  is_Some (fields !! "twitter_url") ->
  wallet_accepted uid (strip wallet_address)
    (snd (fst (handle_wallet_address json_loads e wallet_address uid b))).
Proof.
  intros Hvalid Hfields [url Hurl]. unfold handle_wallet_address.
  rewrite Hvalid. cbn [negb].
  erewrite bind_state_ok by (apply set_user_field_run; exact Hfields).
  erewrite bind_state_ok by reflexivity.
  erewrite bind_state_ok
    by (eapply get_user_field_run;
        [apply lookup_insert_eq|rewrite lookup_insert_ne by discriminate; exact Hurl]).
  cbv zeta.
  erewrite bind_state_ok by (apply set_user_field_run; apply lookup_insert_eq).
  erewrite bind_state_ok by reflexivity.
  match goal with
  | |- wallet_accepted _ _ (snd (fst (?rest ?b5))) =>
      assert (keeps (wallet_accepted uid (strip wallet_address)) rest) as Hrest
  end.
  { apply keeps_bind; [apply keeps_lift|intros p].
    apply keeps_bind; [|intros; apply keeps_send].
    apply keeps_wallet_accepted_field. discriminate. }
  apply Hrest. split; [apply lookup_insert_eq|].
  cbn [user_data with_user_data with_user_states]. rewrite lookup_insert_eq.
  eexists. split; [reflexivity|].
  rewrite lookup_insert_ne by discriminate. apply lookup_insert_eq.
Qed.


End WithDecoder.

(** *** A conversation *)

Lemma awaiting_wallet_reachable : reachable Json.loads awaiting_wallet.
Proof.
  unfold awaiting_wallet, run. cbn [fold_left].
  do 2 (apply reachable_step; [|discriminate]). apply reachable_new.
Qed.

Lemma awaiting_confirmation_reachable : reachable Json.loads awaiting_confirmation.
Proof.
  unfold awaiting_confirmation, run. cbn [fold_left].
  do 2 (apply reachable_step; [|discriminate]). apply awaiting_wallet_reachable.
Qed.



End FinalFacts.

(** ** The allocation and its text *)
Module AllocationFacts.
Import Chatbot PreferenceSpec PreferenceFacts AllocationSpec.

Lemma startswith_split p : forall s,
  startswith p s = true -> s = (p ++ drop_chars (String.length p) s)%string.
Proof.
  unfold startswith.
  induction p as [|a p IH]; intros s H; [reflexivity|].
  destruct s as [|c s]; [discriminate|]. simpl in H.
  destruct (ascii_dec a c) as [->|]; [|discriminate].
  simpl. rewrite append_cons. f_equal. apply IH, H.
Qed.

Lemma take_digits_spec s : forall ds r,
  Json.take_digits s = (ds, r) ->
  string_forallb is_digit ds = true /\ s = (ds ++ r)%string.
Proof.
  induction s as [|c s IH]; intros ds r; simpl.
  - intros [= <- <-]. split; reflexivity.
  - destruct (is_digit c) eqn:Hc.
    + destruct (Json.take_digits s) as [ds' r'] eqn:Hs. intros [= <- <-].
      destruct (IH _ _ eq_refl) as [Hd ->]. simpl. rewrite Hc, Hd. split; reflexivity.
    + intros [= <- <-]. split; reflexivity.
Qed.

Lemma int_of_digits_from_nonneg ds : forall a,
  string_forallb is_digit ds = true -> 0 <= a -> 0 <= int_of_digits_from a ds.
Proof.
  induction ds as [|c ds IH]; intros a Hd Ha; simpl; [exact Ha|].
  simpl in Hd. apply andb_true_iff in Hd as [Hc Hd]. apply IH; [exact Hd|].
  unfold is_digit, char_between in Hc. apply andb_true_iff in Hc as [Hlo _].
  apply Z.leb_le in Hlo. unfold digit_value. lia.
Qed.

Lemma match_symbol_vocabulary s symbol r :
  match_symbol s = Some (symbol, r) -> In symbol vocabulary.
Proof.
  unfold match_symbol, vocabulary.
  repeat (destruct (startswith _ s); [intros [= <- <-]; simpl; auto|]).
  discriminate.
Qed.

Lemma percentage_pattern_groups s m r :
  percentage_pattern s = Some (m, r) -> percentage_of_symbol m.
Proof.
  unfold percentage_pattern.
  destruct (Json.take_digits s) as [ds r1] eqn:Hd.
  destruct (is_empty ds); [discriminate|].
  destruct (match_spaces _) as [r3|]; [|discriminate].
  destruct (match_symbol r3) as [[symbol r4]|] eqn:Hs; [|discriminate].
  intros [= <- <-]. split; simpl.
  - apply (take_digits_spec _ _ _ Hd).
  - eapply match_symbol_vocabulary, Hs.
Qed.

Lemma simple_pattern_groups s m r :
  simple_pattern s = Some (m, r) -> percentage_of_symbol (snd m, fst m).
Proof.
  unfold simple_pattern.
  destruct (match_symbol s) as [[symbol r1]|] eqn:Hs; [|discriminate].
  destruct (match_spaces r1) as [r2|]; [|discriminate].
  destruct (Json.take_digits r2) as [ds r3] eqn:Hd.
  destruct (is_empty ds); [discriminate|].
  intros [= <- <-]. split; simpl.
  - apply (take_digits_spec _ _ _ Hd).
  - eapply match_symbol_vocabulary, Hs.
Qed.

Lemma findall_from_Forall {A} (pattern : string -> option (A * string)) (P : A -> Prop) :
  (forall s g r, pattern s = Some (g, r) -> P g) ->
  forall s skip, Forall P (findall_from pattern skip s).
Proof.
  intros Hp. induction s as [|c s IH]; intros skip; simpl; [constructor|].
  destruct skip; [|apply IH].
  destruct (pattern (String c s)) as [[g r]|] eqn:Hm; [|apply IH].
  constructor; [eapply Hp, Hm|apply IH].
Qed.

Lemma preference_matches_groups p :
  Forall percentage_of_symbol (preference_matches p).
Proof.
  unfold preference_matches.
  destruct (findall percentage_pattern p) as [|m ms] eqn:Hm.
  - apply Forall_map.
    apply (findall_from_Forall simple_pattern (fun m => percentage_of_symbol (snd m, fst m))).
    intros s g r. apply simple_pattern_groups.
  - rewrite <- Hm. apply findall_from_Forall. intros s g r. apply percentage_pattern_groups.
Qed.

(** The dictionary under [alloc_add]: a known symbol keeps its place, a new
    one goes last. *)
Lemma alloc_add_keys token n d :
  map fst (alloc_add token n d) =
  if bool_decide (token ∈ map fst d) then map fst d
  else (map fst d ++ [token])%list.
Proof.
  induction d as [|[k v] d IH]; cbn [alloc_add map fst].
  - rewrite bool_decide_eq_false_2 by apply not_elem_of_nil. reflexivity.
  - destruct (String.eqb token k) eqn:Hk.
    + apply String.eqb_eq in Hk. subst k. cbn [map fst].
      rewrite bool_decide_eq_true_2 by apply list_elem_of_here. reflexivity.
    + apply String.eqb_neq in Hk. cbn [map fst]. rewrite IH.
      destruct (bool_decide (token ∈ map fst d)) eqn:Hin.
      * apply bool_decide_eq_true in Hin.
        rewrite bool_decide_eq_true_2 by (apply list_elem_of_further, Hin). reflexivity.
      * apply bool_decide_eq_false in Hin.
        rewrite bool_decide_eq_false_2; [reflexivity|].
        intros H. apply elem_of_cons in H as [?|?]; congruence.
Qed.

Lemma alloc_add_NoDup token n d :
  NoDup (map fst d) -> NoDup (map fst (alloc_add token n d)).
Proof.
  intros Hd. rewrite alloc_add_keys. case_bool_decide as Hin; [exact Hd|].
  apply NoDup_app. split; [exact Hd|]. split.
  - intros x Hx Hx'. apply list_elem_of_singleton in Hx'. subst x. apply Hin, Hx.
  - apply NoDup_singleton.
Qed.

Lemma alloc_add_shares token n d :
  In token vocabulary -> 0 <= n ->
  Forall share_of_symbol d -> Forall share_of_symbol (alloc_add token n d).
Proof.
  intros Ht Hn. induction d as [|[k v] d IH]; intros Hd; simpl.
  - constructor; [split; assumption|constructor].
  - inversion Hd as [|? ? [Hk Hv] Hd']; subst. simpl in *.
    destruct (String.eqb token k).
    + constructor; [split; simpl; [exact Hk|lia]|exact Hd'].
    + constructor; [split; assumption|apply IH, Hd'].
Qed.

Lemma fold_add_match_well_formed ms : forall d t,
  Forall percentage_of_symbol ms ->
  NoDup (map fst d) -> Forall share_of_symbol d ->
  NoDup (map fst (fst (fold_left add_match ms (d, t))))
  /\ Forall share_of_symbol (fst (fold_left add_match ms (d, t))).
Proof.
  induction ms as [|m ms IH]; intros d t Hms Hnd Hd; simpl; [auto|].
  inversion Hms as [|? ? [Hdigits Hsym] Hms']; subst.
  rewrite add_match_pair. apply IH; [exact Hms'|apply alloc_add_NoDup, Hnd|].
  apply alloc_add_shares; [exact Hsym| |exact Hd].
  apply int_of_digits_from_nonneg; [exact Hdigits|lia].
Qed.

Lemma shares_bounded d :
  Forall share_of_symbol d ->
  Forall (fun kv => In (fst kv) vocabulary /\ 0 <= snd kv <= alloc_total d) d.
Proof.
  induction 1 as [|[k v] d [Hk Hv] Hd IH]; [constructor|]. simpl in *.
  assert (0 <= alloc_total d) as Hpos.
  { clear IH. induction Hd as [|[k' v'] d' [_ Hv'] _ IH']; simpl in *; lia. }
  constructor; [simpl; split; [exact Hk|lia]|].
  eapply Forall_impl; [exact IH|]. intros [k' v'] [Hk' Hv']. simpl in *.
  split; [exact Hk'|lia].
Qed.

(** X1.  An allocation [parse_token_preference] returns is a dictionary over
    the vocabulary: no symbol occurs twice, every symbol is USDC, ETH or
    NATIVE, and every share lies between 0 and 100. *)
Theorem returned_allocation_well_formed preference allocation :
  parse_token_preference preference = Ok allocation -> well_formed allocation.
Proof.
  rewrite parse_token_preference_cases.
  destruct (bare_symbol _) eqn:Hbare.
  - intros [= <-]. unfold bare_symbol in Hbare. simpl in Hbare.
    split; [apply NoDup_singleton|].
    constructor; [split; [|simpl; lia]|constructor].
    repeat (apply orb_true_iff in Hbare; destruct Hbare as [Hbare|Hbare]);
      try discriminate; apply String.eqb_eq in Hbare; simpl; rewrite Hbare;
      unfold vocabulary; simpl; auto.
  - pose proof (preference_matches_groups (strip (upper preference))) as Hms.
    destruct (preference_matches _) as [|m ms] eqn:Heq; [discriminate|].
    set (all := m :: ms) in *. set (T := matches_total all).
    pose proof (fold_add_match_total all [] 0) as Htot. fold T in Htot.
    destruct (fold_add_match_well_formed all [] 0 Hms) as [Hnd Hsh];
      [constructor|constructor|].
    change (fold_left add_match ms (add_match ([], 0) m))
      with (fold_left add_match all ([], 0)).
    set (d := fst (fold_left add_match all ([], 0))) in *. simpl in Htot.
    destruct (T >? 100) eqn:Hgt; [discriminate|].
    rewrite Z.gtb_ltb in Hgt. apply Z.ltb_ge in Hgt.
    destruct (T <? 100) eqn:Hlt; intros [= <-].
    + apply Z.ltb_lt in Hlt. split; [apply alloc_add_NoDup, Hnd|].
      assert (Forall share_of_symbol (alloc_add "NATIVE" (100 - T) d)) as Hsh'
        by (apply alloc_add_shares; [unfold vocabulary; simpl; auto|lia|exact Hsh]).
      apply shares_bounded in Hsh'. rewrite alloc_total_add, Htot in Hsh'.
      eapply Forall_impl; [exact Hsh'|]. intros kv [Hk Hv]. split; [exact Hk|lia].
    + apply Z.ltb_ge in Hlt. split; [exact Hnd|].
      apply shares_bounded in Hsh. rewrite Htot in Hsh.
      eapply Forall_impl; [exact Hsh|]. intros kv [Hk Hv]. split; [exact Hk|lia].
Qed.

Lemma returned_allocation_well_formed_witness :
  well_formed [("USDC", 70); ("NATIVE", 30)].
Proof.
  apply (returned_allocation_well_formed "usdc 30, usdc 40"). vm_compute. reflexivity.
Defined.

(** *** Letter case and surrounding whitespace *)

Lemma char_upper_lower c : char_upper (char_lower c) = char_upper c.
Proof. destruct c as [[] [] [] [] [] [] [] []]; reflexivity. Qed.

Lemma char_upper_idem c : char_upper (char_upper c) = char_upper c.
Proof. destruct c as [[] [] [] [] [] [] [] []]; reflexivity. Qed.

Lemma is_space_upper c : is_space (char_upper c) = is_space c.
Proof. destruct c as [[] [] [] [] [] [] [] []]; reflexivity. Qed.

Lemma upper_lower s : upper (lower s) = upper s.
Proof.
  induction s as [|c s IH]; [reflexivity|]. unfold upper, lower in *. simpl.
  rewrite char_upper_lower, IH. reflexivity.
Qed.

Lemma upper_idem s : upper (upper s) = upper s.
Proof.
  induction s as [|c s IH]; [reflexivity|]. unfold upper in *. simpl.
  rewrite char_upper_idem, IH. reflexivity.
Qed.

Lemma lstrip_upper s : lstrip_by is_space (upper s) = upper (lstrip_by is_space s).
Proof.
  induction s as [|c s IH]; [reflexivity|]. unfold upper in *. simpl.
  rewrite is_space_upper. destruct (is_space c); [exact IH|reflexivity].
Qed.

Lemma rstrip_upper s : rstrip_by is_space (upper s) = upper (rstrip_by is_space s).
Proof.
  induction s as [|c s IH]; [reflexivity|]. unfold upper in *. simpl.
  rewrite IH, is_space_upper.
  destruct (rstrip_by is_space s); simpl; [destruct (is_space c)|]; reflexivity.
Qed.

Lemma strip_upper s : strip (upper s) = upper (strip s).
Proof. unfold strip, strip_by. rewrite lstrip_upper, rstrip_upper. reflexivity. Qed.

(** X2.  [parse_token_preference] reads its input without regard to letter
    case or to the whitespace around it: the lower-case, the upper-case and
    the stripped form of a text all parse as the text does. *)
Theorem parse_token_preference_ignores_case preference :
  parse_token_preference (lower preference) = parse_token_preference preference
  /\ parse_token_preference (upper preference) = parse_token_preference preference
  /\ parse_token_preference (strip preference) = parse_token_preference preference.
Proof.
  unfold parse_token_preference. cbv zeta.
  rewrite upper_lower, upper_idem.
  rewrite <- (strip_upper preference), LineFacts.strip_idem.
  repeat split; reflexivity.
Qed.

(** *** Formatting an allocation and parsing it back *)

Lemma is_digit_char d : 0 <= d < 10 -> is_digit (digit_char d) = true.
Proof.
  intros H.
  assert (d = 0 \/ d = 1 \/ d = 2 \/ d = 3 \/ d = 4 \/ d = 5 \/ d = 6 \/ d = 7
          \/ d = 8 \/ d = 9) as Hd by lia.
  repeat (destruct Hd as [Hd|Hd]; [subst d; reflexivity|]). subst d. reflexivity.
Qed.

Lemma decimal_digits_digits fuel : forall n acc,
  0 <= n -> string_forallb is_digit acc = true ->
  string_forallb is_digit (decimal_digits fuel n acc) = true.
Proof.
  induction fuel as [|fuel IH]; intros n acc Hn Hacc; [exact Hacc|].
  cbn [decimal_digits].
  assert (string_forallb is_digit (String (digit_char (n mod 10)) acc) = true) as Hd.
  { simpl. rewrite is_digit_char by (apply Z.mod_pos_bound; lia). exact Hacc. }
  destruct (n <? 10); [exact Hd|]. apply IH; [apply Z.div_pos; lia|exact Hd].
Qed.

Lemma decimal_digits_nonempty fuel : forall n acc,
  acc <> EmptyString -> decimal_digits fuel n acc <> EmptyString.
Proof.
  induction fuel as [|fuel IH]; intros n acc Hacc; [exact Hacc|].
  cbn [decimal_digits]. destruct (n <? 10); [discriminate|]. apply IH. discriminate.
Qed.

(** The numeral of a natural number: a non-empty run of digits. *)
Lemma str_of_int_digits n :
  0 <= n ->
  exists c ds, str_of_int n = String c ds
               /\ is_digit c = true /\ string_forallb is_digit ds = true.
Proof.
  intros Hn. unfold str_of_int.
  destruct (n <? 0) eqn:Hneg; [apply Z.ltb_lt in Hneg; lia|].
  set (fuel := Z.to_nat (Z.log2 (Z.abs n))).
  pose proof (decimal_digits_digits (S fuel) n EmptyString Hn eq_refl) as Hd.
  assert (decimal_digits (S fuel) n EmptyString <> EmptyString) as Hne.
  { cbn [decimal_digits]. destruct (n <? 10); [discriminate|].
    apply decimal_digits_nonempty. discriminate. }
  destruct (decimal_digits (S fuel) n EmptyString) as [|c ds]; [contradiction|].
  simpl in Hd. apply andb_true_iff in Hd as [Hc Hds]. eauto.
Qed.

Lemma take_digits_run ds c r :
  string_forallb is_digit ds = true -> is_digit c = false ->
  Json.take_digits (ds ++ String c r) = (ds, String c r).
Proof.
  intros Hds Hc. induction ds as [|d ds IH].
  - change (EmptyString ++ String c r)%string with (String c r). simpl. rewrite Hc.
    reflexivity.
  - simpl in Hds. apply andb_true_iff in Hds as [Hd Hds].
    rewrite append_cons. simpl. rewrite Hd, (IH Hds). reflexivity.
Qed.

Lemma startswith_app p rest : startswith p (p ++ rest) = true.
Proof.
  unfold startswith. induction p as [|c p IH]; [destruct rest; reflexivity|].
  rewrite append_cons. simpl. destruct (ascii_dec c c); [exact IH|contradiction].
Qed.

Lemma drop_chars_app p rest : drop_chars (String.length p) (p ++ rest) = rest.
Proof. induction p as [|c p IH]; [reflexivity|]. rewrite append_cons. exact IH. Qed.

Lemma symbol_then symbol rest :
  In symbol vocabulary ->
  lstrip_by is_space (symbol ++ rest) = (symbol ++ rest)%string
  /\ match_symbol (symbol ++ rest) = Some (symbol, rest).
Proof.
  unfold vocabulary. simpl. intros [<-|[<-|[<-|[]]]].
  - split; [rewrite append_cons; reflexivity|]. unfold match_symbol.
    rewrite (startswith_app "USDC"), (drop_chars_app "USDC"). reflexivity.
  - split; [rewrite append_cons; reflexivity|]. unfold match_symbol.
    assert (startswith "USDC" ("ETH" ++ rest) = false) as ->
      by (rewrite append_cons; reflexivity).
    rewrite (startswith_app "ETH"), (drop_chars_app "ETH"). reflexivity.
  - split; [rewrite append_cons; reflexivity|]. unfold match_symbol.
    assert (startswith "USDC" ("NATIVE" ++ rest) = false) as ->
      by (rewrite append_cons; reflexivity).
    assert (startswith "ETH" ("NATIVE" ++ rest) = false) as ->
      by (rewrite append_cons; reflexivity).
    rewrite (startswith_app "NATIVE"), (drop_chars_app "NATIVE"). reflexivity.
Qed.

(** The percentage pattern on the text of an entry. *)
Lemma percentage_pattern_entry ds symbol rest :
  string_forallb is_digit ds = true -> ds <> EmptyString ->
  In symbol vocabulary ->
  percentage_pattern (ds ++ String "%" (String " " (symbol ++ rest)))
  = Some ((ds, symbol), rest).
Proof.
  intros Hds Hne Hsym. unfold percentage_pattern.
  rewrite take_digits_run by (exact Hds || reflexivity).
  destruct ds as [|d ds]; [contradiction|]. cbn [is_empty match_spaces].
  change (is_space " ") with true. cbn [lstrip_by].
  change (is_space " ") with true. cbv iota.
  destruct (symbol_then symbol rest Hsym) as [-> ->]. reflexivity.
Qed.

Lemma findall_from_skip {A} (pattern : string -> option (A * string)) t : forall rest,
  findall_from pattern (String.length t) (t ++ rest)
  = findall_from pattern O rest.
Proof.
  induction t as [|c t IH]; intros rest; [reflexivity|].
  rewrite append_cons. simpl. apply IH.
Qed.

Lemma findall_entry ds symbol rest :
  string_forallb is_digit ds = true -> ds <> EmptyString ->
  In symbol vocabulary ->
  findall percentage_pattern (ds ++ String "%" (String " " (symbol ++ rest)))
  = (ds, symbol) :: findall percentage_pattern rest.
Proof.
  intros Hds Hne Hsym. unfold findall.
  pose proof (percentage_pattern_entry ds symbol rest Hds Hne Hsym) as Hm.
  destruct ds as [|d ds]; [contradiction|]. rewrite append_cons in *.
  cbn [findall_from]. rewrite Hm. f_equal.
  replace (ds ++ String "%" (String " " (symbol ++ rest)))%string
    with ((ds ++ String "%" (String " " symbol)) ++ rest)%string
    by (rewrite append_assoc; reflexivity).
  replace (String.length (String d ((ds ++ String "%" (String " " symbol)) ++ rest))
           - String.length rest - 1)%nat
    with (String.length (ds ++ String "%" (String " " symbol)))
    by (simpl; rewrite !length_append; simpl; lia).
  apply findall_from_skip.
Qed.

(** The separator of the formatted text holds no match. *)
Lemma findall_separator rest :
  findall percentage_pattern (String "," (String " " rest))
  = findall percentage_pattern rest.
Proof. reflexivity. Qed.

Lemma format_token_allocation_entries allocation :
  format_token_allocation allocation = String.concat ", " (map entry_text allocation).
Proof. reflexivity. Qed.

Lemma concat_cons2 sep x y l :
  String.concat sep (x :: y :: l) = (x ++ sep ++ String.concat sep (y :: l))%string.
Proof. reflexivity. Qed.

Lemma entry_text_then kv rest :
  (entry_text kv ++ rest)%string
  = (str_of_int (snd kv) ++ String "%" (String " " (fst kv ++ rest)))%string.
Proof.
  unfold entry_text. rewrite append_assoc. reflexivity.
Qed.

Lemma findall_entry_text kv rest :
  share_of_symbol kv ->
  findall percentage_pattern (entry_text kv ++ rest)
  = entry_groups kv :: findall percentage_pattern rest.
Proof.
  intros [Hk Hv]. rewrite entry_text_then.
  destruct (str_of_int_digits _ Hv) as (c & ds & Heq & Hc & Hds).
  apply findall_entry; [|rewrite Heq; discriminate|exact Hk].
  rewrite Heq. simpl. rewrite Hc, Hds. reflexivity.
Qed.

Lemma findall_formatted allocation :
  Forall share_of_symbol allocation ->
  findall percentage_pattern (format_token_allocation allocation)
  = map entry_groups allocation.
Proof.
  rewrite format_token_allocation_entries.
  induction 1 as [|kv l Hkv Hl IH]; [reflexivity|].
  destruct l as [|kv' l].
  - simpl. rewrite <- (append_empty_r (entry_text kv)).
    rewrite findall_entry_text by exact Hkv. reflexivity.
  - cbn [map] in *. rewrite concat_cons2.
    rewrite findall_entry_text by exact Hkv.
    rewrite !append_cons.
    change (EmptyString ++ String.concat ", " (entry_text kv' :: map entry_text l))%string
      with (String.concat ", " (entry_text kv' :: map entry_text l)).
    rewrite findall_separator, IH. reflexivity.
Qed.

(** The formatted text is already in upper case and stripped, and is no bare
    symbol. *)
Lemma string_map_app f s t :
  string_map f (s ++ t) = (string_map f s ++ string_map f t)%string.
Proof.
  induction s as [|c s IH]; [reflexivity|]. rewrite append_cons. simpl.
  rewrite IH, append_cons. reflexivity.
Qed.

Lemma upper_digits s : string_forallb is_digit s = true -> upper s = s.
Proof.
  unfold upper. induction s as [|c s IH]; [reflexivity|]. simpl.
  intros H. apply andb_true_iff in H as [Hc Hs]. rewrite (IH Hs). f_equal.
  unfold char_upper. unfold is_digit, char_between in *.
  apply andb_true_iff in Hc as [_ Hhi]. apply Z.leb_le in Hhi.
  destruct (97 <=? char_code c) eqn:Hlo; [apply Z.leb_le in Hlo; lia|reflexivity].
Qed.

Lemma upper_entry_text kv : share_of_symbol kv -> upper (entry_text kv) = entry_text kv.
Proof.
  intros [Hk Hv]. unfold entry_text, upper. rewrite !string_map_app.
  destruct (str_of_int_digits _ Hv) as (c & ds & Heq & Hc & Hds).
  fold (upper (str_of_int (snd kv))). rewrite upper_digits
    by (rewrite Heq; simpl; rewrite Hc, Hds; reflexivity).
  f_equal. f_equal. unfold vocabulary in Hk. simpl in Hk.
  destruct Hk as [<-|[<-|[<-|[]]]]; reflexivity.
Qed.

Lemma upper_formatted allocation :
  Forall share_of_symbol allocation ->
  upper (format_token_allocation allocation) = format_token_allocation allocation.
Proof.
  rewrite format_token_allocation_entries.
  induction 1 as [|kv l Hkv Hl IH]; [reflexivity|].
  destruct l as [|kv' l]; [apply upper_entry_text, Hkv|].
  cbn [map] in *. rewrite concat_cons2. unfold upper in *.
  rewrite !string_map_app, IH. fold (upper (entry_text kv)).
  rewrite upper_entry_text by exact Hkv. reflexivity.
Qed.

Lemma rstrip_app p s t :
  t <> EmptyString -> rstrip_by p t = t -> rstrip_by p (s ++ t) = (s ++ t)%string.
Proof.
  intros Hne Ht. induction s as [|c s IH]; [exact Ht|].
  rewrite append_cons, LineFacts.rstrip_cons, IH.
  destruct (s ++ t)%string eqn:E; [|reflexivity].
  destruct s; [|discriminate]. contradiction.
Qed.

Lemma rstrip_entry_text kv :
  share_of_symbol kv ->
  entry_text kv <> EmptyString
  /\ rstrip_by is_space (entry_text kv) = entry_text kv.
Proof.
  intros [Hk Hv]. split.
  - unfold entry_text. destruct (str_of_int_digits _ Hv) as (c & ds & -> & _).
    discriminate.
  - unfold entry_text. rewrite <- append_assoc. apply rstrip_app.
    + unfold vocabulary in Hk. simpl in Hk.
      destruct Hk as [<-|[<-|[<-|[]]]]; discriminate.
    + unfold vocabulary in Hk. simpl in Hk.
      destruct Hk as [<-|[<-|[<-|[]]]]; reflexivity.
Qed.

Lemma rstrip_formatted allocation :
  Forall share_of_symbol allocation -> allocation <> [] ->
  format_token_allocation allocation <> EmptyString
  /\ rstrip_by is_space (format_token_allocation allocation)
     = format_token_allocation allocation.
Proof.
  rewrite format_token_allocation_entries.
  induction 1 as [|kv l Hkv Hl IH]; [contradiction|]. intros _.
  destruct l as [|kv' l]; [apply rstrip_entry_text, Hkv|].
  cbn [map] in *. rewrite concat_cons2.
  destruct IH as [Hne Hr]; [discriminate|]. split.
  - destruct (rstrip_entry_text kv Hkv) as [Hne' _].
    destruct (entry_text kv); [contradiction|discriminate].
  - rewrite <- append_assoc. apply rstrip_app; assumption.
Qed.

Lemma formatted_head allocation :
  Forall share_of_symbol allocation -> allocation <> [] ->
  exists c r, format_token_allocation allocation = String c r /\ is_digit c = true.
Proof.
  rewrite format_token_allocation_entries.
  intros Hall Hne. destruct Hall as [|kv l [Hk Hv] Hl]; [contradiction|].
  destruct (str_of_int_digits _ Hv) as (c & ds & Heq & Hc & _).
  exists c. destruct l as [|kv' l]; cbn [map]; rewrite ?concat_cons2;
    unfold String.concat, entry_text; rewrite Heq, !append_cons; eauto.
Qed.

Lemma alloc_add_new token n d :
  token ∉ map fst d -> alloc_add token n d = (d ++ [(token, n)])%list.
Proof.
  induction d as [|[k v] d IH]; intros Hin; [reflexivity|].
  cbn [map fst] in Hin. apply not_elem_of_cons in Hin as [Hne Hin].
  cbn [alloc_add]. apply String.eqb_neq in Hne. rewrite Hne, (IH Hin). reflexivity.
Qed.

Lemma fold_entry_groups allocation : forall acc t,
  NoDup (map fst (acc ++ allocation)) ->
  Forall share_of_symbol allocation ->
  fold_left add_match (map entry_groups allocation) (acc, t)
  = ((acc ++ allocation)%list, t + alloc_total allocation).
Proof.
  induction allocation as [|[k v] l IH]; intros acc t Hnd Hall.
  - simpl. rewrite app_nil_r. f_equal. lia.
  - inversion Hall as [|? ? [Hk Hv] Hl]; subst. simpl in Hv.
    cbn [map fold_left]. rewrite add_match_pair.
    change (entry_groups (k, v)) with (str_of_int v, k).
    cbn [fst snd]. rewrite str_of_int_numeral by exact Hv.
    rewrite alloc_add_new.
    + rewrite IH; [|rewrite <- app_assoc; exact Hnd|exact Hl].
      rewrite <- app_assoc. simpl. f_equal. lia.
    + rewrite map_app in Hnd. apply NoDup_app in Hnd as (_ & Hdisj & _).
      intros Hin. apply (Hdisj k Hin). cbn [map fst]. apply list_elem_of_here.
Qed.

Lemma preference_matches_formatted allocation :
  Forall share_of_symbol allocation ->
  preference_matches (format_token_allocation allocation)
  = map entry_groups allocation.
Proof.
  intros Hall. unfold preference_matches. rewrite (findall_formatted _ Hall).
  destruct allocation; reflexivity.
Qed.

(** X3.  Formatting and parsing are inverse on the allocations that sum to
    100: the text [format_token_allocation] writes for such an allocation is
    parsed by [parse_token_preference] into the same dictionary, with the
    symbols in the same order. *)
Theorem parse_formatted_allocation allocation :
  well_formed allocation -> alloc_total allocation = 100 ->
  parse_token_preference (format_token_allocation allocation) = Ok allocation.
Proof.
  intros [Hnd Hall] Htotal.
  assert (Forall share_of_symbol allocation) as Hshares.
  { eapply Forall_impl; [exact Hall|]. intros kv [Hk Hv]. split; [exact Hk|lia]. }
  assert (allocation <> []) as Hne by (intros ->; discriminate).
  destruct (formatted_head allocation Hshares Hne) as (c & r & Hfmt & Hc).
  destruct (rstrip_formatted allocation Hshares Hne) as [_ Hr].
  assert (is_space c = false) as Hsp.
  { unfold is_digit, is_space, char_between in *.
    apply andb_true_iff in Hc as [Hlo Hhi]. apply Z.leb_le in Hlo, Hhi.
    destruct (9 <=? char_code c) eqn:H1, (char_code c <=? 13) eqn:H2,
      (28 <=? char_code c) eqn:H3, (char_code c <=? 32) eqn:H4; try reflexivity;
      apply Z.leb_le in H2 || apply Z.leb_le in H4; lia. }
  rewrite parse_token_preference_cases. cbv zeta.
  rewrite (upper_formatted _ Hshares).
  assert (strip (format_token_allocation allocation)
          = format_token_allocation allocation) as ->.
  { unfold strip, strip_by. rewrite Hfmt at 1. cbn [lstrip_by]. rewrite Hsp, <- Hfmt.
    exact Hr. }
  assert (bare_symbol (format_token_allocation allocation) = false) as ->.
  { rewrite Hfmt. unfold bare_symbol. simpl.
    destruct c as [[] [] [] [] [] [] [] []]; try discriminate; reflexivity. }
  rewrite preference_matches_formatted by exact Hshares.
  pose proof (fold_entry_groups allocation [] 0 Hnd Hshares) as Hfold.
  pose proof (fold_add_match (map entry_groups allocation) [] 0) as Htot.
  rewrite Hfold in Htot. injection Htot as Htot.
  assert (matches_total (map entry_groups allocation) = 100) as HT by lia.
  rewrite HT, Hfold.
  destruct (map entry_groups allocation) eqn:Hm;
    [destruct allocation; [contradiction|discriminate]|].
  reflexivity.
Qed.

Lemma parse_formatted_allocation_witness :
  format_token_allocation [("ETH", 25); ("USDC", 75)] = "25% ETH, 75% USDC"
  /\ parse_token_preference "25% ETH, 75% USDC" = Ok [("ETH", 25); ("USDC", 75)].
Proof.
  split; [vm_compute; reflexivity|].
  apply (parse_formatted_allocation [("ETH", 25); ("USDC", 75)]); [|reflexivity].
  split.
  - repeat constructor; rewrite ?elem_of_cons, ?elem_of_nil; intuition discriminate.
  - repeat constructor; unfold vocabulary; simpl; auto; lia.
Defined.

End AllocationFacts.

(** ** The content of a stream *)
Module ContentFacts.
Import LineSpec LineFacts StreamSpec StreamFacts ContentSpec.

Section WithDecoder.

Variable json_loads : string -> result value.

Local Abbreviation payload_of := (StreamSpec.payload_of json_loads).
Local Abbreviation call_events := (StreamSpec.call_events json_loads).
Local Abbreviation text_events := (ContentSpec.text_events json_loads).

Lemma prefix_0_not_9 l : startswith "0:" l = true -> startswith "9:" l = false.
Proof. apply startswith_other_first. discriminate. Qed.

Lemma prefix_0_not_a l : startswith "0:" l = true -> startswith "a:" l = false.
Proof. apply startswith_other_first. discriminate. Qed.

Lemma swap_scan_line_content st raw :
  assistant_content (Swap.scan_line json_loads st raw)
  = (assistant_content st
     ++ default EmptyString (payload_of "0:" raw ≫= as_text))%string.
Proof.
  unfold Swap.scan_line, StreamSpec.payload_of.
  destruct (is_empty (strip raw)) eqn:Hb.
  { rewrite (prefix_of_blank "0:" _ Hb) by discriminate. symmetry. apply append_empty_r. }
  destruct (startswith "0:" (strip raw)) eqn:H0.
  - destruct (json_loads _) as [[]|]; simpl; rewrite ?append_empty_r; reflexivity.
  - simpl. rewrite append_empty_r.
    destruct (startswith "9:" (strip raw)). { destruct (json_loads _); reflexivity. }
    destruct (startswith "a:" (strip raw)); [|reflexivity].
    destruct (json_loads _) as [v|]; [|reflexivity].
    destruct (py_get "toolCallId" v) as [k|]; [|reflexivity].
    destruct (truthy k); [|reflexivity].
    destruct (kdict_setitem k v (tool_results st)); reflexivity.
Qed.

Lemma concat_empty_cons x l :
  String.concat EmptyString (x :: l) = (x ++ String.concat EmptyString l)%string.
Proof. destruct l; [symmetry; apply append_empty_r|reflexivity]. Qed.

Lemma swap_scan_lines_content lines : forall st,
  assistant_content (Swap.scan_lines json_loads st lines)
  = (assistant_content st
     ++ String.concat EmptyString (omap as_text (omap (payload_of "0:") lines)))%string.
Proof.
  unfold Swap.scan_lines.
  induction lines as [|x lines IH]; intros st; [symmetry; apply append_empty_r|].
  cbn [fold_left]. rewrite IH, swap_scan_line_content, append_assoc. f_equal.
  cbn [omap list_omap]. destruct (payload_of "0:" x) as [v|]; [|reflexivity].
  cbn [omap list_omap mbind option_bind]. destruct (as_text v); [|reflexivity].
  rewrite concat_empty_cons. reflexivity.
Qed.

(** X4.  The content a parser returns is the concatenation, in stream
    order, of the strings that the [0:] lines of the body decode to; a [0:]
    line that decodes to anything else, or does not decode, adds nothing. *)
Theorem content_is_concatenation uuid body :
  (forall p, Swap.parse_streaming_response json_loads uuid body = Ok p ->
             content p = String.concat EmptyString (text_events body))
  /\ (forall p, Final.parse_streaming_response json_loads uuid body = Final.Parsed p ->
                content p = String.concat EmptyString (text_events body)).
Proof.
  assert (forall p, Swap.parse_streaming_response json_loads uuid body = Ok p ->
                    content p = String.concat EmptyString (text_events body)) as Hswap.
  { intros p. unfold Swap.parse_streaming_response, finish_parse.
    rewrite swap_scan_body.
    destruct (combine_tools _ _); simpl; [|discriminate]. intros [= <-]. simpl.
    rewrite swap_scan_lines_content. reflexivity. }
  split; [exact Hswap|]. intros p Hp. apply Hswap, final_parsed_swap, Hp.
Qed.

(** *** When the merge raises *)

Lemma kdict_put_records k v d :
  (exists r, v = VDict r) -> records d -> records (kdict_put k v d).
Proof.
  intros Hv. unfold records. induction d as [|[k' v'] d IH]; intros Hd; simpl.
  - repeat constructor. exact Hv.
  - inversion Hd as [|? ? Hv' Hd']; subst.
    destruct (py_eq k k'); constructor; auto.
Qed.

Lemma kdict_find_records k d r :
  records d -> kdict_find k d = Some r -> exists fields, r = VDict fields.
Proof.
  induction 1 as [|[k' v'] d Hv Hd IH]; simpl; [discriminate|].
  destruct (py_eq k k'); [intros [= <-]; exact Hv|exact IH].
Qed.

Lemma swap_scan_line_records st raw :
  records (tool_results st) ->
  records (tool_results (Swap.scan_line json_loads st raw)).
Proof.
  intros Hst. unfold Swap.scan_line.
  destruct (is_empty _); [exact Hst|].
  destruct (startswith "0:" _). { destruct (json_loads _) as [[]|]; exact Hst. }
  destruct (startswith "9:" _). { destruct (json_loads _); exact Hst. }
  destruct (startswith "a:" _); [|exact Hst].
  destruct (json_loads _) as [v|]; [|exact Hst].
  destruct (py_get "toolCallId" v) as [k|] eqn:Hget; [|exact Hst].
  destruct (truthy k); [|exact Hst].
  unfold kdict_setitem. destruct (hashable k); [|exact Hst].
  simpl. apply kdict_put_records; [|exact Hst].
  destruct v; try discriminate. eauto.
Qed.

Lemma swap_scan_lines_records lines : forall st,
  records (tool_results st) ->
  records (tool_results (Swap.scan_lines json_loads st lines)).
Proof.
  unfold Swap.scan_lines.
  induction lines as [|x lines IH]; intros st Hst; [exact Hst|].
  simpl. apply IH, swap_scan_line_records, Hst.
Qed.

Lemma combine_tool_outcome table call :
  records table ->
  match combine_tool table call with
  | Ok _ => mergeable call = true
  | Raise e => mergeable call = false /\ (e = AttributeError \/ e = TypeError)
  end.
Proof.
  intros Htable. unfold combine_tool, mergeable.
  destruct call as [| | | | | |fields]; simpl; auto.
  replace (match dict_get "toolCallId" fields with Some x => x | None => VNone end)
    with (default VNone (dict_get "toolCallId" fields))
    by (destruct (dict_get _ _); reflexivity).
  set (id := default VNone (dict_get "toolCallId" fields)).
  unfold kdict_mem, kdict_getitem. destruct (hashable id) eqn:Hh; simpl; [|auto].
  destruct (kdict_find id table) as [record|] eqn:Hfind; simpl; [|reflexivity].
  destruct (kdict_find_records _ _ _ Htable Hfind) as [r ->]. reflexivity.
Qed.

Lemma combine_tools_outcome table calls :
  records table ->
  match combine_tools table calls with
  | Ok _ => forallb mergeable calls = true
  | Raise e => forallb mergeable calls = false /\ (e = AttributeError \/ e = TypeError)
  end.
Proof.
  intros Htable. induction calls as [|c calls IH]; simpl; [reflexivity|].
  pose proof (combine_tool_outcome table c Htable) as Hc.
  destruct (combine_tool table c) as [t|e]; simpl.
  - rewrite Hc. simpl. destruct (combine_tools table calls); simpl; exact IH.
  - destruct Hc as [-> He]. auto.
Qed.

Lemma swap_parse_outcome uuid body :
  match Swap.parse_streaming_response json_loads uuid body with
  | Ok _ => forallb mergeable (call_events body) = true
  | Raise e =>
      forallb mergeable (call_events body) = false
      /\ (e = AttributeError \/ e = TypeError)
  end.
Proof.
  unfold Swap.parse_streaming_response, finish_parse. rewrite swap_scan_body.
  set (st := Swap.scan_lines json_loads stream_init (split_lines body)).
  assert (records (tool_results st)) as Hrecords
    by (apply swap_scan_lines_records; constructor).
  pose proof (combine_tools_outcome (tool_results st) (tool_calls st) Hrecords) as H.
  replace (call_events body) with (tool_calls st)
    by (unfold st; rewrite swap_scan_lines_calls; reflexivity).
  destruct (combine_tools (tool_results st) (tool_calls st)); exact H.
Qed.


(** *** The assistant message *)

Lemma finish_parse_message uuid st p :
  finish_parse uuid st = Ok p ->
  match assistant_message p with
  | Some m =>
      m = make_assistant_message uuid (content p) (tool_invocations p)
      /\ (content p <> EmptyString \/ tool_invocations p <> [])
  | None => content p = EmptyString /\ tool_invocations p = []
  end.
Proof.
  unfold finish_parse. destruct (combine_tools _ _) as [ts|]; simpl; [|discriminate].
  intros [= <-]. simpl. destruct (assistant_content st) as [|c s]; simpl.
  - destruct ts; [auto|]. split; [reflexivity|]. right. discriminate.
  - split; [reflexivity|]. left. discriminate.
Qed.

Lemma swap_parsed_message uuid body p :
  Swap.parse_streaming_response json_loads uuid body = Ok p ->
  match assistant_message p with
  | Some m =>
      m = make_assistant_message uuid (content p) (tool_invocations p)
      /\ (content p <> EmptyString \/ tool_invocations p <> [])
  | None => content p = EmptyString /\ tool_invocations p = []
  end.
Proof. unfold Swap.parse_streaming_response. apply finish_parse_message. Qed.

(** X6.  The assistant message of a parsed response is there exactly when
    the response has content or tool invocations.  It then bundles them: its
    id is [msg-] followed by the fresh UUID, its role [assistant], its
    content and the text of its one part the content, its [toolInvocations]
    the merged list, and its annotation the agent [bitte-defi]. *)
Theorem assistant_message_bundles uuid body :
  (forall p, Swap.parse_streaming_response json_loads uuid body = Ok p ->
     match assistant_message p with
     | Some m =>
         m = make_assistant_message uuid (content p) (tool_invocations p)
         /\ (content p <> EmptyString \/ tool_invocations p <> [])
     | None => content p = EmptyString /\ tool_invocations p = []
     end)
  /\ (forall p, Final.parse_streaming_response json_loads uuid body = Final.Parsed p ->
       match assistant_message p with
       | Some m =>
           m = make_assistant_message uuid (content p) (tool_invocations p)
           /\ (content p <> EmptyString \/ tool_invocations p <> [])
       | None => content p = EmptyString /\ tool_invocations p = []
       end).
Proof.
  split; [intros p; apply swap_parsed_message|].
  intros p Hp. apply (swap_parsed_message uuid body), final_parsed_swap, Hp.
Qed.

(** X7.  The two parsers agree wherever [final.py]'s one succeeds: a body
    it parses, [swap.py] parses to the same dictionary; and a body on which
    [swap.py] raises, [final.py] answers with its error dictionary. *)
Theorem parsers_agree uuid body :
  (forall p, Final.parse_streaming_response json_loads uuid body = Final.Parsed p ->
             Swap.parse_streaming_response json_loads uuid body = Ok p)
  /\ (forall e, Swap.parse_streaming_response json_loads uuid body = Raise e ->
                exists err, Final.parse_streaming_response json_loads uuid body
                            = Final.ErrorDict err).
Proof.
  split; [intros p; apply final_parsed_swap|].
  intros e Hswap.
  destruct (Final.parse_streaming_response json_loads uuid body) as [p|err] eqn:Hfinal;
    [|eauto].
  apply final_parsed_swap in Hfinal. congruence.
Qed.

End WithDecoder.

Lemma content_is_concatenation_witness :
  let body := join_lines [text_line "Swap "; "0:17"; call_line "x"; text_line "ready."] in
  exists p, Final.parse_streaming_response Json.loads "u" body = Final.Parsed p
            /\ content p = String.concat EmptyString (text_events Json.loads body)
            /\ text_events Json.loads body = ["Swap "; "ready."]
            /\ content p = "Swap ready.".
Proof.
  eexists. split; [vm_compute; reflexivity|].
  split; [apply (proj2 (content_is_concatenation Json.loads "u" _)); vm_compute; reflexivity|].
  split; [vm_compute; reflexivity|reflexivity].
Defined.

(** *** A stream of text, written and read back *)

Lemma scan_string_literal s rest :
  literal s ->
  exists ps, Json.scan_string (s ++ String Json.quote rest) = Ok (ps, rest)
             /\ Json.encode_pieces ps = s.
Proof.
  unfold literal. induction s as [|c s IH]; intros Hs.
  - exists []. split; reflexivity.
  - simpl in Hs. apply andb_true_iff in Hs as [Hc Hs].
    apply andb_true_iff in Hc as [Hc Hctl]. apply andb_true_iff in Hc as [Hq Hb].
    apply negb_true_iff in Hq, Hb. apply Z.leb_le in Hctl.
    destruct (IH Hs) as (ps & Hps & Henc).
    exists (Json.Raw c :: ps). rewrite append_cons. cbn [Json.scan_string].
    rewrite Hq, Hb, Hps.
    destruct (char_code c <? 32) eqn:Hlt; [apply Z.ltb_lt in Hlt; lia|].
    split; [reflexivity|]. simpl. rewrite Henc. reflexivity.
Qed.

(** The decoder reads the literal of a string back. *)
Lemma loads_quoted s : literal s -> Json.loads (Json.quoted s) = Ok (VStr s).
Proof.
  intros Hs. unfold Json.loads, Json.quoted.
  assert (startswith (Json.utf8 65279) (String Json.quote (s ++ String Json.quote EmptyString))
          = false) as -> by reflexivity.
  assert (Json.skip_ws (String Json.quote (s ++ String Json.quote EmptyString))
          = String Json.quote (s ++ String Json.quote EmptyString)) as -> by reflexivity.
  destruct (scan_string_literal s EmptyString Hs) as (ps & Hps & Henc).
  replace (2 * String.length (String Json.quote (s ++ String Json.quote EmptyString)) + 2)%nat
    with (S (S (2 * String.length (String Json.quote (s ++ String Json.quote EmptyString)))))
    by lia.
  cbn [Json.scan_once]. change (Ascii.eqb Json.quote Json.quote) with true. cbv iota.
  unfold Json.scan_str. rewrite Hps, Henc. reflexivity.
Qed.

Lemma string_forallb_app p s t :
  string_forallb p (s ++ t) = string_forallb p s && string_forallb p t.
Proof.
  induction s as [|c s IH]; [reflexivity|]. rewrite append_cons. simpl.
  rewrite IH, andb_assoc. reflexivity.
Qed.

Lemma text_line_shape s :
  text_line s
  = (String "0" (String ":" (String Json.quote s)) ++ String Json.quote EmptyString)%string.
Proof. reflexivity. Qed.

Lemma text_line_stripped s : strip (text_line s) = text_line s.
Proof.
  unfold strip, strip_by. rewrite text_line_shape at 1. rewrite append_cons.
  cbn [lstrip_by]. change (is_space "0") with false. cbv iota.
  rewrite <- append_cons. rewrite <- text_line_shape. rewrite text_line_shape.
  apply AllocationFacts.rstrip_app; [discriminate|reflexivity].
Qed.

Lemma text_line_no_newline s : literal s -> no_newline (text_line s).
Proof.
  unfold literal, no_newline. intros Hs. rewrite text_line_shape.
  rewrite string_forallb_app. simpl. rewrite andb_true_r.
  induction s as [|c s IH]; [reflexivity|]. simpl in *.
  apply andb_true_iff in Hs as [Hc Hs]. rewrite (IH Hs), andb_true_r.
  apply andb_true_iff in Hc as [_ Hctl]. apply Z.leb_le in Hctl.
  destruct (Ascii.eqb c newline) eqn:E; [|reflexivity].
  apply Ascii.eqb_eq in E. subst c. vm_compute in Hctl. contradiction.
Qed.

Lemma text_line_payload s :
  is_empty (text_line s) = false
  /\ startswith "0:" (text_line s) = true
  /\ drop_chars 2 (text_line s) = Json.quoted s.
Proof. repeat split. Qed.

Lemma swap_scan_text_line st s :
  literal s -> Swap.scan_line Json.loads st (text_line s) = add_content st s.
Proof.
  intros Hs. unfold Swap.scan_line. rewrite text_line_stripped.
  destruct (text_line_payload s) as (-> & -> & ->). rewrite (loads_quoted s Hs).
  reflexivity.
Qed.

Lemma final_scan_text_line st s :
  literal s -> Final.scan_line Json.loads st (text_line s) = Ok (add_content st s).
Proof.
  intros Hs. unfold Final.scan_line. rewrite text_line_stripped.
  destruct (text_line_payload s) as (-> & -> & ->). rewrite (loads_quoted s Hs).
  reflexivity.
Qed.

Lemma add_content_texts st s ss :
  add_texts (add_content st s) ss = add_texts st (s :: ss).
Proof.
  unfold add_texts, add_content. cbn [assistant_content tool_calls tool_results].
  rewrite concat_empty_cons, append_assoc. reflexivity.
Qed.

Lemma swap_scan_text_lines ss : forall st,
  Forall literal ss ->
  Swap.scan_lines Json.loads st (map text_line ss) = add_texts st ss.
Proof.
  unfold Swap.scan_lines.
  induction ss as [|s ss IH]; intros st Hall.
  - unfold add_texts. simpl. rewrite append_empty_r. destruct st; reflexivity.
  - inversion Hall as [|? ? Hs Hss]; subst. cbn [map fold_left].
    rewrite swap_scan_text_line by exact Hs. rewrite IH by exact Hss.
    apply add_content_texts.
Qed.

Lemma final_scan_text_lines ss : forall st,
  Forall literal ss ->
  Final.scan_lines Json.loads st (map text_line ss) = Ok (add_texts st ss).
Proof.
  induction ss as [|s ss IH]; intros st Hall.
  - unfold add_texts. simpl. rewrite append_empty_r. destruct st; reflexivity.
  - inversion Hall as [|? ? Hs Hss]; subst. cbn [map Final.scan_lines].
    rewrite final_scan_text_line by exact Hs. simpl. rewrite IH by exact Hss.
    rewrite add_content_texts. reflexivity.
Qed.

Lemma finish_text_parse uuid text :
  finish_parse uuid (add_texts stream_init [text]) = Ok (text_parse uuid text).
Proof.
  unfold finish_parse, add_texts, text_parse. simpl.
  change (EmptyString ++ text)%string with text.
  destruct (is_empty text); reflexivity.
Qed.

(** X8.  A stream of [0:] lines, each carrying the JSON literal of a string,
    is read back by both parsers (with the reference decoder) as the
    concatenation of the strings: that text as content, no tool invocation,
    and an assistant message exactly when the text is not empty. *)
Theorem text_stream_round_trip uuid ss :
  Forall literal ss ->
  let body := join_lines (map text_line ss) in
  let text := String.concat EmptyString ss in
  Swap.parse_streaming_response Json.loads uuid body = Ok (text_parse uuid text)
  /\ Final.parse_streaming_response Json.loads uuid body
     = Final.Parsed (text_parse uuid text).
Proof.
  intros Hall. cbv zeta.
  assert (add_texts stream_init ss
          = add_texts stream_init [String.concat EmptyString ss]) as Hst by reflexivity.
  assert (ss <> [] ->
          split_lines (join_lines (map text_line ss)) = map text_line ss) as Hlines.
  { intros Hne. apply split_join_lines; [destruct ss; [contradiction|discriminate]|].
    apply Forall_map. eapply Forall_impl; [exact Hall|].
    intros x. apply text_line_no_newline. }
  destruct (decide (ss = [])) as [->|Hne]; [split; reflexivity|].
  specialize (Hlines Hne). split.
  - unfold Swap.parse_streaming_response.
    rewrite swap_scan_body, Hlines, swap_scan_text_lines, Hst by exact Hall.
    apply finish_text_parse.
  - unfold Final.parse_streaming_response.
    rewrite final_scan_body, Hlines, final_scan_text_lines, Hst by exact Hall.
    unfold mbind, result_bind. rewrite finish_text_parse. reflexivity.
Qed.

Lemma text_stream_round_trip_witness :
  Final.parse_streaming_response Json.loads "u"
    (join_lines [text_line "Swap 1 USDC"; text_line " to ETH?"])
  = Final.Parsed (text_parse "u" "Swap 1 USDC to ETH?").
Proof.
  apply (text_stream_round_trip "u" ["Swap 1 USDC"; " to ETH?"]).
  repeat constructor.
Defined.

End ContentFacts.

(** ** URLs and score lines *)
Module UrlFacts.
Import AllocationFacts.

Lemma startswith_iff p s : startswith p s = true <-> exists rest, s = (p ++ rest)%string.
Proof.
  split.
  - intros H. eexists. apply startswith_split, H.
  - intros [rest ->]. apply startswith_app.
Qed.

Lemma contains_iff sub s :
  contains sub s = true <-> exists pre post, s = (pre ++ sub ++ post)%string.
Proof.
  split.
  - induction s as [|c s IH]; cbn [contains]; rewrite orb_true_iff.
    + intros [H|H]; [|discriminate]. apply startswith_iff in H as [rest ->].
      exists EmptyString, rest. reflexivity.
    + intros [H|H].
      * apply startswith_iff in H as [rest ->]. exists EmptyString, rest. reflexivity.
      * destruct (IH H) as (pre & post & ->). exists (String c pre), post. reflexivity.
  - intros (pre & post & ->). induction pre as [|c pre IH].
    + change (EmptyString ++ sub ++ post)%string with (sub ++ post)%string.
      destruct (sub ++ post)%string eqn:E; cbn [contains]; rewrite <- E, startswith_app;
        reflexivity.
    + rewrite append_cons. cbn [contains]. rewrite IH. apply orb_true_r.
Qed.

(** X9.  [is_valid_twitter_url], the same function in both bots, accepts a
    text exactly when it begins with [http://] or [https://], in lower case,
    and its lower-case form contains [twitter.com] or [x.com] somewhere:
    not necessarily as the host. *)
Theorem valid_twitter_url_iff url :
  (Final.is_valid_twitter_url url = true <->
   ((exists pre post, lower url = (pre ++ "twitter.com" ++ post)%string)
    \/ (exists pre post, lower url = (pre ++ "x.com" ++ post)%string))
   /\ ((exists rest, url = ("http://" ++ rest)%string)
       \/ (exists rest, url = ("https://" ++ rest)%string)))
  /\ Chatbot.is_valid_twitter_url url = Final.is_valid_twitter_url url.
Proof.
  split; [|reflexivity]. unfold Final.is_valid_twitter_url. cbn [existsb].
  rewrite orb_false_r, andb_true_iff, !orb_true_iff, !contains_iff, !startswith_iff.
  reflexivity.
Qed.

End UrlFacts.

Module ScoreFacts.
Import LineSpec LineFacts AllocationFacts ContentFacts ScoreSpec.

Lemma rstrip_without p s :
  string_forallb (fun c => negb (p c)) s = true -> rstrip_by p s = s.
Proof.
  induction s as [|c s IH]; [reflexivity|]. simpl. intros H.
  apply andb_true_iff in H as [Hc Hs]. rewrite (IH Hs).
  apply negb_true_iff in Hc. rewrite Hc. destruct s; reflexivity.
Qed.

Lemma lstrip_without p s :
  string_forallb (fun c => negb (p c)) s = true -> lstrip_by p s = s.
Proof.
  destruct s as [|c s]; [reflexivity|]. simpl. intros H.
  apply andb_true_iff in H as [Hc _]. apply negb_true_iff in Hc. rewrite Hc. reflexivity.
Qed.

Lemma strip_solid s : solid s -> strip s = s.
Proof.
  intros H. unfold strip, strip_by. rewrite lstrip_without by exact H.
  apply rstrip_without, H.
Qed.

Lemma solid_no_newline s : solid s -> no_newline s.
Proof.
  unfold solid, no_newline. induction s as [|c s IH]; [reflexivity|]. simpl.
  intros H. apply andb_true_iff in H as [Hc Hs]. rewrite (IH Hs), andb_true_r.
  destruct (Ascii.eqb c newline) eqn:E; [|reflexivity].
  apply eqb_newline_space in E. rewrite E in Hc. discriminate.
Qed.

Lemma string_forallb_impl (p q : ascii -> bool) s :
  (forall c, p c = true -> q c = true) ->
  string_forallb p s = true -> string_forallb q s = true.
Proof.
  intros Hpq. induction s as [|c s IH]; [reflexivity|]. simpl. intros H.
  apply andb_true_iff in H as [Hc Hs]. rewrite (Hpq c Hc), (IH Hs). reflexivity.
Qed.

Lemma digit_not_space c : is_digit c = true -> negb (is_space c) = true.
Proof. destruct c as [[] [] [] [] [] [] [] []]; try discriminate; reflexivity. Qed.

Lemma digit_not_quote c : is_digit c = true -> negb (Ascii.eqb c Json.quote) = true.
Proof. destruct c as [[] [] [] [] [] [] [] []]; try discriminate; reflexivity. Qed.

Lemma rstrip_trailing p s q :
  string_forallb (fun c => negb (p c)) s = true -> p q = true ->
  rstrip_by p (s ++ String q EmptyString) = s.
Proof.
  intros Hs Hq. induction s as [|c s IH].
  - change (EmptyString ++ String q EmptyString)%string with (String q EmptyString).
    simpl. rewrite Hq. reflexivity.
  - simpl in Hs. apply andb_true_iff in Hs as [Hc Hs]. apply negb_true_iff in Hc.
    rewrite append_cons, rstrip_cons, (IH Hs). rewrite Hc. destruct s; reflexivity.
Qed.

(** The numeral, bare or between quotes, as the [0:] branch reads it. *)
Lemma unquote_numeral ds :
  string_forallb is_digit ds = true -> ds <> EmptyString ->
  strip_by (Ascii.eqb Json.quote) ds = ds
  /\ strip_by (Ascii.eqb Json.quote) (Json.quoted ds) = ds.
Proof.
  intros Hds Hne.
  assert (string_forallb (fun c => negb (Ascii.eqb Json.quote c)) ds = true) as Hq.
  { eapply string_forallb_impl; [|exact Hds]. intros c Hc.
    rewrite Ascii.eqb_sym. apply digit_not_quote, Hc. }
  unfold strip_by, Json.quoted. split.
  - rewrite lstrip_without by exact Hq. apply rstrip_without, Hq.
  - cbn [lstrip_by]. change (Ascii.eqb Json.quote Json.quote) with true. cbv iota.
    destruct ds as [|d ds]; [contradiction|]. rewrite append_cons. cbn [lstrip_by].
    cbn [string_forallb] in Hq. apply andb_true_iff in Hq as [Hd Hq'].
    apply negb_true_iff in Hd. rewrite Hd. rewrite <- append_cons.
    apply rstrip_trailing; [cbn [string_forallb]; rewrite Hd, Hq'|]; reflexivity.
Qed.

Section WithDecoder.

Variable json_loads : string -> result value.

Lemma score_line_numeral score payload n :
  strip_by (Ascii.eqb Json.quote) payload = str_of_int n -> 0 <= n ->
  Final.score_line json_loads score ("0:" ++ payload) = Ok n.
Proof.
  intros Hpayload Hn. unfold Final.score_line.
  assert (startswith "a:" ("0:" ++ payload) = false) as -> by reflexivity.
  rewrite (startswith_app "0:"), (drop_chars_app "0:"), Hpayload.
  destruct (str_of_int_digits n Hn) as (c & ds & Heq & Hc & Hds).
  assert (isdigit (str_of_int n) = true) as ->
    by (rewrite Heq; unfold isdigit; simpl; rewrite Hc, Hds; reflexivity).
  rewrite PreferenceFacts.str_of_int_numeral by exact Hn. reflexivity.
Qed.

Lemma score_of_solid_line body n :
  solid body -> Final.score_line json_loads 1 body = Ok n ->
  Final.analyze_twitter json_loads (Response 200 (Ok body)) = n
  /\ Chatbot.analyze_twitter json_loads (Response 200 (Ok body)) = n.
Proof.
  intros Hsolid Hline.
  unfold Final.analyze_twitter, Chatbot.analyze_twitter,
    Final.parse_twitter_scoring_response, Chatbot.parse_streaming_response.
  simpl. rewrite (strip_solid _ Hsolid), (split_lines_single _ (solid_no_newline _ Hsolid)).
  simpl. rewrite Hline. split; reflexivity.
Qed.


End WithDecoder.


End ScoreFacts.

(** ** Sessions of [final.py] *)
Module SessionFacts.
Import Final FinalSpec FinalFacts SessionSpec.

Ltac keep_step :=
  lazymatch goal with
  | |- keeps _ (mbind _ _) => apply keeps_bind; [|intros]
  | |- keeps _ (mret _) => apply keeps_ret
  | |- keeps _ (gets _) => apply keeps_gets
  | |- keeps _ (send _) => apply keeps_send
  | |- keeps _ (reply_text _) => apply keeps_send
  | |- keeps _ (edit_message_text _) => apply keeps_send
  | |- keeps _ (raise _) => apply keeps_raise
  | |- keeps _ (lift _) => apply keeps_lift
  | |- keeps _ (get_user_field _ _) => apply keeps_get_user_field
  | |- keeps _ (try_except _ _ _) => apply keeps_try_except; [|intros]
  | |- keeps _ (if ?c then _ else _) => destruct c eqn:?
  | |- keeps _ (match ?x with _ => _ end) => destruct x eqn:?
  end.

(** *** One user's update leaves the other users alone *)

Section Isolation.

Variable other : Z.
Variable held : option UserState * option (gmap string value) * option (list chat_message).
Variable signer : bool.

Lemma untouched_set_state uid s : uid <> other -> keeps (untouched other held signer) (set_state uid s).
Proof.
  intros Hne b [Hs Hg]. split; [|exact Hg]. unfold session in *. simpl.
  rewrite lookup_insert_ne by exact Hne. exact Hs.
Qed.

Lemma untouched_user_data uid fields :
  uid <> other -> keeps (untouched other held signer) (modify (with_user_data (insert uid fields))).
Proof.
  intros Hne b [Hs Hg]. split; [|exact Hg]. unfold session in *. simpl.
  rewrite lookup_insert_ne by exact Hne. exact Hs.
Qed.

Lemma untouched_chat_histories f :
  (forall h, f h !! other = h !! other) ->
  keeps (untouched other held signer) (modify (with_chat_histories f)).
Proof.
  intros Hf b [Hs Hg]. split; [|exact Hg]. unfold session in *. simpl.
  rewrite Hf. exact Hs.
Qed.

Lemma untouched_set_user_field uid key v :
  uid <> other -> keeps (untouched other held signer) (set_user_field uid key v).
Proof.
  intros Hne. unfold set_user_field. keep_step; [keep_step|].
  keep_step; [apply untouched_user_data, Hne|keep_step].
Qed.

Ltac isolate_step Hne :=
  lazymatch goal with
  | |- keeps _ (set_state _ _) => apply untouched_set_state, Hne
  | |- keeps _ (set_user_field _ _ _) => apply untouched_set_user_field, Hne
  | |- keeps _ (modify (with_user_data (insert _ _))) => apply untouched_user_data, Hne
  | |- keeps _ (modify (with_chat_histories _)) =>
      apply untouched_chat_histories; intros h;
      first [ apply lookup_insert_ne, Hne
            | apply lookup_alter_ne, Hne
            | destruct (h !! _); [reflexivity|apply lookup_insert_ne, Hne] ]
  | |- _ => keep_step
  end.

Ltac isolate Hne := cbv zeta; repeat (isolate_step Hne; cbv zeta).

Lemma untouched_cleanup uid : uid <> other -> keeps (untouched other held signer) (cleanup_user_data uid).
Proof. intros Hne. unfold cleanup_user_data. isolate Hne. Qed.

Section WithDecoder.

Variable json_loads : string -> result value.

Lemma untouched_dispatch e user_message uid :
  uid <> other -> keeps (untouched other held signer) (dispatch_message json_loads e user_message uid).
Proof.
  intros Hne. unfold dispatch_message. keep_step; [keep_step|].
  destruct a.
  - unfold handle_twitter_url. isolate Hne.
  - unfold handle_wallet_address. isolate Hne.
  - unfold handle_swap_request, send_to_bitte_ai. isolate Hne.
  - cbv zeta. destruct (existsb _ _).
    { unfold execute_bitte_swap_from_message, process_tool_invocations.
      isolate Hne; apply untouched_cleanup, Hne. }
    destruct (existsb _ _).
    { unfold cancel_swap_from_message. isolate Hne. }
    unfold handle_swap_request, send_to_bitte_ai. isolate Hne.
  - keep_step.
Qed.

Lemma untouched_handle_update e u :
  update_user u <> other -> keeps (untouched other held signer) (handle_update json_loads e u).
Proof.
  intros Hne. destruct u as [uid|uid|uid|uid|uid data|m]; cbn [handle_update update_user] in *.
  - unfold start. isolate Hne.
  - apply keeps_send.
  - unfold show_wallet_info. isolate Hne.
  - unfold reset_conversation. isolate Hne.
  - unfold handle_callback, execute_bitte_swap, cancel_swap, process_tool_invocations.
    isolate Hne; apply untouched_cleanup, Hne.
  - unfold handle_message. cbv zeta.
    destruct (existsb _ _); [|apply untouched_dispatch, Hne].
    destruct (negb _); [keep_step|apply untouched_dispatch, Hne].
Qed.

End WithDecoder.
End Isolation.

(** X11.  An update of one user leaves every other user as they were:
    their state, their stored data and their chat history are the same in
    the bot after the update, whether the handler returned or raised. *)
Theorem final_users_isolated json_loads e u b other :
  other <> update_user u ->
  session other (step json_loads e u b) = session other b
  /\ signer_configured (step json_loads e u b) = signer_configured b.
Proof.
  intros Hne.
  apply (untouched_handle_update other (session other b) (signer_configured b)
           json_loads e u (not_eq_sym Hne) b).
  split; reflexivity.
Qed.

Lemma final_users_isolated_witness :
  session 8 (step Json.loads story_env (private_message "yes") awaiting_confirmation)
  = session 8 awaiting_confirmation
  /\ session 7 (step Json.loads story_env (private_message "yes") awaiting_confirmation)
     <> session 7 awaiting_confirmation.
Proof.
  split.
  - apply (final_users_isolated Json.loads story_env (private_message "yes")
             awaiting_confirmation 8).
    discriminate.
  - vm_compute. discriminate.
Defined.

(** *** The edges of the conversation *)

Lemma bind_gets_state {A B} (f : bot -> A) (k : A -> H B) b :
  snd (fst ((gets f ≫= k) b)) = snd (fst (k (f b) b)).
Proof.
  unfold mbind, handler_mbind, handler_bind, gets.
  destruct (k (f b) b) as [[r s] out]. reflexivity.
Qed.

Section Edges.

Variable uid : Z.

Lemma follows_set_state from s :
  may_follow from s = true -> keeps (follows uid from) (set_state uid s).
Proof.
  intros Hs b _. unfold follows, current_state. simpl.
  rewrite lookup_insert_eq. exact Hs.
Qed.

Lemma follows_user_data from f : keeps (follows uid from) (modify (with_user_data f)).
Proof. intros b Hb. exact Hb. Qed.

Lemma follows_chat_histories from f :
  keeps (follows uid from) (modify (with_chat_histories f)).
Proof. intros b Hb. exact Hb. Qed.

Lemma follows_set_user_field from key v :
  keeps (follows uid from) (set_user_field uid key v).
Proof.
  unfold set_user_field. keep_step; [keep_step|].
  keep_step; [apply follows_user_data|keep_step].
Qed.

Ltac follow_step :=
  lazymatch goal with
  | |- keeps _ (set_state _ _) => apply follows_set_state; reflexivity
  | |- keeps _ (set_user_field _ _ _) => apply follows_set_user_field
  | |- keeps _ (modify (with_user_data _)) => apply follows_user_data
  | |- keeps _ (modify (with_chat_histories _)) => apply follows_chat_histories
  | |- _ => keep_step
  end.

Ltac follow := cbv zeta; repeat (follow_step; cbv zeta).

Lemma follows_cleanup from :
  may_follow from IDLE = true -> keeps (follows uid from) (cleanup_user_data uid).
Proof.
  intros Hidle. unfold cleanup_user_data.
  apply keeps_bind; [apply follows_set_state, Hidle|intros _]. follow.
Qed.

Section WithDecoder.

Variable json_loads : string -> result value.

Lemma follows_handle_swap_request from e request :
  may_follow from WAITING_FOR_SWAP_CONFIRMATION = true ->
  keeps (follows uid from) (handle_swap_request json_loads e request uid).
Proof.
  intros Hc. unfold handle_swap_request, send_to_bitte_ai. cbv zeta.
  repeat (first [apply follows_set_state, Hc|follow_step]; cbv zeta).
Qed.

Lemma follows_dispatch e user_message b :
  follows uid (current_state uid b)
    (snd (fst (dispatch_message json_loads e user_message uid b))).
Proof.
  assert (forall from, follows uid from b -> current_state uid b = from ->
            follows uid from (snd (fst (dispatch_message json_loads e user_message uid b))))
    as Hfrom.
  { intros from Hb Hfrom. unfold dispatch_message. rewrite bind_gets_state, Hfrom.
    revert b Hb Hfrom.
    assert (forall m : H unit, keeps (follows uid from) m ->
              forall b, follows uid from b -> current_state uid b = from ->
                        follows uid from (snd (fst (m b))))
      as Hrun by (intros m Hm b Hb _; apply Hm, Hb).
    destruct from; apply Hrun.
    - unfold handle_twitter_url. follow.
    - unfold handle_wallet_address. follow.
    - apply follows_handle_swap_request. reflexivity.
    - cbv zeta. destruct (existsb _ _).
      { unfold execute_bitte_swap_from_message, process_tool_invocations.
        follow; apply follows_cleanup; reflexivity. }
      destruct (existsb _ _).
      { unfold cancel_swap_from_message. follow. }
      apply follows_handle_swap_request. reflexivity.
    - apply keeps_send. }
  apply Hfrom; [|reflexivity].
  unfold follows. destruct (current_state uid b); reflexivity.
Qed.

End WithDecoder.
End Edges.

(** X12.  A text message moves the conversation along an edge of the
    state machine only: from idle nowhere, from the awaited URL to the
    awaited wallet address, from there to the awaited swap request, from
    there to the awaited confirmation, and from there back to the swap
    request or on to idle; or it leaves the state where it is.  This holds
    of every bot and whether the handler returned or raised. *)
Theorem text_message_follows_edge json_loads e m b :
  may_follow (current_state (user_id m) b)
    (current_state (user_id m) (step json_loads e (TextMessage m) b)) = true.
Proof.
  unfold step. cbn [handle_update].
  assert (may_follow (current_state (user_id m) b) (current_state (user_id m) b) = true)
    as Hrefl by (destruct (current_state _ _); reflexivity).
  unfold handle_message. cbv zeta.
  destruct (existsb _ _).
  - destruct (negb _); [exact Hrefl|]. apply follows_dispatch.
  - apply follows_dispatch.
Qed.

Section Commands.

Variable uid : Z.
Variable before : UserState.

Lemma after_callback_set_state s :
  s = IDLE \/ s = WAITING_FOR_SWAP_REQUEST -> keeps (after_callback uid before) (set_state uid s).
Proof.
  intros Hs b _. unfold after_callback, current_state. simpl.
  rewrite lookup_insert_eq. simpl. tauto.
Qed.

Lemma after_callback_user_data f : keeps (after_callback uid before) (modify (with_user_data f)).
Proof. intros b Hb. exact Hb. Qed.

Lemma after_callback_set_user_field key v :
  keeps (after_callback uid before) (set_user_field uid key v).
Proof.
  unfold set_user_field. keep_step; [keep_step|].
  keep_step; [apply after_callback_user_data|keep_step].
Qed.

Lemma after_callback_handle e data : keeps (after_callback uid before) (handle_callback e uid data).
Proof.
  unfold handle_callback, execute_bitte_swap, cancel_swap, process_tool_invocations,
    cleanup_user_data.
  cbv zeta.
  repeat (first [ apply after_callback_set_state; auto
                | apply after_callback_set_user_field
                | apply after_callback_user_data
                | keep_step ]; cbv zeta).
Qed.

End Commands.

Lemma show_wallet_info_state uid b : snd (fst (show_wallet_info uid b)) = b.
Proof.
  symmetry. assert (keeps (eq b) (show_wallet_info uid)) as Hkeep.
  { unfold show_wallet_info. cbv zeta. repeat (keep_step; cbv zeta). }
  apply (Hkeep b eq_refl).
Qed.

(** X13.  What the commands and the buttons do to the state of their user:
    [/start] sets the awaited URL; [/help] and [/wallet] change nothing in
    the bot; after [/reset] the user is idle; and a callback query leaves
    the state where it was or sets it to idle or to the awaited swap
    request, whatever the state was and whatever data the query carries. *)
Theorem command_transitions json_loads e uid b :
  current_state uid (step json_loads e (StartCommand uid) b) = WAITING_FOR_TWITTER_URL
  /\ step json_loads e (HelpCommand uid) b = b
  /\ step json_loads e (WalletCommand uid) b = b
  /\ current_state uid (step json_loads e (ResetCommand uid) b) = IDLE
  /\ (forall data,
        let b' := step json_loads e (CallbackQuery uid data) b in
        current_state uid b' = current_state uid b
        \/ current_state uid b' = IDLE
        \/ current_state uid b' = WAITING_FOR_SWAP_REQUEST).
Proof.
  unfold step. cbn [handle_update]. split; [|split; [|split; [|split]]].
  - unfold current_state. simpl. rewrite lookup_insert_eq. reflexivity.
  - reflexivity.
  - apply show_wallet_info_state.
  - unfold reset_conversation, mbind, handler_mbind, handler_bind, gets, current_state.
    case_bool_decide as Hknown; simpl.
    + rewrite lookup_insert_eq. reflexivity.
    + destruct (user_states b !! uid) eqn:E; [|reflexivity].
      exfalso. apply Hknown. eauto.
  - intros data. apply (after_callback_handle uid (current_state uid b) e data b).
    left. reflexivity.
Qed.

End SessionFacts.

(** ** Requests to the agent *)
Module AgentFacts.
Import Final FinalSpec FinalFacts AgentSpec.

(** Running a handler on a bot whose lookups are known. *)
Ltac run_handler H :=
  repeat first
    [ progress cbn [user_data chat_histories user_states signer_configured
                    fst snd app negb]
    | rewrite H
    | rewrite lookup_insert_eq ].

Section WithDecoder.

Variable json_loads : string -> result value.

Lemma history_opened (h : gmap Z (list chat_message)) uid l :
  alter (fun x => (x ++ l)%list) uid
    (match h !! uid with Some _ => h | None => <[uid := []]> h end)
  = <[uid := (default [] (h !! uid) ++ l)%list]> h.
Proof.
  destruct (h !! uid) as [x|] eqn:Hx; simpl.
  - apply map_eq. intros i. destruct (decide (i = uid)) as [->|Hne].
    + rewrite lookup_alter_eq, lookup_insert_eq, Hx. reflexivity.
    + rewrite lookup_alter_ne, lookup_insert_ne by congruence. reflexivity.
  - rewrite alter_insert_eq. reflexivity.
Qed.

Lemma history_grown (h : gmap Z (list chat_message)) uid l l' :
  alter (fun x => (x ++ l')%list) uid (<[uid := l]> h) = <[uid := (l ++ l')%list]> h.
Proof. rewrite alter_insert_eq. reflexivity. Qed.

(** [send_to_bitte_ai] in closed form. *)
Lemma send_to_bitte_ai_run e uid prize_amount request b :
  let response := agent_response json_loads e (bool_decide (is_Some (user_data b !! uid))) in
  send_to_bitte_ai json_loads e uid prize_amount request b
  = (Ok response,
     {| user_states := user_states b;
        user_data := with_session e uid (user_data b);
        chat_histories :=
          <[uid := (default [] (chat_histories b !! uid)
                    ++ exchanged e prize_amount request response)%list]>
            (chat_histories b);
        signer_configured := signer_configured b |},
     []).
Proof.
  cbv zeta. unfold send_to_bitte_ai, try_except, agent_response, with_session, exchanged.
  unfold set_user_field, get_user_field, has_user_field.
  unfold mbind, handler_mbind, handler_bind, modify, gets,
    with_chat_histories, with_user_data, raise, lift, mret, handler_mret,
    handler_ret.
  cbn [user_data chat_histories user_states signer_configured fst snd].
  rewrite history_opened.
  destruct (user_data b !! uid) as [fields|] eqn:Hdata.
  2: { rewrite bool_decide_eq_false_2 by (intros [? ?]; discriminate).
       run_handler Hdata. reflexivity. }
  rewrite (bool_decide_eq_true_2 (is_Some (Some fields))) by eauto.
  destruct (fields !! "session_id") as [sid|] eqn:Hsid.
  - rewrite (bool_decide_eq_true_2 (is_Some (Some sid))) by eauto.
    run_handler Hdata. run_handler Hsid.
    destruct (agent_exchange e) as [ex|status body]; [reflexivity|].
    destruct (status =? 200); run_handler Hdata; [|reflexivity].
    destruct body as [text|ex]; run_handler Hdata; [|reflexivity].
    destruct (parse_streaming_response json_loads (assistant_uuid e) text)
      as [[[m|] c t]|err]; run_handler Hdata; rewrite ?history_grown;
      try rewrite <- app_assoc; reflexivity.
  - rewrite (bool_decide_eq_false_2 (is_Some None)) by (intros [? ?]; discriminate).
    run_handler Hdata. run_handler Hsid.
    destruct (agent_exchange e) as [ex|status body]; [reflexivity|].
    destruct (status =? 200); run_handler Hdata; [|reflexivity].
    destruct body as [text|ex]; run_handler Hdata; [|reflexivity].
    destruct (parse_streaming_response json_loads (assistant_uuid e) text)
      as [[[m|] c t]|err]; run_handler Hdata; rewrite ?history_grown;
      try rewrite <- app_assoc; reflexivity.
Qed.

(** X14.  [send_to_bitte_ai] never raises and sends nothing to the chat.
    Whatever the outcome of the request, the user's message is appended to
    the user's chat history, and the assistant's message after it when the
    response was parsed with one; the histories of the other users, and the
    states of all, stay as they are; the session identifier is created when
    the user's data has none and is left alone otherwise.  A user without
    data gets the error dictionary of a [KeyError], a failed request or a
    status other than 200 its error dictionary, and any other response what
    [parse_streaming_response] makes of the body. *)
Theorem send_to_bitte_ai_effect e uid prize_amount request b :
  exists response b',
    send_to_bitte_ai json_loads e uid prize_amount request b = (Ok response, b', [])
    /\ response = agent_response json_loads e (bool_decide (is_Some (user_data b !! uid)))
    /\ chat_histories b' !! uid
       = Some (default [] (chat_histories b !! uid)
               ++ exchanged e prize_amount request response)%list
    /\ (forall other, other <> uid ->
          chat_histories b' !! other = chat_histories b !! other)
    /\ user_data b' = with_session e uid (user_data b)
    /\ user_states b' = user_states b
    /\ signer_configured b' = signer_configured b.
Proof.
  do 2 eexists. split; [apply send_to_bitte_ai_run|]. cbn.
  split; [reflexivity|]. split; [apply lookup_insert_eq|].
  split; [intros other Hne; apply lookup_insert_ne; congruence|].
  repeat split.
Qed.

(** *** The swap request *)

Lemma bind_run {A B} (m : H A) (f : A -> H B) b a b1 out :
  m b = (Ok a, b1, out) ->
  (m ≫= f) b = (let '(r, b2, out') := f a b1 in (r, b2, (out ++ out')%list)).
Proof. intros Hm. unfold mbind, handler_mbind, handler_bind. rewrite Hm. reflexivity. Qed.

Lemma combine_tools_dicts table calls : forall entries,
  combine_tools table calls = Ok entries -> Forall is_dict entries.
Proof.
  induction calls as [|c calls IH]; intros entries; simpl.
  - intros [= <-]. constructor.
  - destruct (combine_tool table c) as [t|] eqn:Hc; simpl; [|discriminate].
    destruct (combine_tools table calls) as [ts|]; simpl; [|discriminate].
    intros [= <-]. constructor; [|apply IH; reflexivity].
    unfold combine_tool in Hc.
    destruct (py_get "toolCallId" c) as [k|]; simpl in Hc; [|discriminate].
    destruct (kdict_mem k table) as [[]|]; simpl in Hc; try discriminate;
      destruct (dict_fields c); simpl in Hc; try discriminate.
    + destruct (kdict_getitem k table); simpl in Hc; [|discriminate].
      destruct (py_get_default _ _ _); simpl in Hc; [|discriminate].
      injection Hc as <-. eexists. reflexivity.
    + injection Hc as <-. eexists. reflexivity.
Qed.

Lemma parsed_tools_dicts uuid body p :
  parse_streaming_response json_loads uuid body = Parsed p ->
  Forall is_dict (tool_invocations p).
Proof.
  unfold parse_streaming_response.
  destruct (scan_lines json_loads stream_init _) as [st|]; simpl; [|discriminate].
  unfold finish_parse.
  destruct (combine_tools _ _) as [ts|] eqn:Hts; simpl; [|discriminate].
  intros [= <-]. simpl. eapply combine_tools_dicts, Hts.
Qed.

Lemma agent_response_dicts e known p :
  agent_response json_loads e known = Parsed p -> Forall is_dict (tool_invocations p).
Proof.
  unfold agent_response. destruct known; [|discriminate].
  destruct (agent_exchange e) as [|status body]; [discriminate|].
  destruct (status =? 200); [|discriminate].
  destruct body; [|discriminate]. apply parsed_tools_dicts.
Qed.

Lemma has_swap_tool_dicts tools :
  Forall is_dict tools -> has_swap_tool tools = Ok (offers_swap tools).
Proof.
  induction 1 as [|inv tools [d ->] _ IH]; [reflexivity|].
  cbn [has_swap_tool offers_swap existsb py_get]. unfold mbind, result_bind.
  rewrite IH. fold (offers_swap tools).
  destruct (dict_get "toolName" d) as [[]|]; try reflexivity.
  simpl. destruct (_ || _); reflexivity.
Qed.

(** [handle_swap_request] for a user whose prize and wallet address are
    stored. *)
Lemma handle_swap_request_run e request uid b fields prize_amount wallet_address :
  user_data b !! uid = Some fields ->
  fields !! "prize_amount" = Some prize_amount ->
  fields !! "wallet_address" = Some wallet_address ->
  exists b' out,
    handle_swap_request json_loads e request uid b = (Ok tt, b', out)
    /\ match agent_response json_loads e true with
       | ErrorDict err =>
           user_states b' = user_states b
           /\ user_data b' = with_session e uid (user_data b)
           /\ out = [ReplyText ProcessingSwapText; ReplyText (AgentErrorText err)]
       | Parsed p =>
           let shown := if is_empty (content p) then default_swap_content else content p in
           (exists stored,
              user_data b' !! uid = Some stored
              /\ stored !! "pending_tool_invocations" = Some (VList (tool_invocations p)))
           /\ if offers_swap (tool_invocations p)
              then user_states b' = <[uid := WAITING_FOR_SWAP_CONFIRMATION]> (user_states b)
                   /\ out = [ReplyText ProcessingSwapText;
                             ReplyWithConfirmKeyboard (ConfirmSwapText shown) uid]
              else user_states b' = user_states b
                   /\ out = [ReplyText ProcessingSwapText;
                             ReplyText (TryAnotherSwapText shown)]
       end.
Proof.
  intros Hdata Hprize Hwallet. unfold handle_swap_request.
  assert (has_user_field uid "prize_amount" b = true) as Hhas.
  { unfold has_user_field. rewrite Hdata, Hprize. apply bool_decide_eq_true_2. eauto. }
  erewrite bind_run by (unfold gets; rewrite Hhas; reflexivity). cbn [negb].
  erewrite bind_run by (apply (get_user_field_run _ _ _ _ _ Hdata Hprize)).
  erewrite bind_run by (apply (get_user_field_run _ _ _ _ _ Hdata Hwallet)).
  erewrite bind_run by reflexivity.
  erewrite bind_run by apply send_to_bitte_ai_run.
  rewrite (bool_decide_eq_true_2 (is_Some (user_data b !! uid))) by eauto.
  pose proof (agent_response_dicts e true) as Hdicts.
  destruct (agent_response json_loads e true) as [p|err].
  - specialize (Hdicts p eq_refl). cbv zeta.
    erewrite bind_run by (unfold lift; rewrite (has_swap_tool_dicts _ Hdicts); reflexivity).
    assert (exists stored, with_session e uid (user_data b) !! uid = Some stored) as [f1 Hf1].
    { unfold with_session. rewrite Hdata. case_bool_decide; [eauto|].
      rewrite lookup_insert_eq. eauto. }
    erewrite bind_run by (apply set_user_field_run; exact Hf1).
    destruct (offers_swap (tool_invocations p)); cbn; do 2 eexists;
      (split; [reflexivity|]); cbn; rewrite lookup_insert_eq;
      (split; [eexists; split; [reflexivity|apply lookup_insert_eq]|]);
      split; reflexivity.
  - cbn. do 2 eexists. split; [reflexivity|]. cbn. repeat split.
Qed.

(** X15.  For a user whose prize and wallet address are stored,
    [handle_swap_request] returns without raising, whatever the agent
    answers.  On an error dictionary it reports the error and touches no
    state.  On a parsed response it stores the tool invocations as pending,
    replacing what was pending; it sets the awaited confirmation and shows
    the keyboard exactly when one of the invocations is named [swap] or
    [generate-evm-tx], and otherwise leaves the state and asks for another
    request.  The text shown is the content of the response, or the default
    sentence when the content is empty. *)
Theorem handle_swap_request_outcome e request uid b fields prize_amount wallet_address :
  user_data b !! uid = Some fields ->
  fields !! "prize_amount" = Some prize_amount ->
  fields !! "wallet_address" = Some wallet_address ->
  exists b' out,
    handle_swap_request json_loads e request uid b = (Ok tt, b', out)
    /\ match agent_response json_loads e true with
       | ErrorDict err =>
           user_states b' = user_states b
           /\ user_data b' = with_session e uid (user_data b)
           /\ out = [ReplyText ProcessingSwapText; ReplyText (AgentErrorText err)]
       | Parsed p =>
           let shown := if is_empty (content p) then default_swap_content else content p in
           (exists stored,
              user_data b' !! uid = Some stored
              /\ stored !! "pending_tool_invocations" = Some (VList (tool_invocations p)))
           /\ if offers_swap (tool_invocations p)
              then user_states b' = <[uid := WAITING_FOR_SWAP_CONFIRMATION]> (user_states b)
                   /\ out = [ReplyText ProcessingSwapText;
                             ReplyWithConfirmKeyboard (ConfirmSwapText shown) uid]
              else user_states b' = user_states b
                   /\ out = [ReplyText ProcessingSwapText;
                             ReplyText (TryAnotherSwapText shown)]
       end.
Proof. apply handle_swap_request_run. Qed.

End WithDecoder.

Lemma handle_swap_request_outcome_witness :
  exists b' out,
    handle_swap_request Json.loads story_env "all to ETH" 7 awaiting_request
    = (Ok tt, b', out)
    /\ match agent_response Json.loads story_env true with
       | ErrorDict err =>
           user_states b' = user_states awaiting_request
           /\ user_data b' = with_session story_env 7 (user_data awaiting_request)
           /\ out = [ReplyText ProcessingSwapText; ReplyText (AgentErrorText err)]
       | Parsed p =>
           let shown := if is_empty (content p) then default_swap_content else content p in
           (exists stored,
              user_data b' !! 7 = Some stored
              /\ stored !! "pending_tool_invocations" = Some (VList (tool_invocations p)))
           /\ if offers_swap (tool_invocations p)
              then user_states b'
                   = <[7 := WAITING_FOR_SWAP_CONFIRMATION]> (user_states awaiting_request)
                   /\ out = [ReplyText ProcessingSwapText;
                             ReplyWithConfirmKeyboard (ConfirmSwapText shown) 7]
              else user_states b' = user_states awaiting_request
                   /\ out = [ReplyText ProcessingSwapText;
                             ReplyText (TryAnotherSwapText shown)]
       end.
Proof.
  apply (handle_swap_request_outcome Json.loads story_env "all to ETH" 7 awaiting_request
           request_fields (default VNone (request_fields !! "prize_amount"))
           (VStr valid_address));
    vm_compute; reflexivity.
Defined.

End AgentFacts.

(** ** Executing a swap *)
Module ExecutionFacts.
Import Final FinalSpec FinalFacts AgentFacts ExecutionSpec.

Lemma stateless_ret {A} (a : A) : stateless (mret a).
Proof. exists (Ok a). reflexivity. Qed.

Lemma stateless_lift {A} (r : result A) : stateless (lift r).
Proof. exists r. reflexivity. Qed.

Lemma stateless_bind {A B} (m : H A) (f : A -> H B) :
  stateless m -> (forall a, stateless (f a)) -> stateless (m ≫= f).
Proof.
  intros [r Hm] Hf. destruct r as [a|e].
  - destruct (Hf a) as [r' Hfa]. exists r'. intros b.
    rewrite (bind_run _ _ _ _ _ _ (Hm b)), Hfa. reflexivity.
  - exists (Raise e). intros b. unfold mbind, handler_mbind, handler_bind.
    rewrite Hm. reflexivity.
Qed.

Ltac stateless_step :=
  lazymatch goal with
  | |- stateless (mbind _ _) => apply stateless_bind; [|intros]
  | |- stateless (mret _) => apply stateless_ret
  | |- stateless (lift _) => apply stateless_lift
  | |- stateless (if ?c then _ else _) => destruct c
  | |- stateless (match ?x with _ => _ end) => destruct x
  end.

Lemma execute_pending_stateless e v : stateless (execute_pending e v).
Proof. unfold execute_pending. cbv zeta. repeat (stateless_step; cbv zeta). Qed.

(** [process_tool_invocations] by cases. *)
Lemma process_tool_invocations_cases e uid b :
  process_tool_invocations e uid b =
  match user_data b !! uid ≫= (.!! "pending_tool_invocations") with
  | None => (Ok (SwapFailure NoPendingSwap), b, [])
  | Some v =>
      if signer_configured b then execute_pending e v b
      else (Ok (SwapFailure NoWalletConfigured), b, [])
  end.
Proof.
  unfold process_tool_invocations.
  destruct (user_data b !! uid) as [fields|] eqn:Hdata; cbn [mbind option_bind].
  - destruct (fields !! "pending_tool_invocations") as [v|] eqn:Hv.
    + erewrite bind_run
        by (unfold gets, has_user_field; rewrite Hdata, Hv;
            rewrite bool_decide_eq_true_2 by eauto; reflexivity).
      cbn [negb]. erewrite bind_run by (apply (get_user_field_run _ _ _ _ _ Hdata Hv)).
      erewrite bind_run by reflexivity.
      destruct (signer_configured b); cbn [negb]; [|reflexivity].
      fold (execute_pending e v).
      destruct (execute_pending e v b) as [[r s] out]. reflexivity.
    + erewrite bind_run
        by (unfold gets, has_user_field; rewrite Hdata, Hv;
            rewrite bool_decide_eq_false_2 by (intros [? ?]; discriminate);
            reflexivity).
      reflexivity.
  - erewrite bind_run by (unfold gets, has_user_field; rewrite Hdata; reflexivity).
    reflexivity.
Qed.

Lemma execute_pending_success e v b h message b' out :
  execute_pending e v b = (Ok (SwapSuccess h message), b', out) ->
  chain_outcome e = Ok h /\ h <> EmptyString.
Proof.
  unfold execute_pending, mbind at 1 2 3, handler_mbind, handler_bind, lift.
  destruct (py_iter v) as [invs|]; [|discriminate].
  destruct (collect_tools (VNone, VNone) invs) as [[swap_data tx_data]|]; [|discriminate].
  destruct (if truthy tx_data then _ else _) as [[]|]; try discriminate.
  - destruct (py_getitem "params" tx_data) as [params|]; simpl; [|discriminate].
    destruct (py_first params) as [tx_params|]; simpl; [|discriminate].
    destruct (chain_outcome e) as [tx_hash|]; simpl; [|discriminate].
    destruct (is_empty tx_hash) eqn:Hempty; simpl; [discriminate|].
    destruct (success_message swap_data); simpl; [|discriminate].
    intros [= <- _ _ _]. split; [reflexivity|]. intros ->. discriminate.
  - destruct (truthy swap_data); discriminate.
Qed.

(** X16.  [process_tool_invocations] reports a success only when
    [execute_transaction] returned a transaction hash: the hash reported is
    the one it returned, it is not empty, and a signing account is
    configured and tool invocations were pending.  The function changes
    nothing in the bot and sends nothing. *)
Theorem swap_success_needs_chain e uid b tx_hash message b' out :
  process_tool_invocations e uid b = (Ok (SwapSuccess tx_hash message), b', out) ->
  chain_outcome e = Ok tx_hash
  /\ tx_hash <> EmptyString
  /\ signer_configured b = true
  /\ has_user_field uid "pending_tool_invocations" b = true
  /\ b' = b /\ out = [].
Proof.
  intros Hrun.
  pose proof (process_tool_invocations_state e uid b) as Hstate.
  rewrite Hrun in Hstate. cbn [fst snd] in Hstate. subst b'.
  rewrite process_tool_invocations_cases in Hrun.
  unfold has_user_field.
  destruct (user_data b !! uid) as [fields|]; cbn [mbind option_bind] in Hrun;
    [|discriminate].
  destruct (fields !! "pending_tool_invocations") as [v|]; [|discriminate].
  destruct (signer_configured b); [|discriminate].
  destruct (execute_pending_stateless e v) as [r Hr]. rewrite Hr in Hrun.
  injection Hrun as -> <-.
  destruct (execute_pending_success e v b _ _ _ _ (Hr b)) as [Hchain Hne].
  split; [exact Hchain|]. split; [exact Hne|]. split; [reflexivity|].
  split; [apply bool_decide_eq_true_2; eauto|]. split; reflexivity.
Qed.

Lemma swap_success_needs_chain_witness :
  process_tool_invocations accepting_env 7 signing_bot
  = (Ok (SwapSuccess "0xabc" ExecutedSuccessfully), signing_bot, [])
  /\ chain_outcome accepting_env = Ok "0xabc"
  /\ "0xabc" <> EmptyString
  /\ signer_configured signing_bot = true
  /\ has_user_field 7 "pending_tool_invocations" signing_bot = true
  /\ signing_bot = signing_bot /\ @nil action = [].
Proof.
  split; [vm_compute; reflexivity|].
  apply (swap_success_needs_chain accepting_env 7 signing_bot "0xabc" ExecutedSuccessfully).
  vm_compute. reflexivity.
Defined.

(** X17.  Without a signing account a confirmed swap never reaches
    [execute_transaction]: pressed on the button or confirmed by a message,
    it returns without raising, reports that no wallet is configured (or
    that nothing was pending), and cleans the user's data up; the outcome
    is the same whatever the transaction would have done. *)
Theorem unsigned_swap_fails_cleanly e uid b :
  signer_configured b = false ->
  execute_bitte_swap e uid b
  = (Ok tt, cleaned uid b,
     [EditMessageText ExecutingSwapText;
      EditMessageText (SwapFailedText (unsigned_failure uid b))])
  /\ execute_bitte_swap_from_message e uid b
     = (Ok tt, cleaned uid b,
        [ReplyText ExecutingSwapText; ReplyText (SwapFailedText (unsigned_failure uid b))]).
Proof.
  intros Hsigner.
  assert (process_tool_invocations e uid b = (Ok (SwapFailure (unsigned_failure uid b)), b, []))
    as Hrun.
  { rewrite process_tool_invocations_cases. unfold unsigned_failure, has_user_field.
    destruct (user_data b !! uid) as [fields|]; cbn [mbind option_bind]; [|reflexivity].
    destruct (fields !! "pending_tool_invocations") as [v|].
    - rewrite Hsigner, bool_decide_eq_true_2 by eauto. reflexivity.
    - rewrite bool_decide_eq_false_2 by (intros [? ?]; discriminate). reflexivity. }
  unfold execute_bitte_swap, execute_bitte_swap_from_message. split.
  - erewrite bind_run by reflexivity. erewrite bind_run by exact Hrun.
    erewrite bind_run by reflexivity. rewrite cleanup_user_data_run. reflexivity.
  - erewrite bind_run by reflexivity. erewrite bind_run by exact Hrun.
    erewrite bind_run by reflexivity. rewrite cleanup_user_data_run. reflexivity.
Qed.

Lemma unsigned_swap_fails_cleanly_witness :
  execute_bitte_swap story_env 7 awaiting_confirmation
  = (Ok tt, cleaned 7 awaiting_confirmation,
     [EditMessageText ExecutingSwapText;
      EditMessageText (SwapFailedText (unsigned_failure 7 awaiting_confirmation))])
  /\ execute_bitte_swap_from_message story_env 7 awaiting_confirmation
     = (Ok tt, cleaned 7 awaiting_confirmation,
        [ReplyText ExecutingSwapText;
         ReplyText (SwapFailedText (unsigned_failure 7 awaiting_confirmation))])
  /\ unsigned_failure 7 awaiting_confirmation = NoWalletConfigured.
Proof.
  split; [|split].
  - apply (unsigned_swap_fails_cleanly story_env 7 awaiting_confirmation).
    vm_compute. reflexivity.
  - apply (unsigned_swap_fails_cleanly story_env 7 awaiting_confirmation).
    vm_compute. reflexivity.
  - vm_compute. reflexivity.
Defined.

(** *** Backing out of a swap *)

Lemma process_tool_invocations_reads e uid b :
  exists r, forall b2,
    user_data b2 !! uid = user_data b !! uid ->
    signer_configured b2 = signer_configured b ->
    process_tool_invocations e uid b2 = (r, b2, []).
Proof.
  destruct (user_data b !! uid ≫= (.!! "pending_tool_invocations")) as [v|] eqn:Hv.
  - destruct (signer_configured b) eqn:Hs.
    + destruct (execute_pending_stateless e v) as [r Hr]. exists r.
      intros b2 Hd2 Hs2. rewrite process_tool_invocations_cases, Hd2, Hv, Hs2. apply Hr.
    + eexists. intros b2 Hd2 Hs2.
      rewrite process_tool_invocations_cases, Hd2, Hv, Hs2. reflexivity.
  - eexists. intros b2 Hd2 Hs2.
    rewrite process_tool_invocations_cases, Hd2, Hv. reflexivity.
Qed.

Lemma execute_bitte_swap_run e uid b r :
  process_tool_invocations e uid b = (r, b, []) ->
  execute_bitte_swap e uid b
  = match r with
    | Ok (SwapSuccess tx_hash message) =>
        (Ok tt, cleaned uid b,
         [EditMessageText ExecutingSwapText;
          EditMessageText (SwapCompleteText message tx_hash)])
    | Ok (SwapFailure error) =>
        (Ok tt, cleaned uid b,
         [EditMessageText ExecutingSwapText; EditMessageText (SwapFailedText error)])
    | Raise ex => (Raise ex, b, [EditMessageText ExecutingSwapText])
    end.
Proof.
  intros Hrun. unfold execute_bitte_swap. erewrite bind_run by reflexivity.
  destruct r as [[tx_hash message|error]|ex].
  - erewrite bind_run by exact Hrun. erewrite bind_run by reflexivity.
    rewrite cleanup_user_data_run. reflexivity.
  - erewrite bind_run by exact Hrun. erewrite bind_run by reflexivity.
    rewrite cleanup_user_data_run. reflexivity.
  - unfold mbind at 1, handler_mbind, handler_bind. rewrite Hrun. reflexivity.
Qed.

Lemma execute_bitte_swap_from_message_run e uid b r :
  process_tool_invocations e uid b = (r, b, []) ->
  execute_bitte_swap_from_message e uid b
  = match r with
    | Ok (SwapSuccess tx_hash message) =>
        (Ok tt, cleaned uid b,
         [ReplyText ExecutingSwapText; ReplyText (SwapCompleteText message tx_hash)])
    | Ok (SwapFailure error) =>
        (Ok tt, cleaned uid b,
         [ReplyText ExecutingSwapText; ReplyText (SwapFailedText error)])
    | Raise ex => (Raise ex, b, [ReplyText ExecutingSwapText])
    end.
Proof.
  intros Hrun. unfold execute_bitte_swap_from_message. erewrite bind_run by reflexivity.
  destruct r as [[tx_hash message|error]|ex].
  - erewrite bind_run by exact Hrun. erewrite bind_run by reflexivity.
    rewrite cleanup_user_data_run. reflexivity.
  - erewrite bind_run by exact Hrun. erewrite bind_run by reflexivity.
    rewrite cleanup_user_data_run. reflexivity.
  - unfold mbind at 1, handler_mbind, handler_bind. rewrite Hrun. reflexivity.
Qed.

Lemma py_get_default_raises k d v ex :
  py_get_default k d v = Raise ex -> ex = AttributeError.
Proof. destruct v; simpl; congruence. Qed.

Lemma py_get_raises k v ex : py_get k v = Raise ex -> ex = AttributeError.
Proof. destruct v; simpl; congruence. Qed.

Lemma py_contains_raises k v ex : py_contains k v = Raise ex -> ex = TypeError.
Proof. destruct v; simpl; congruence. Qed.

Lemma py_getitem_found k v ex :
  py_contains k v = Ok true -> py_getitem k v = Raise ex -> ex = TypeError.
Proof.
  destruct v; simpl; try congruence. unfold dict_has.
  destruct (dict_get k d); congruence.
Qed.

Lemma collect_tool_data_raises found inv ex :
  collect_tool_data found inv = Raise ex -> ex = TypeError \/ ex = AttributeError.
Proof.
  unfold collect_tool_data, mbind, result_bind.
  destruct (py_get_default "toolName" (VStr "") inv) as [name|ex0] eqn:Hname.
  2: { intros [= <-]. right. eapply py_get_default_raises, Hname. }
  destruct (py_eq name (VStr "swap")).
  { destruct (py_get_default "result" (VDict []) inv) as [res|ex0] eqn:Hres.
    2: { intros [= <-]. right. eapply py_get_default_raises, Hres. }
    destruct (py_contains "data" res) as [[]|ex0] eqn:Hdata.
    - destruct (py_getitem "data" res) as [d|ex0] eqn:Hd; [discriminate|].
      intros [= <-]. left. eapply py_getitem_found; eassumption.
    - discriminate.
    - intros [= <-]. left. eapply py_contains_raises, Hdata. }
  destruct (py_eq name (VStr "generate-evm-tx")); [|discriminate].
  destruct (py_get_default "result" (VDict []) inv) as [res|ex0] eqn:Hres.
  2: { intros [= <-]. right. eapply py_get_default_raises, Hres. }
  destruct (py_contains "data" res) as [[]|ex0] eqn:Hdata.
  - destruct (py_getitem "data" res) as [d|ex0] eqn:Hd.
    2: { intros [= <-]. left. eapply py_getitem_found; eassumption. }
    destruct (py_contains "evmSignRequest" d) as [[]|ex0] eqn:Hreq.
    + destruct (py_getitem "evmSignRequest" d) as [t|ex0] eqn:Ht; [discriminate|].
      intros [= <-]. left. eapply py_getitem_found; eassumption.
    + discriminate.
    + intros [= <-]. left. eapply py_contains_raises, Hreq.
  - discriminate.
  - intros [= <-]. left. eapply py_contains_raises, Hdata.
Qed.

Lemma collect_tools_raises invs : forall found ex,
  collect_tools found invs = Raise ex -> ex = TypeError \/ ex = AttributeError.
Proof.
  induction invs as [|inv invs IH]; intros found ex; simpl; [discriminate|].
  destruct (collect_tool_data found inv) as [found'|ex'] eqn:Hinv; simpl.
  - apply IH.
  - intros [= <-]. eapply collect_tool_data_raises, Hinv.
Qed.

Lemma execute_pending_raises e v b ex b' out :
  execute_pending e v b = (Raise ex, b', out) -> ex = TypeError \/ ex = AttributeError.
Proof.
  unfold execute_pending, mbind at 1 2 3, handler_mbind, handler_bind, lift.
  destruct (py_iter v) as [invs|ex0] eqn:Hiter.
  2: { intros [= <- _ _]. destruct v; try discriminate; injection Hiter as <-; auto. }
  destruct (collect_tools (VNone, VNone) invs) as [[swap_data tx_data]|ex0] eqn:Hcollect.
  2: { intros [= <- _ _]. eapply collect_tools_raises, Hcollect. }
  destruct (if truthy tx_data then _ else _) as [[]|ex0] eqn:Hparams.
  - destruct (py_getitem "params" tx_data ≫= _) as [r|ex0]; cbn; intros; discriminate.
  - destruct (truthy swap_data); cbn; intros; discriminate.
  - intros [= <- _ _]. destruct (truthy tx_data); [|discriminate].
    destruct tx_data; simpl in Hparams; try discriminate; injection Hparams as <-; auto.
Qed.

Lemma retreated_data how uid b :
  user_data (retreated how uid b) = user_data b
  /\ signer_configured (retreated how uid b) = signer_configured b.
Proof.
  destruct how; unfold retreated; try (split; reflexivity).
  unfold reset_conversation, mbind, handler_mbind, handler_bind, gets.
  case_bool_decide; split; reflexivity.
Qed.

(** X18.  Backing out of a swap discards nothing: after the Cancel button,
    a cancelling message or [/reset], the tool invocations that were pending
    are still stored, and a callback query whose data starts with
    [confirm_swap_] executes them as it would have before: the same result
    (returned or raised), the same messages, and the same data left for the
    user.  The callback does not look at the state of the user or at the
    rest of its data. *)
Theorem retreat_keeps_pending how e uid suffix b :
  let confirm := handle_callback e uid ("confirm_swap_" ++ suffix) in
  let b1 := retreated how uid b in
  user_data b1 = user_data b
  /\ fst (fst (confirm b1)) = fst (fst (confirm b))
  /\ snd (confirm b1) = snd (confirm b)
  /\ user_data (snd (fst (confirm b1))) = user_data (snd (fst (confirm b))).
Proof.
  cbv zeta. destruct (retreated_data how uid b) as [Hdata Hsigner].
  split; [exact Hdata|].
  unfold handle_callback. rewrite (AllocationFacts.startswith_app "confirm_swap_").
  destruct (process_tool_invocations_reads e uid b) as [r Hr].
  rewrite (execute_bitte_swap_run e uid b r) by (apply Hr; reflexivity).
  rewrite (execute_bitte_swap_run e uid (retreated how uid b) r)
    by (apply Hr; [rewrite Hdata; reflexivity|exact Hsigner]).
  destruct r as [[tx_hash message|error]|ex]; cbn [fst snd];
    unfold cleaned; cbn [user_data]; rewrite ?Hdata; repeat split; reflexivity.
Qed.

(** *** The wallet command *)

Section WithDecoder.

Variable json_loads : string -> result value.

(** X19.  On a bot the updates can produce, [/wallet] changes nothing and
    does not raise, and what it shows is either that no wallet address is
    stored or an address that passed [is_valid_wallet_address]: the one the
    user's data holds. *)
Theorem wallet_info_shows_valid_address b uid :
  FinalSpec.reachable json_loads b ->
  (has_user_field uid "wallet_address" b = false
   /\ show_wallet_info uid b = (Ok tt, b, [ReplyText NoWalletText]))
  \/ (exists fields address,
        user_data b !! uid = Some fields
        /\ fields !! "wallet_address" = Some (VStr address)
        /\ is_valid_wallet_address address = true
        /\ show_wallet_info uid b
           = (Ok tt, b, [ReplyText (WalletInfoText (VStr address))])).
Proof.
  intros Hb. apply reachable_invariant in Hb as [Hdata _].
  unfold show_wallet_info, has_user_field.
  destruct (user_data b !! uid) as [fields|] eqn:Hfields.
  - destruct (fields !! "wallet_address") as [v|] eqn:Hv.
    + right. destruct (Hdata _ _ Hfields) as [Hw _].
      destruct (Hw v Hv) as (address & -> & Hvalid).
      exists fields, address. repeat split; try assumption.
      erewrite bind_run
        by (unfold gets, has_user_field; rewrite Hfields, Hv;
            rewrite bool_decide_eq_true_2 by eauto; reflexivity).
      cbn [negb]. erewrite bind_run by (apply (get_user_field_run _ _ _ _ _ Hfields Hv)).
      reflexivity.
    + left. rewrite bool_decide_eq_false_2 by (intros [? ?]; discriminate).
      split; [reflexivity|].
      erewrite bind_run
        by (unfold gets, has_user_field; rewrite Hfields, Hv;
            rewrite bool_decide_eq_false_2 by (intros [? ?]; discriminate);
            reflexivity).
      reflexivity.
  - left. split; [reflexivity|].
    erewrite bind_run by (unfold gets, has_user_field; rewrite Hfields; reflexivity).
    reflexivity.
Qed.

End WithDecoder.

Lemma wallet_info_shows_valid_address_witness :
  show_wallet_info 7 awaiting_confirmation
  = (Ok tt, awaiting_confirmation, [ReplyText (WalletInfoText (VStr valid_address))])
  /\ ((has_user_field 7 "wallet_address" awaiting_confirmation = false
       /\ show_wallet_info 7 awaiting_confirmation
          = (Ok tt, awaiting_confirmation, [ReplyText NoWalletText]))
      \/ (exists fields address,
            user_data awaiting_confirmation !! 7 = Some fields
            /\ fields !! "wallet_address" = Some (VStr address)
            /\ is_valid_wallet_address address = true
            /\ show_wallet_info 7 awaiting_confirmation
               = (Ok tt, awaiting_confirmation,
                  [ReplyText (WalletInfoText (VStr address))]))).
Proof.
  split; [vm_compute; reflexivity|].
  apply (wallet_info_shows_valid_address Json.loads awaiting_confirmation 7).
  apply awaiting_confirmation_reachable.
Defined.

End ExecutionFacts.

(** ** The conversation of [chatbot.py] *)
Module ChatbotFacts.
Import Chatbot ChatbotSpec.

Lemma chatbot_bind_run {A B} (m : H A) (f : A -> H B) b a b1 out :
  m b = (Ok a, b1, out) ->
  (m ≫= f) b = (let '(r, b2, out') := f a b1 in (r, b2, (out ++ out')%list)).
Proof. intros Hm. unfold mbind, handler_mbind, handler_bind. rewrite Hm. reflexivity. Qed.

Lemma chatbot_set_user_field_run uid key v b fields :
  user_data b !! uid = Some fields ->
  set_user_field uid key v b
  = (Ok tt, with_user_data (insert uid (<[key := v]> fields)) b, []).
Proof.
  intros Hf. unfold set_user_field, mbind, handler_mbind, handler_bind, gets.
  rewrite Hf. reflexivity.
Qed.

Lemma chatbot_get_user_field_run uid key b fields v :
  user_data b !! uid = Some fields -> fields !! key = Some v ->
  get_user_field uid key b = (Ok v, b, []).
Proof.
  intros Hf Hk. unfold get_user_field, mbind, handler_mbind, handler_bind, gets.
  rewrite Hf, Hk. reflexivity.
Qed.

Section WithDecoder.

Variable json_loads : string -> result value.

Local Abbreviation reachable := (ChatbotSpec.reachable json_loads).

Lemma chatbot_handle_twitter_url_run url uid b fields :
  is_valid_twitter_url url = true ->
  user_data b !! uid = Some fields ->
  handle_twitter_url url uid b
  = (Ok tt,
     {| user_states := <[uid := WAITING_FOR_WALLET_ADDRESS]> (user_states b);
        user_data := <[uid := <["twitter_url" := VStr url]> fields]> (user_data b) |},
     [UrlReceivedText]).
Proof.
  intros Hvalid Hfields. unfold handle_twitter_url. rewrite Hvalid. cbn [negb].
  erewrite chatbot_bind_run by (apply chatbot_set_user_field_run; exact Hfields). reflexivity.
Qed.

Lemma chatbot_handle_wallet_address_run x wallet_address uid b fields twitter_url :
  is_empty (strip wallet_address) = false ->
  user_data b !! uid = Some fields ->
  fields !! "twitter_url" = Some twitter_url ->
  let score := analyze_twitter json_loads x in
  handle_wallet_address json_loads x wallet_address uid b
  = (Ok tt,
     {| user_states := <[uid := WAITING_FOR_TOKEN_PREFERENCE]> (user_states b);
        user_data :=
          <[uid := <["score" := VInt score]>
                     (<["wallet_address" := VStr wallet_address]> fields)]>
            (user_data b) |},
     [ProcessingRequestText;
      ScoreText twitter_url wallet_address score (score * 10)]).
Proof.
  intros Hvalid Hfields Hurl score. unfold handle_wallet_address. rewrite Hvalid.
  erewrite chatbot_bind_run by (apply chatbot_set_user_field_run; exact Hfields).
  erewrite chatbot_bind_run by reflexivity.
  erewrite chatbot_bind_run
    by (eapply chatbot_get_user_field_run;
        [apply lookup_insert_eq|rewrite lookup_insert_ne by discriminate; exact Hurl]).
  cbv zeta.
  erewrite chatbot_bind_run by (apply chatbot_set_user_field_run; apply lookup_insert_eq).
  erewrite chatbot_bind_run by reflexivity.
  unfold reply_text, send, with_user_data, with_user_states.
  cbn [user_states user_data fst snd app]. rewrite !insert_insert_eq. reflexivity.
Qed.

Lemma chatbot_handle_token_preference_run preference uid b fields allocation
    twitter_url wallet_address score :
  parse_token_preference preference = Ok allocation ->
  user_data b !! uid = Some fields ->
  fields !! "twitter_url" = Some twitter_url ->
  fields !! "wallet_address" = Some wallet_address ->
  fields !! "score" = Some (VInt score) ->
  handle_token_preference preference uid b
  = (Ok tt,
     {| user_states := <[uid := IDLE]> (user_states b);
        user_data := delete uid (user_data b) |},
     [ProcessingAllocationText;
      TransactionCompleteText (VInt score) (VInt (score * 10))
        (format_token_allocation allocation)
        mock_transaction_hash mock_transaction_status]).
Proof.
  intros Hparse Hfields Hurl Hwallet Hscore.
  unfold handle_token_preference, try_except.
  erewrite chatbot_bind_run by (unfold lift; rewrite Hparse; reflexivity).
  erewrite chatbot_bind_run by reflexivity.
  erewrite chatbot_bind_run by (apply (chatbot_get_user_field_run _ _ _ _ _ Hfields Hurl)).
  erewrite chatbot_bind_run by (apply (chatbot_get_user_field_run _ _ _ _ _ Hfields Hwallet)).
  erewrite chatbot_bind_run by (apply (chatbot_get_user_field_run _ _ _ _ _ Hfields Hscore)).
  cbv zeta. erewrite chatbot_bind_run by reflexivity.
  erewrite chatbot_bind_run by reflexivity.
  erewrite chatbot_bind_run by reflexivity.
  unfold del_user_data.
  erewrite chatbot_bind_run by (unfold gets; cbn; rewrite Hfields; reflexivity).
  reflexivity.
Qed.

Lemma chatbot_handle_token_preference_error preference uid b e :
  parse_token_preference preference = Raise e ->
  handle_token_preference preference uid b = (Ok tt, b, [PreferenceErrorText e]).
Proof.
  intros Hparse. unfold handle_token_preference, try_except, mbind, handler_mbind,
    handler_bind, lift.
  rewrite Hparse, (ValidationFacts.parse_token_preference_raises _ _ Hparse). reflexivity.
Qed.

Lemma safe_reply t : safe (reply_text t).
Proof. intros b Hb. exists b, [t]. split; [reflexivity|exact Hb]. Qed.

Lemma invariant_update uid s fields b :
  invariant b -> provided s (Some fields) ->
  invariant {| user_states := <[uid := s]> (user_states b);
               user_data := <[uid := fields]> (user_data b) |}.
Proof.
  intros Hb Hs uid'. unfold current_state. cbn [user_states user_data].
  destruct (decide (uid = uid')) as [<-|Hne].
  - rewrite !lookup_insert_eq. exact Hs.
  - rewrite !lookup_insert_ne by exact Hne. apply Hb.
Qed.

Lemma safe_start uid : safe (start uid).
Proof.
  intros b Hb. do 2 eexists. split; [reflexivity|].
  apply (invariant_update uid WAITING_FOR_TWITTER_URL ∅ b Hb). cbn. eauto.
Qed.

Lemma safe_dispatch x user_message uid :
  safe (dispatch_message json_loads x user_message uid).
Proof.
  intros b Hb. unfold dispatch_message.
  erewrite chatbot_bind_run by reflexivity.
  pose proof (Hb uid) as Huid.
  destruct (current_state uid b) eqn:Hstate; cbn [provided] in Huid.
  - destruct Huid as [fields Hfields].
    destruct (is_valid_twitter_url user_message) eqn:Hvalid.
    + rewrite (chatbot_handle_twitter_url_run _ _ _ _ Hvalid Hfields).
      do 2 eexists. split; [reflexivity|].
      apply invariant_update; [exact Hb|]. cbn. eexists. split; [reflexivity|].
      rewrite lookup_insert_eq. eauto.
    + unfold handle_twitter_url. rewrite Hvalid. cbn. eauto.
  - destruct Huid as (fields & Hfields & [url Hurl]).
    destruct (is_empty (strip user_message)) eqn:Hblank.
    + unfold handle_wallet_address. rewrite Hblank. cbn. eauto.
    + rewrite (chatbot_handle_wallet_address_run _ _ _ _ _ _ Hblank Hfields Hurl).
      do 2 eexists. split; [reflexivity|].
      apply invariant_update; [exact Hb|]. cbn. eexists. split; [reflexivity|].
      rewrite lookup_insert_eq, !lookup_insert_ne, lookup_insert_eq, Hurl by discriminate.
      eauto.
  - destruct Huid as (fields & Hfields & [url Hurl] & [wallet Hwallet] & score & Hscore).
    destruct (parse_token_preference user_message) as [allocation|e] eqn:Hparse.
    + rewrite (chatbot_handle_token_preference_run _ _ _ _ _ _ _ _
                 Hparse Hfields Hurl Hwallet Hscore).
      do 2 eexists. split; [reflexivity|]. cbn [app].
      intros uid'. unfold current_state. cbn [user_states user_data].
      destruct (decide (uid = uid')) as [<-|Hne].
      * rewrite lookup_insert_eq. exact I.
      * rewrite lookup_insert_ne, lookup_delete_ne by exact Hne. apply Hb.
    + rewrite (chatbot_handle_token_preference_error _ _ _ _ Hparse). cbn. eauto.
  - cbn. eauto.
Qed.

Lemma safe_handle_update x u : safe (handle_update json_loads x u).
Proof.
  destruct u as [uid|uid|m]; cbn [handle_update].
  - apply safe_start.
  - apply safe_reply.
  - unfold handle_message. cbv zeta.
    destruct (existsb _ _); [|apply safe_dispatch].
    destruct (negb _); [|apply safe_dispatch].
    intros b Hb. exists b, []. split; [reflexivity|exact Hb].
Qed.

Lemma chatbot_reachable_invariant b : reachable b -> invariant b.
Proof.
  induction 1 as [|b x u Hb IH].
  - intros uid. unfold current_state. cbn. rewrite lookup_empty. exact I.
  - destruct (safe_handle_update x u b IH) as (b' & out & -> & Hb'). exact Hb'.
Qed.




End WithDecoder.

(** *** A conversation *)

Lemma chatbot_awaiting_wallet_reachable : reachable Json.loads awaiting_wallet.
Proof.
  unfold awaiting_wallet, run. cbn [fold_left].
  do 2 apply reachable_step. apply reachable_new.
Qed.

Lemma chatbot_awaiting_preference_reachable : reachable Json.loads awaiting_preference.
Proof.
  unfold awaiting_preference, run. cbn [fold_left].
  do 3 apply reachable_step. apply reachable_new.
Qed.




End ChatbotFacts.

(** ** The terminal chat of [swap.py] *)
Module SwapChatFacts.
Import SwapChat StreamSpec ContentSpec ContentFacts.

Section WithDecoder.

Variable json_loads : string -> result value.


End WithDecoder.
End SwapChatFacts.

(** ** What the handlers of [final.py] find stored *)
Module GuardFacts.
Import Final FinalSpec FinalFacts SessionFacts AgentSpec AgentFacts ExecutionSpec
  ExecutionFacts GuardSpec.

(** *** The guard is kept *)

Lemma prize_fields_insert key v fields :
  key <> "prize_amount" -> prize_fields fields -> prize_fields (<[key := v]> fields).
Proof.
  intros Hkey Hf Hprize. rewrite lookup_insert_ne in Hprize by exact Hkey.
  destruct (decide (key = "wallet_address")) as [->|Hw].
  - rewrite lookup_insert_eq. eauto.
  - rewrite lookup_insert_ne by exact Hw. apply Hf, Hprize.
Qed.

Lemma prize_fields_empty : prize_fields ∅.
Proof. intros [v Hv]. rewrite lookup_empty in Hv. discriminate. Qed.

Lemma guarded_set_state uid s :
  s <> WAITING_FOR_TWITTER_URL -> keeps guarded (set_state uid s).
Proof.
  intros Hs b [Hu Hp]. split; [|exact Hp]. intros uid' H'. simpl in *.
  destruct (decide (uid' = uid)) as [->|Hne].
  - rewrite lookup_insert_eq in H'. congruence.
  - rewrite lookup_insert_ne in H' by congruence. apply Hu, H'.
Qed.

Lemma guarded_user_data uid fields :
  prize_fields fields -> keeps guarded (modify (with_user_data (insert uid fields))).
Proof.
  intros Hf b [Hu Hp]. split.
  - intros uid' H'. simpl in *. destruct (decide (uid' = uid)) as [->|Hne].
    + rewrite lookup_insert_eq. eauto.
    + rewrite lookup_insert_ne by congruence. apply Hu, H'.
  - intros uid' fields' H'. simpl in *. destruct (decide (uid' = uid)) as [->|Hne].
    + rewrite lookup_insert_eq in H'. injection H' as <-. exact Hf.
    + rewrite lookup_insert_ne in H' by congruence. eapply Hp, H'.
Qed.

Lemma guarded_chat_histories f : keeps guarded (modify (with_chat_histories f)).
Proof. intros b Hb. exact Hb. Qed.

Lemma guarded_set_user_field uid key v :
  key <> "prize_amount" -> keeps guarded (set_user_field uid key v).
Proof.
  intros Hkey b Hb. destruct (user_data b !! uid) as [fields|] eqn:Hfields.
  - rewrite (set_user_field_run _ _ _ _ _ Hfields).
    apply (guarded_user_data uid (<[key := v]> fields)); [|exact Hb].
    apply prize_fields_insert; [exact Hkey|]. eapply (proj2 Hb), Hfields.
  - rewrite (set_user_field_missing _ _ _ _ Hfields). exact Hb.
Qed.

Ltac guard_step :=
  lazymatch goal with
  | |- keeps _ (set_state _ _) => apply guarded_set_state; discriminate
  | |- keeps _ (set_user_field _ _ _) => apply guarded_set_user_field; discriminate
  | |- keeps _ (modify (with_user_data (insert _ ∅))) =>
      apply guarded_user_data, prize_fields_empty
  | |- keeps _ (modify (with_chat_histories _)) => apply guarded_chat_histories
  | |- _ => keep_step
  end.

Ltac guard_all := cbv zeta; repeat (guard_step; cbv zeta).

Lemma guarded_cleanup uid : keeps guarded (cleanup_user_data uid).
Proof. unfold cleanup_user_data. guard_all. Qed.

Lemma guarded_start uid : keeps guarded (start uid).
Proof.
  intros b [Hu Hp]. rewrite start_run. cbn [fst snd]. split.
  - intros uid' H'. simpl in *. destruct (decide (uid' = uid)) as [->|Hne].
    + rewrite lookup_insert_eq. eauto.
    + rewrite lookup_insert_ne in H' by congruence.
      rewrite lookup_insert_ne by congruence. apply Hu, H'.
  - intros uid' fields' H'. simpl in *. destruct (decide (uid' = uid)) as [->|Hne].
    + rewrite lookup_insert_eq in H'. injection H' as <-. apply prize_fields_empty.
    + rewrite lookup_insert_ne in H' by congruence. eapply Hp, H'.
Qed.

(** The wallet step stores the address before the prize. *)
Lemma wallet_stored_set_state uid uid' s :
  s <> WAITING_FOR_TWITTER_URL -> keeps (wallet_stored uid) (set_state uid' s).
Proof.
  intros Hs b [Hb Hw]. split; [apply (guarded_set_state uid' s Hs b Hb)|exact Hw].
Qed.

Lemma wallet_stored_set_user_field uid key v :
  keeps (wallet_stored uid) (set_user_field uid key v).
Proof.
  intros b [[Hu Hp] (fields & Hfields & Hw)].
  rewrite (set_user_field_run _ _ _ _ _ Hfields).
  assert (is_Some (<[key := v]> fields !! "wallet_address")) as Hw'.
  { destruct (decide (key = "wallet_address")) as [->|Hne].
    - rewrite lookup_insert_eq. eauto.
    - rewrite lookup_insert_ne by exact Hne. exact Hw. }
  split.
  - apply (guarded_user_data uid (<[key := v]> fields)); [|split; assumption].
    intros _. exact Hw'.
  - exists (<[key := v]> fields). split; [apply lookup_insert_eq|exact Hw'].
Qed.

Lemma keeps_bind_mid {A B} (P P' : bot -> Prop) (m : H A) (f : A -> H B) :
  (forall b, P b ->
     match fst (fst (m b)) with
     | Ok _ => P' (snd (fst (m b)))
     | Raise _ => P (snd (fst (m b)))
     end) ->
  (forall a, keeps P' (f a)) ->
  (forall b, P' b -> P b) ->
  keeps P (m ≫= f).
Proof.
  intros Hm Hf Hweak b Hb. specialize (Hm b Hb).
  unfold mbind, handler_mbind, handler_bind.
  destruct (m b) as [[[a|ex] b1] out]; cbn [fst snd] in *.
  - specialize (Hf a b1 Hm). destruct (f a b1) as [[r b2] out2]. apply Hweak, Hf.
  - exact Hm.
Qed.

Section WithDecoder.

Variable json_loads : string -> result value.

Local Abbreviation reachable := (FinalSpec.reachable json_loads).

Lemma guarded_handle_wallet_address e wallet_address uid :
  keeps guarded (handle_wallet_address json_loads e wallet_address uid).
Proof.
  unfold handle_wallet_address. destruct (negb _); [apply keeps_send|].
  apply (keeps_bind_mid guarded (wallet_stored uid)).
  - intros b Hb. destruct (user_data b !! uid) as [fields|] eqn:Hfields.
    + pose proof (guarded_set_user_field uid "wallet_address"
                    (VStr (strip wallet_address)) ltac:(discriminate) b Hb) as Hg.
      rewrite (set_user_field_run _ _ _ _ _ Hfields) in *. cbn [fst snd] in *.
      split; [exact Hg|]. eexists. split; [apply lookup_insert_eq|].
      rewrite lookup_insert_eq. eauto.
    + rewrite (set_user_field_missing _ _ _ _ Hfields). exact Hb.
  - intros _. cbv zeta.
    repeat (first [ apply wallet_stored_set_user_field
                  | apply wallet_stored_set_state; discriminate
                  | keep_step ]; cbv zeta).
  - intros b [Hb _]. exact Hb.
Qed.

Lemma guarded_handle_swap_request e request uid :
  keeps guarded (handle_swap_request json_loads e request uid).
Proof. unfold handle_swap_request, send_to_bitte_ai. guard_all. Qed.

Lemma guarded_dispatch_message e user_message uid :
  keeps guarded (dispatch_message json_loads e user_message uid).
Proof.
  unfold dispatch_message. keep_step; [keep_step|]. destruct a.
  - unfold handle_twitter_url. guard_all.
  - apply guarded_handle_wallet_address.
  - apply guarded_handle_swap_request.
  - cbv zeta. destruct (existsb _ _).
    { unfold execute_bitte_swap_from_message, process_tool_invocations.
      guard_all; apply guarded_cleanup. }
    destruct (existsb _ _).
    { unfold cancel_swap_from_message. guard_all. }
    apply guarded_handle_swap_request.
  - keep_step.
Qed.

Lemma guarded_handle_update e u : keeps guarded (handle_update json_loads e u).
Proof.
  destruct u as [uid|uid|uid|uid|uid data|m]; cbn [handle_update].
  - apply guarded_start.
  - apply keeps_send.
  - unfold show_wallet_info. guard_all.
  - unfold reset_conversation. guard_all.
  - unfold handle_callback, execute_bitte_swap, cancel_swap, process_tool_invocations.
    guard_all; apply guarded_cleanup.
  - unfold handle_message. cbv zeta.
    destruct (existsb _ _); [|apply guarded_dispatch_message].
    destruct (negb _); [keep_step|apply guarded_dispatch_message].
Qed.

Lemma reachable_guarded b : reachable b -> guarded b.
Proof.
  induction 1 as [signer|b e u Hb IH Henv].
  - split.
    + intros uid H'. cbn in H'. rewrite lookup_empty in H'. discriminate.
    + intros uid fields H'. cbn in H'. rewrite lookup_empty in H'. discriminate.
  - apply guarded_handle_update, IH.
Qed.

(** *** What a handler can raise *)

Lemma bind_result_ok {A B} (m : H A) (f : A -> H B) b a b1 out :
  m b = (Ok a, b1, out) -> fst (fst ((m ≫= f) b)) = fst (fst (f a b1)).
Proof.
  intros Hm. unfold mbind, handler_mbind, handler_bind. rewrite Hm.
  destruct (f a b1) as [[r b2] out2]. reflexivity.
Qed.

Lemma mul_int_float_raises n f ex : mul_int_float n f = Raise ex -> ex = OverflowError.
Proof.
  unfold mul_int_float, float_of_int, mbind, result_bind.
  destruct (binary_normalize _ _ _ _ _); simpl; congruence.
Qed.

Lemma handle_twitter_url_returns url uid b :
  is_Some (user_data b !! uid) ->
  fst (fst (handle_twitter_url url uid b)) = Ok tt.
Proof.
  intros [fields Hfields]. destruct (is_valid_twitter_url url) eqn:Hvalid.
  - rewrite (handle_twitter_url_run _ _ _ _ Hvalid Hfields). reflexivity.
  - unfold handle_twitter_url. rewrite Hvalid. reflexivity.
Qed.

Lemma handle_wallet_address_raises e wallet_address uid b fields ex :
  user_data b !! uid = Some fields ->
  is_Some (fields !! "twitter_url") ->
  fst (fst (handle_wallet_address json_loads e wallet_address uid b)) = Raise ex ->
  ex = OverflowError.
Proof.
  intros Hfields [url Hurl]. unfold handle_wallet_address.
  destruct (negb _); [discriminate|].
  erewrite bind_result_ok by (apply set_user_field_run; exact Hfields).
  erewrite bind_result_ok by reflexivity.
  erewrite bind_result_ok
    by (eapply get_user_field_run;
        [apply lookup_insert_eq|rewrite lookup_insert_ne by discriminate; exact Hurl]).
  cbv zeta.
  erewrite bind_result_ok by (apply set_user_field_run; apply lookup_insert_eq).
  erewrite bind_result_ok by reflexivity.
  destruct (mul_int_float _ one_tenth) as [prize|ex'] eqn:Hprize.
  - erewrite bind_result_ok by reflexivity.
    erewrite bind_result_ok
      by (apply set_user_field_run; cbn [user_data with_user_data with_user_states];
          apply lookup_insert_eq).
    discriminate.
  - unfold mbind at 1, handler_mbind, handler_bind, lift. cbn [fst].
    intros [= <-]. eapply mul_int_float_raises, Hprize.
Qed.

Lemma handle_swap_request_returns e request uid b :
  prize_known b ->
  fst (fst (handle_swap_request json_loads e request uid b)) = Ok tt.
Proof.
  intros Hp. destruct (has_user_field uid "prize_amount" b) eqn:Hhas.
  - unfold has_user_field in Hhas.
    destruct (user_data b !! uid) as [fields|] eqn:Hfields; [|discriminate].
    apply bool_decide_eq_true_1 in Hhas.
    destruct (Hp uid fields Hfields Hhas) as [wallet Hwallet].
    destruct Hhas as [prize Hprize].
    destruct (handle_swap_request_run json_loads e request uid b fields prize wallet
                Hfields Hprize Hwallet) as (b' & out & -> & _).
    reflexivity.
  - unfold handle_swap_request.
    erewrite bind_result_ok by (unfold gets; rewrite Hhas; reflexivity).
    reflexivity.
Qed.

Lemma process_tool_invocations_raises e uid b ex :
  fst (fst (process_tool_invocations e uid b)) = Raise ex ->
  (ex = TypeError \/ ex = AttributeError) /\ signer_configured b = true.
Proof.
  rewrite process_tool_invocations_cases.
  destruct (user_data b !! uid ≫= (.!! "pending_tool_invocations")) as [v|];
    [|discriminate].
  destruct (signer_configured b); [|discriminate].
  destruct (execute_pending e v b) as [[r b'] out] eqn:Hrun. cbn [fst].
  intros ->. split; [|reflexivity]. eapply execute_pending_raises, Hrun.
Qed.

Lemma execute_bitte_swap_raises e uid b ex :
  fst (fst (execute_bitte_swap e uid b)) = Raise ex ->
  (ex = TypeError \/ ex = AttributeError) /\ signer_configured b = true.
Proof.
  destruct (process_tool_invocations_reads e uid b) as [r Hr].
  specialize (Hr b eq_refl eq_refl).
  rewrite (execute_bitte_swap_run e uid b r Hr).
  destruct r as [[tx_hash message|error]|ex']; try discriminate.
  cbn [fst]. intros [= <-]. apply (process_tool_invocations_raises e uid b).
  rewrite Hr. reflexivity.
Qed.

Lemma execute_bitte_swap_from_message_raises e uid b ex :
  fst (fst (execute_bitte_swap_from_message e uid b)) = Raise ex ->
  (ex = TypeError \/ ex = AttributeError) /\ signer_configured b = true.
Proof.
  destruct (process_tool_invocations_reads e uid b) as [r Hr].
  specialize (Hr b eq_refl eq_refl).
  rewrite (execute_bitte_swap_from_message_run e uid b r Hr).
  destruct r as [[tx_hash message|error]|ex']; try discriminate.
  cbn [fst]. intros [= <-]. apply (process_tool_invocations_raises e uid b).
  rewrite Hr. reflexivity.
Qed.

Lemma show_wallet_info_returns uid b : fst (fst (show_wallet_info uid b)) = Ok tt.
Proof.
  unfold show_wallet_info.
  destruct (has_user_field uid "wallet_address" b) eqn:Hhas.
  - erewrite bind_result_ok by (unfold gets; rewrite Hhas; reflexivity).
    unfold has_user_field in Hhas.
    destruct (user_data b !! uid) as [fields|] eqn:Hfields; [|discriminate].
    apply bool_decide_eq_true_1 in Hhas. destruct Hhas as [v Hv]. cbn [negb].
    erewrite bind_result_ok by (apply (get_user_field_run _ _ _ _ _ Hfields Hv)).
    reflexivity.
  - erewrite bind_result_ok by (unfold gets; rewrite Hhas; reflexivity).
    reflexivity.
Qed.

Lemma dispatch_message_raises e user_message uid b ex :
  url_known b -> guarded b ->
  fst (fst (dispatch_message json_loads e user_message uid b)) = Raise ex ->
  (ex = OverflowError /\ current_state uid b = WAITING_FOR_WALLET_ADDRESS)
  \/ ((ex = TypeError \/ ex = AttributeError)
      /\ current_state uid b = WAITING_FOR_SWAP_CONFIRMATION
      /\ signer_configured b = true).
Proof.
  intros Hurl [Hawait Hprize]. unfold dispatch_message.
  erewrite bind_result_ok by reflexivity.
  destruct (current_state uid b) eqn:Hstate.
  - rewrite handle_twitter_url_returns; [discriminate|].
    apply Hawait. unfold current_state in Hstate.
    destruct (user_states b !! uid) as [s|]; [|discriminate]. simpl in Hstate. congruence.
  - intros Hraise. left. split; [|reflexivity].
    unfold current_state in Hstate.
    destruct (user_states b !! uid) as [s|] eqn:Hs; [|discriminate].
    simpl in Hstate. subst s. destruct (Hurl uid Hs) as (fields & Hfields & Hknown).
    eapply handle_wallet_address_raises; eassumption.
  - rewrite handle_swap_request_returns by exact Hprize. discriminate.
  - cbv zeta. destruct (existsb _ _).
    { intros Hraise. right. apply execute_bitte_swap_from_message_raises in Hraise.
      tauto. }
    destruct (existsb _ _); [discriminate|].
    rewrite handle_swap_request_returns by exact Hprize. discriminate.
  - discriminate.
Qed.

(** X24.  On a bot the updates can produce, a handler of [final.py] returns
    or raises one of three exceptions.  An [OverflowError] leaves only the
    handler of a text message from a user whose wallet address is awaited:
    the score is too large to be multiplied by [0.1].  A [TypeError] or an
    [AttributeError] leaves only the confirmation of a swap, by the button
    or by a message, when a signing account is configured:
    [process_tool_invocations] reads the stored tool invocations outside
    its [try].  No handler raises a
    [KeyError]: every field a handler reads without a test is stored by
    the time the user's state selects that handler. *)
Theorem final_raises_only b e u ex :
  reachable b ->
  fst (fst (handle_update json_loads e u b)) = Raise ex ->
  escapes u b ex.
Proof.
  intros Hb. pose proof (reachable_guarded b Hb) as Hguard.
  apply reachable_invariant in Hb as [_ Hurl].
  destruct u as [uid|uid|uid|uid|uid data|m]; cbn [handle_update escapes].
  - rewrite start_run. discriminate.
  - discriminate.
  - rewrite show_wallet_info_returns. discriminate.
  - unfold reset_conversation.
    erewrite bind_result_ok by reflexivity.
    destruct (bool_decide _); discriminate.
  - unfold handle_callback. destruct (startswith "confirm_swap_" data).
    + intros Hraise. apply execute_bitte_swap_raises in Hraise. tauto.
    + destruct (String.eqb data "cancel_swap"); discriminate.
  - unfold handle_message. cbv zeta.
    destruct (existsb _ _); [|apply dispatch_message_raises; assumption].
    destruct (negb _); [discriminate|apply dispatch_message_raises; assumption].
Qed.

End WithDecoder.

Lemma signing_confirmation_reachable : FinalSpec.reachable Json.loads signing_confirmation.
Proof.
  unfold signing_confirmation. cbn [fold_left].
  do 4 (apply reachable_step; [|discriminate]). apply reachable_new.
Qed.

Lemma final_raises_only_witness :
  (fst (fst (handle_update Json.loads scalar_result_env (CallbackQuery 7 "confirm_swap_7")
               signing_confirmation)) = Raise TypeError
   /\ escapes (CallbackQuery 7 "confirm_swap_7") signing_confirmation TypeError)
  /\ (fst (fst (handle_update Json.loads huge_score_env (private_message valid_address)
                  awaiting_wallet)) = Raise OverflowError
      /\ escapes (private_message valid_address) awaiting_wallet OverflowError).
Proof.
  assert (fst (fst (handle_update Json.loads scalar_result_env
                      (CallbackQuery 7 "confirm_swap_7") signing_confirmation))
          = Raise TypeError) as Htype by (vm_compute; reflexivity).
  assert (fst (fst (handle_update Json.loads huge_score_env
                      (private_message valid_address) awaiting_wallet))
          = Raise OverflowError) as Hoverflow by (vm_compute; reflexivity).
  split; (split; [assumption|]).
  - apply (final_raises_only Json.loads signing_confirmation scalar_result_env
             (CallbackQuery 7 "confirm_swap_7") TypeError);
      [apply signing_confirmation_reachable|exact Htype].
  - apply (final_raises_only Json.loads awaiting_wallet huge_score_env
             (private_message valid_address) OverflowError);
      [apply awaiting_wallet_reachable|exact Hoverflow].
Defined.

End GuardFacts.

(** ** Whole conversations *)
Module ConversationFacts.
Import ConversationSpec.

(** *** [final.py] *)

Section FinalConversation.
Import Final FinalSpec FinalFacts AgentFacts.

Variable json_loads : string -> result value.

(** [handle_wallet_address] on a valid address, in closed form. *)
Lemma handle_wallet_address_run e wallet_address uid b fields twitter_url :
  is_valid_wallet_address (strip wallet_address) = true ->
  user_data b !! uid = Some fields ->
  fields !! "twitter_url" = Some twitter_url ->
  let score := analyze_twitter json_loads (scoring_exchange e) in
  let shown := <["score" := VInt score]>
                 (<["wallet_address" := VStr (strip wallet_address)]> fields) in
  handle_wallet_address json_loads e wallet_address uid b
  = match mul_int_float score one_tenth with
    | Ok prize_amount =>
        (Ok tt,
         {| user_states := <[uid := WAITING_FOR_SWAP_REQUEST]> (user_states b);
            user_data :=
              <[uid := <["prize_amount" := VFloat prize_amount]> shown]> (user_data b);
            chat_histories := chat_histories b;
            signer_configured := signer_configured b |},
         [ReplyText ProcessingRequestText;
          ReplyText (ScoreText twitter_url wallet_address score prize_amount)])
    | Raise ex =>
        (Raise ex,
         {| user_states := <[uid := WAITING_FOR_SWAP_REQUEST]> (user_states b);
            user_data := <[uid := shown]> (user_data b);
            chat_histories := chat_histories b;
            signer_configured := signer_configured b |},
         [ReplyText ProcessingRequestText])
    end.
Proof.
  intros Hvalid Hfields Hurl score shown. unfold handle_wallet_address.
  rewrite Hvalid. cbn [negb].
  erewrite bind_run by (apply set_user_field_run; exact Hfields).
  erewrite bind_run by reflexivity.
  erewrite bind_run
    by (eapply get_user_field_run;
        [apply lookup_insert_eq|rewrite lookup_insert_ne by discriminate; exact Hurl]).
  cbv zeta.
  erewrite bind_run by (apply set_user_field_run; apply lookup_insert_eq).
  erewrite bind_run by reflexivity.
  fold score. destruct (mul_int_float score one_tenth) as [prize_amount|ex].
  - erewrite bind_run by reflexivity.
    erewrite bind_run
      by (apply set_user_field_run; cbn [user_data with_user_data with_user_states];
          apply lookup_insert_eq).
    unfold reply_text, send, with_user_data, with_user_states.
    cbn [user_states user_data chat_histories signer_configured fst snd app].
    rewrite !insert_insert_eq. reflexivity.
  - unfold mbind at 1, handler_mbind, handler_bind, lift.
    unfold with_user_data, with_user_states.
    cbn [user_states user_data chat_histories signer_configured fst snd app].
    rewrite !insert_insert_eq. reflexivity.
Qed.

(** X25.  In [final.py], [/start], a valid URL and a valid wallet address,
    sent in a private chat, bring their user to the swap request from any
    bot, whatever that user's state and data were: the state is the awaited
    swap request, the chat history is empty, and the data is exactly the
    URL, the stripped address, the score and, unless multiplying the score
    by [0.1] raised, the prize; what the user had stored before, a session
    identifier included, is gone.  The other users are as they were. *)
Theorem start_reaches_swap_request e b uid url wallet_address :
  is_valid_twitter_url url = true ->
  is_valid_wallet_address (strip wallet_address) = true ->
  fst (final_run json_loads e
         [StartCommand uid; final_text uid url; final_text uid wallet_address] b)
  = {| user_states := <[uid := WAITING_FOR_SWAP_REQUEST]> (user_states b);
       user_data := <[uid := scored_fields json_loads e url wallet_address]> (user_data b);
       chat_histories := <[uid := []]> (chat_histories b);
       signer_configured := signer_configured b |}.
Proof.
  intros Hurl Hwallet. unfold final_run, final_text.
  cbn [fold_left handle_update fst snd]. rewrite start_run. cbn [fst snd].
  unfold handle_message.
  cbn [chat_type existsb String.eqb Ascii.eqb Bool.eqb orb message_text user_id].
  set (b1 := {| user_states := <[uid := WAITING_FOR_TWITTER_URL]> (user_states b);
                user_data := <[uid := ∅]> (user_data b);
                chat_histories := <[uid := []]> (chat_histories b);
                signer_configured := signer_configured b |}).
  assert (dispatch_message json_loads e url uid b1
          = (Ok tt,
             {| user_states := <[uid := WAITING_FOR_WALLET_ADDRESS]> (user_states b);
                user_data := <[uid := <["twitter_url" := VStr url]> ∅]> (user_data b);
                chat_histories := <[uid := []]> (chat_histories b);
                signer_configured := signer_configured b |},
             [ReplyText UrlReceivedText])) as ->.
  { unfold dispatch_message. erewrite bind_run by reflexivity.
    unfold current_state, b1. cbn [user_states]. rewrite lookup_insert_eq. cbn [default].
    erewrite (handle_twitter_url_run url uid _ ∅ Hurl)
      by (cbn [user_data]; apply lookup_insert_eq).
    cbn [user_states user_data chat_histories signer_configured app].
    rewrite !insert_insert_eq. reflexivity. }
  cbn [fst snd]. clear b1.
  unfold dispatch_message. erewrite bind_state_ok by reflexivity.
  unfold current_state. cbn [user_states]. rewrite lookup_insert_eq. cbn [default].
  erewrite (handle_wallet_address_run e wallet_address uid _ _ (VStr url) Hwallet)
    by (cbn [user_data]; apply lookup_insert_eq).
  unfold scored_fields.
  destruct (mul_int_float _ one_tenth);
    cbn [user_states user_data chat_histories signer_configured fst snd app];
    rewrite !insert_insert_eq; reflexivity.
Qed.

End FinalConversation.

Lemma start_reaches_swap_request_witness :
  fst (final_run Json.loads FinalSpec.story_env
         [Final.StartCommand 7;
          final_text 7 "https://x.com/a/status/1";
          final_text 7 ("  " ++ FinalSpec.valid_address)]
         FinalSpec.awaiting_confirmation)
  = {| Final.user_states :=
         <[7 := Final.WAITING_FOR_SWAP_REQUEST]>
           (Final.user_states FinalSpec.awaiting_confirmation);
       Final.user_data :=
         <[7 := scored_fields Json.loads FinalSpec.story_env "https://x.com/a/status/1"
                  ("  " ++ FinalSpec.valid_address)]>
           (Final.user_data FinalSpec.awaiting_confirmation);
       Final.chat_histories := <[7 := []]> (Final.chat_histories FinalSpec.awaiting_confirmation);
       Final.signer_configured := Final.signer_configured FinalSpec.awaiting_confirmation |}.
Proof.
  apply (start_reaches_swap_request Json.loads FinalSpec.story_env
           FinalSpec.awaiting_confirmation 7); vm_compute; reflexivity.
Defined.

(** *** [chatbot.py] *)

Section ChatbotConversation.
Import Chatbot ChatbotSpec ChatbotFacts.

Variable json_loads : string -> result value.


End ChatbotConversation.


End ConversationFacts.

(** ** Sessions of [chatbot.py] *)
Module ChatbotSessionFacts.
Import Chatbot ChatbotSpec ChatbotSessionSpec ConversationSpec.

Section Kept.

Variable P : bot -> Prop.

Lemma chatbot_keeps_ret {A} (a : A) : keeps P (mret a).
Proof. intros b Hb. exact Hb. Qed.

Lemma chatbot_keeps_bind {A B} (m : H A) (f : A -> H B) :
  keeps P m -> (forall a, keeps P (f a)) -> keeps P (m ≫= f).
Proof.
  intros Hm Hf b Hb. unfold mbind, handler_mbind, handler_bind.
  specialize (Hm b Hb). destruct (m b) as [[[a|e] b1] out]; simpl in *; [|exact Hm].
  specialize (Hf a b1 Hm). destruct (f a b1) as [[r b2] out']. exact Hf.
Qed.

Lemma chatbot_keeps_gets {A} (f : bot -> A) : keeps P (gets f).
Proof. intros b Hb. exact Hb. Qed.

Lemma chatbot_keeps_send t : keeps P (send t).
Proof. intros b Hb. exact Hb. Qed.

Lemma chatbot_keeps_raise {A} e : keeps P (raise (A := A) e).
Proof. intros b Hb. exact Hb. Qed.

Lemma chatbot_keeps_lift {A} (r : result A) : keeps P (lift r).
Proof. intros b Hb. exact Hb. Qed.

Lemma chatbot_keeps_try_except {A} (body : H A) catches handler :
  keeps P body -> (forall e, keeps P (handler e)) ->
  keeps P (try_except body catches handler).
Proof.
  intros Hm Hh b Hb. unfold try_except.
  specialize (Hm b Hb). destruct (body b) as [[[a|e] b1] out]; simpl in *; [exact Hm|].
  destruct (catches e); [|exact Hm].
  specialize (Hh e b1 Hm). destruct (handler e b1) as [[r b2] out']. exact Hh.
Qed.

End Kept.

Ltac chatbot_keep_step :=
  lazymatch goal with
  | |- keeps _ (mbind _ _) => apply chatbot_keeps_bind; [|intros]
  | |- keeps _ (mret _) => apply chatbot_keeps_ret
  | |- keeps _ (gets _) => apply chatbot_keeps_gets
  | |- keeps _ (send _) => apply chatbot_keeps_send
  | |- keeps _ (reply_text _) => apply chatbot_keeps_send
  | |- keeps _ (raise _) => apply chatbot_keeps_raise
  | |- keeps _ (lift _) => apply chatbot_keeps_lift
  | |- keeps _ (try_except _ _ _) => apply chatbot_keeps_try_except; [|intros]
  | |- keeps _ (if ?c then _ else _) => destruct c eqn:?
  | |- keeps _ (match ?x with _ => _ end) => destruct x eqn:?
  end.

Lemma chatbot_keeps_get_user_field P uid key : keeps P (get_user_field uid key).
Proof. unfold get_user_field. repeat chatbot_keep_step. Qed.

(** *** One user's update leaves the other users alone *)

Section Isolation.

Variable other : Z.
Variable held : option UserState * option (gmap string value).

Lemma chatbot_untouched_set_state uid s :
  uid <> other -> keeps (untouched other held) (set_state uid s).
Proof.
  intros Hne b Hs. unfold untouched, session in *. simpl.
  rewrite lookup_insert_ne by exact Hne. exact Hs.
Qed.

Lemma chatbot_untouched_insert uid fields :
  uid <> other -> keeps (untouched other held) (modify (with_user_data (insert uid fields))).
Proof.
  intros Hne b Hs. unfold untouched, session in *. simpl.
  rewrite lookup_insert_ne by exact Hne. exact Hs.
Qed.

Lemma chatbot_untouched_delete uid :
  uid <> other -> keeps (untouched other held) (modify (with_user_data (delete uid))).
Proof.
  intros Hne b Hs. unfold untouched, session in *. simpl.
  rewrite lookup_delete_ne by exact Hne. exact Hs.
Qed.

Ltac isolate_step Hne :=
  lazymatch goal with
  | |- keeps _ (set_state _ _) => apply chatbot_untouched_set_state, Hne
  | |- keeps _ (get_user_field _ _) => apply chatbot_keeps_get_user_field
  | |- keeps _ (modify (with_user_data (insert _ _))) => apply chatbot_untouched_insert, Hne
  | |- keeps _ (modify (with_user_data (delete _))) => apply chatbot_untouched_delete, Hne
  | |- _ => chatbot_keep_step
  end.

Ltac isolate Hne := cbv zeta; repeat (isolate_step Hne; cbv zeta).

Section WithDecoder.

Variable json_loads : string -> result value.

Lemma chatbot_untouched_dispatch x user_message uid :
  uid <> other -> keeps (untouched other held) (dispatch_message json_loads x user_message uid).
Proof.
  intros Hne. unfold dispatch_message. chatbot_keep_step; [chatbot_keep_step|].
  destruct a.
  - unfold handle_twitter_url, set_user_field. isolate Hne.
  - unfold handle_wallet_address, set_user_field. isolate Hne.
  - unfold handle_token_preference, del_user_data. isolate Hne.
  - chatbot_keep_step.
Qed.

Lemma chatbot_untouched_handle_update x u :
  update_user u <> other -> keeps (untouched other held) (handle_update json_loads x u).
Proof.
  intros Hne. destruct u as [uid|uid|m]; cbn [handle_update update_user] in *.
  - unfold start. isolate Hne.
  - apply chatbot_keeps_send.
  - unfold handle_message. cbv zeta.
    destruct (existsb _ _); [|apply chatbot_untouched_dispatch, Hne].
    destruct (negb _); [chatbot_keep_step|apply chatbot_untouched_dispatch, Hne].
Qed.

End WithDecoder.
End Isolation.

(** X27.  In [chatbot.py] an update of one user leaves every other user as
    they were: their state and their stored data are the same in the bot
    after the update, whether the handler returned or raised. *)
Theorem chatbot_users_isolated json_loads x u b other :
  other <> update_user u ->
  session other (step json_loads x u b) = session other b.
Proof.
  intros Hne.
  apply (chatbot_untouched_handle_update other (session other b) json_loads x u
           (not_eq_sym Hne) b).
  reflexivity.
Qed.

Lemma chatbot_users_isolated_witness :
  session 8 (step Json.loads (scored 7) (StartCommand 7) busy_chatbot)
  = session 8 busy_chatbot
  /\ session 7 (step Json.loads (scored 7) (StartCommand 7) busy_chatbot)
     <> session 7 busy_chatbot.
Proof.
  split.
  - apply (chatbot_users_isolated Json.loads (scored 7) (StartCommand 7) busy_chatbot 8).
    discriminate.
  - vm_compute. discriminate.
Defined.

(** *** The edges of the conversation *)

Section Edges.

Variable uid : Z.

Lemma chatbot_follows_set_state from s :
  may_follow from s = true -> keeps (follows uid from) (set_state uid s).
Proof.
  intros Hs b _. unfold follows, current_state. simpl.
  rewrite lookup_insert_eq. exact Hs.
Qed.

Lemma chatbot_follows_user_data from f :
  keeps (follows uid from) (modify (with_user_data f)).
Proof. intros b Hb. exact Hb. Qed.

Ltac follow_step :=
  lazymatch goal with
  | |- keeps _ (set_state _ _) => apply chatbot_follows_set_state; reflexivity
  | |- keeps _ (get_user_field _ _) => apply chatbot_keeps_get_user_field
  | |- keeps _ (modify (with_user_data _)) => apply chatbot_follows_user_data
  | |- _ => chatbot_keep_step
  end.

Ltac follow := cbv zeta; repeat (follow_step; cbv zeta).

Section WithDecoder.

Variable json_loads : string -> result value.

Lemma chatbot_follows_dispatch x user_message b :
  follows uid (current_state uid b)
    (snd (fst (dispatch_message json_loads x user_message uid b))).
Proof.
  assert (forall from, follows uid from b -> current_state uid b = from ->
            follows uid from (snd (fst (dispatch_message json_loads x user_message uid b))))
    as Hfrom.
  { intros from Hb Hfrom. unfold dispatch_message.
    unfold mbind at 1, handler_mbind, handler_bind, gets. rewrite Hfrom.
    assert (forall m : H unit, keeps (follows uid from) m ->
              follows uid from
                (snd (fst (let '(r, s'', out') := m b in (r, s'', ([] ++ out')%list)))))
      as Hrun.
    { intros m Hm. specialize (Hm b Hb). destruct (m b) as [[r s] out]. exact Hm. }
    destruct from; apply Hrun.
    - unfold handle_twitter_url, set_user_field. follow.
    - unfold handle_wallet_address, set_user_field. follow.
    - unfold handle_token_preference, del_user_data. follow.
    - apply chatbot_keeps_send. }
  apply Hfrom; [|reflexivity].
  unfold follows. destruct (current_state uid b); reflexivity.
Qed.

End WithDecoder.
End Edges.

(** X28.  In [chatbot.py] a text message moves the conversation along an
    edge of the state machine only: from idle nowhere, from the awaited URL
    to the awaited wallet address, from there to the awaited token
    preference, and from there to idle; or it leaves the state where it
    is.  [/start] sets the awaited URL and empties the data of its user,
    and [/help] changes nothing.  This holds of every bot and whether the
    handler returned or raised. *)
Theorem chatbot_message_follows_edge json_loads x b :
  (forall m,
     may_follow (current_state (user_id m) b)
       (current_state (user_id m) (step json_loads x (TextMessage m) b)) = true)
  /\ (forall uid,
        session uid (step json_loads x (StartCommand uid) b)
        = (Some WAITING_FOR_TWITTER_URL, Some ∅))
  /\ (forall uid, step json_loads x (HelpCommand uid) b = b).
Proof.
  split; [|split].
  - intros m. unfold step. cbn [handle_update].
    assert (may_follow (current_state (user_id m) b) (current_state (user_id m) b) = true)
      as Hrefl by (destruct (current_state _ _); reflexivity).
    unfold handle_message. cbv zeta.
    destruct (existsb _ _).
    + destruct (negb _); [exact Hrefl|]. apply chatbot_follows_dispatch.
    + apply chatbot_follows_dispatch.
  - intros uid. unfold step, session. cbn [handle_update].
    assert (start uid b
            = (Ok tt,
               {| user_states := <[uid := WAITING_FOR_TWITTER_URL]> (user_states b);
                  user_data := <[uid := ∅]> (user_data b) |},
               [WelcomeText])) as -> by reflexivity.
    cbn [fst snd user_states user_data]. rewrite !lookup_insert_eq. reflexivity.
  - reflexivity.
Qed.

End ChatbotSessionFacts.
